(** * Control-socket debugging clients: a shallow embedding

    The repository holds a handful of near-duplicate Python scripts that talk
    to an automation service on TCP port 11451: [gen_and_run.py],
    [generate_script.py], [run_script.py], [test_full_flow.py],
    [test_ai_agent.py] and [test_exclude_live.py].  Each opens a socket,
    sends one command line, accumulates the reply and decides by inspecting
    the decoded text when to stop reading.

    The development models
    - Python [str] values as lists of Unicode code points, with the
      [str] methods the scripts call ([in], [rstrip], [strip], [split],
      [endswith], slicing);
    - [bytes.decode('utf-8', 'replace')];
    - the socket as a script of observations (the clock reading taken by the
      loop test and what [recv] does next) together with a log of the calls
      made on it;
    - every read loop of the scripts as a function over that script; it
      gives [None] when the script of observations runs out with the loop
      still reading.

    Clock readings are rationals, in seconds.  [print] is taken to succeed,
    and [json.loads] and [str] of the standard library are parameters of
    the functions that call them.

    The scripts are also modelled as wholes, from their first line to their
    exit, and with them the helper scripts beside them: [quick_fix.py],
    which patches a source file by [str.replace], [analyze_xml.py], which
    lists the clickable elements of a UI dump, and the script that looks
    for one button in such a dump.  An XML document is the tree that
    [xml.etree.ElementTree] makes of it; the recursion over it is bounded
    by the nesting of calls that the interpreter allows, which the functions
    take as [limit].  A file is the bytes it holds, read and written in text
    mode: decoded and encoded as UTF-8, with the line ends translated. *)

From Stdlib Require Import QArith Strings.String Strings.Ascii Strings.Byte.
From stdpp Require Import gmap list.

Local Open Scope Z_scope.

(** ** Python strings *)

(** A [str] is a sequence of code points. *)
Abbreviation pystr := (list Z).
Abbreviation bytes := (list byte).

Module Py.

(** A string literal of the source, restricted to ASCII. *)
Definition lit (s : string) : pystr :=
  map (fun a => Z.of_N (N_of_ascii a)) (list_ascii_of_string s).

(** The double quote, which cannot be written inside a literal here. *)
Definition dq : Z := 34.

(** [s] between double quotes, as in the JSON texts the scripts look for. *)
Definition quoted (s : string) : pystr := dq :: lit s ++ [dq].

(** [Py_UNICODE_ISSPACE]: the code points that [str.strip], [str.rstrip]
    and the regular expression class [\s] treat as white space. *)
Definition isspace (c : Z) : bool :=
  ((9 <=? c) && (c <=? 13)) || ((28 <=? c) && (c <=? 32))
  || (c =? 133) || (c =? 160) || (c =? 5760)
  || ((8192 <=? c) && (c <=? 8202))
  || (c =? 8232) || (c =? 8233) || (c =? 8239) || (c =? 8287) || (c =? 12288).

(** [s.lstrip()] *)
Fixpoint lstrip (s : pystr) : pystr :=
  match s with
  | c :: t => if isspace c then lstrip t else s
  | [] => []
  end.

(** [s.rstrip()] *)
Definition rstrip (s : pystr) : pystr := rev (lstrip (rev s)).

(** [s.strip()] *)
Definition strip (s : pystr) : pystr := rstrip (lstrip s).

(** [s.startswith(p)] *)
Fixpoint startswith (p s : pystr) : bool :=
  match p, s with
  | [], _ => true
  | a :: p', b :: s' => (a =? b) && startswith p' s'
  | _ :: _, [] => false
  end.

(** [s.endswith(p)] *)
Definition endswith (p s : pystr) : bool := startswith (rev p) (rev s).

(** [needle in hay] *)
Fixpoint contains (needle hay : pystr) : bool :=
  startswith needle hay ||
  match hay with
  | [] => false
  | _ :: t => contains needle t
  end.

(** [s.split(sep)] for a one-character separator: never the empty list. *)
Fixpoint split (sep : Z) (s : pystr) : list pystr :=
  match s with
  | [] => [[]]
  | c :: t =>
      if c =? sep then [] :: split sep t
      else match split sep t with
           | l :: ls => (c :: l) :: ls
           | [] => [[c]]
           end
  end.

(** The line feed. *)
Definition nl : Z := 10.

(** The truth value of a string: non-empty. *)
Definition truthy (s : pystr) : bool :=
  match s with [] => false | _ :: _ => true end.

End Py.

(** ** Decoding bytes *)

Module Utf8.

Definition byte_val (b : byte) : Z := Z.of_N (Byte.to_N b).

(** U+FFFD, what the [replace] error handler puts for an undecodable run. *)
Definition REPLACEMENT : Z := 65533.

Definition is_continuation (b : Z) : bool := (128 <=? b) && (b <=? 191).

(** [all_data.decode('utf-8', 'replace')].  The decoder follows CPython's:
    an invalid start byte is replaced alone; a sequence cut by an invalid
    continuation byte is replaced up to (not including) that byte; a sequence
    cut by the end of the data is replaced as a whole.  Overlong forms,
    surrogates and code points above U+10FFFF are invalid after their first
    byte. *)
Fixpoint decode_replace (s : bytes) : pystr :=
  match s with
  | [] => []
  | b0 :: s1 =>
    let ch := byte_val b0 in
    if ch <? 128 then ch :: decode_replace s1
    else if ch <? 194 then REPLACEMENT :: decode_replace s1
    else if ch <? 224 then
      match s1 with
      | [] => [REPLACEMENT]
      | b1 :: s2 =>
        let ch2 := byte_val b1 in
        if is_continuation ch2
        then ((ch - 192) * 64 + (ch2 - 128)) :: decode_replace s2
        else REPLACEMENT :: decode_replace s1
      end
    else if ch <? 240 then
      match s1 with
      | [] => [REPLACEMENT]
      | b1 :: s2 =>
        let ch2 := byte_val b1 in
        if negb (is_continuation ch2)
           || (if ch2 <? 160 then ch =? 224 else ch =? 237)
        then REPLACEMENT :: decode_replace s1
        else
          match s2 with
          | [] => [REPLACEMENT]
          | b2 :: s3 =>
            let ch3 := byte_val b2 in
            if is_continuation ch3
            then ((ch - 224) * 4096 + (ch2 - 128) * 64 + (ch3 - 128))
                   :: decode_replace s3
            else REPLACEMENT :: decode_replace s2
          end
      end
    else if ch <? 245 then
      match s1 with
      | [] => [REPLACEMENT]
      | b1 :: s2 =>
        let ch2 := byte_val b1 in
        if negb (is_continuation ch2)
           || (if ch2 <? 144 then ch =? 240 else ch =? 244)
        then REPLACEMENT :: decode_replace s1
        else
          match s2 with
          | [] => [REPLACEMENT]
          | b2 :: s3 =>
            let ch3 := byte_val b2 in
            if negb (is_continuation ch3)
            then REPLACEMENT :: decode_replace s2
            else
              match s3 with
              | [] => [REPLACEMENT]
              | b3 :: s4 =>
                let ch4 := byte_val b3 in
                if is_continuation ch4
                then ((ch - 240) * 262144 + (ch2 - 128) * 4096
                      + (ch3 - 128) * 64 + (ch4 - 128))
                       :: decode_replace s4
                else REPLACEMENT :: decode_replace s3
              end
          end
      end
    else REPLACEMENT :: decode_replace s1
  end.

(** The bytes of a text of ASCII characters, for writing down responses. *)
Definition ascii_bytes (s : pystr) : bytes :=
  omap (fun c => Byte.of_N (Z.to_N c)) s.

End Utf8.

(** ** The socket and the clock, as the scripts see them *)

Module Sock.

(** What one call of [s.recv(n)] does. *)
Inductive recv_outcome :=
| Recv (chunk : bytes)        (* returns [chunk]; the empty chunk is a peer close *)
| RecvTimeout (later : Q)     (* raises [socket.timeout]; [later] is what
                                 [time.time() - start] reads in the handler *)
| RecvRaises (msg : pystr).   (* raises another exception, printed as [msg] *)

(** One turn of a read loop: the value of [time.time() - start] in the loop
    test, in seconds, and the outcome of the [recv] that follows if the test
    lets the body run. *)
Abbreviation tick := (Q * recv_outcome)%type.

(** The peer and the clock during one session. *)
Record world := World {
  connect_ok : bool;          (* [s.connect] returns (or raises) *)
  send_ok : bool;             (* [s.sendall] returns (or raises) *)
  reads : list tick
}.

(** The calls made on the socket, in order. *)
Inductive op :=
| Create
| SetTimeout (t : Q)
| Connect
| Sendall (text : pystr)      (* [sendall(text.encode('utf-8'))] *)
| RecvCall (bufsize : Z)
| Close.

Definition is_close (o : op) : bool :=
  match o with Close => true | _ => false end.

(** How many times [s.close()] was called. *)
Fixpoint closes (log : list op) : nat :=
  match log with
  | [] => 0%nat
  | o :: log' => ((if is_close o then 1 else 0) + closes log')%nat
  end.

(** How many times [s.recv] was called. *)
Fixpoint recvs (log : list op) : nat :=
  match log with
  | [] => 0%nat
  | RecvCall _ :: log' => S (recvs log')
  | _ :: log' => recvs log'
  end.

(** An exception that leaves the function or script. *)
Inductive exn := ConnectFailed | SendFailed.

(** The [break], [return] or loop test that ended a read loop. *)
Inductive exit :=
| Complete        (* the completion test held *)
| PeerClosed      (* [recv] returned the empty chunk *)
| RecvTimedOut    (* [except socket.timeout: break] *)
| Failed          (* another exception, [break] *)
| Deadline        (* the [while] test failed *)
| Sentinel.       (* a marker line, [s.close(); return] *)

(** [x < y] on clock readings. *)
Definition Qltb (x y : Q) : bool := negb (Qle_bool y x).

(** [int(x)]: truncation toward zero. *)
Definition int_of (x : Q) : Z := Z.quot (Qnum x) (Z.pos (Qden x)).

Definition nonempty (b : bytes) : bool :=
  match b with [] => false | _ :: _ => true end.

(** The chunks that the first [n] turns hand over, joined. *)
Fixpoint received (n : nat) (rs : list tick) : bytes :=
  match n, rs with
  | S n', (_, Recv chunk) :: rs' => chunk ++ received n' rs'
  | S n', _ :: rs' => received n' rs'
  | _, _ => []
  end.

End Sock.

Import Sock.

(** What the scripts print, by kind. Fixed banners are not recorded. *)
Inductive console :=
| Line (text : pystr)                       (* a response line *)
| LogLine (text : pystr)                    (* a [log] member *)
| ProgressLine (step total description : pystr)
| Waiting (elapsed : Z)                     (* the running seconds count *)
| Done                                      (* the completion message *)
| Error (msg : pystr)                       (* the exception message *)
| NoScriptId.

(** ** The texts the scripts look for *)

Module Lit.
Import Py.

(** The member [status] with value [v], both double-quoted, nothing
    around the colon: the texts of the completion tests. *)
Definition status (v : string) : pystr := quoted "status" ++ lit ":" ++ quoted v.

(** The same with a space after the colon, which no script looks for. *)
Definition status_spaced (v : string) : pystr :=
  quoted "status" ++ lit ": " ++ quoted v.

(** The same for [complete] without the outer quotes: the marker of
    [test_exclude_live.test_execute]. *)
Definition status_complete_inner : pystr :=
  lit "status" ++ [dq] ++ lit ":" ++ [dq] ++ lit "complete".

(** The member [success] with the JSON boolean [true], with and without a
    space after the colon. *)
Definition success_true_spaced : pystr := quoted "success" ++ lit ": true".
Definition success_true : pystr := quoted "success" ++ lit ":true".

(** The member [success] with the double-quoted string [true]. *)
Definition success_quoted : pystr := quoted "success" ++ lit ":" ++ quoted "true".

Definition brace : pystr := lit "}".

(** A terminal payload of one member: [field] and [v], both double-quoted,
    between braces. *)
Definition payload (field : string) (v : pystr) : pystr :=
  lit "{" ++ quoted field ++ lit ":" ++ [dq] ++ v ++ [dq] ++ lit "}".

End Lit.

(** ** [gen_and_run.py] *)

Module GenAndRun.
Import Py Utf8.

(** Lines 20-21: one of the three status texts occurs, and the text ends
    with a closing brace once trailing white space is dropped. *)
Definition completion_check (decoded : pystr) : bool :=
  (contains (Lit.status "success") decoded
   || contains (Lit.status "complete") decoded
   || contains (Lit.status "failed") decoded)
  && endswith Lit.brace (rstrip decoded).

(** Lines 13-28, from the state [all_data] with the calls made so far.
    [None]: the script of observations ends with the loop still running. *)
Fixpoint read_loop (timeout : Q) (all_data : bytes) (calls : list op)
    (rs : list tick) : option (exit * bytes * list op) :=
  match rs with
  | [] => None
  | (now, r) :: rs' =>
    if negb (Qltb now timeout) then Some (Deadline, all_data, calls)
    else
      let calls := calls ++ [RecvCall 4096] in
      match r with
      | Recv chunk =>
        if nonempty chunk then
          let all_data := all_data ++ chunk in
          let decoded := decode_replace all_data in
          if completion_check decoded then Some (Complete, all_data, calls)
          else read_loop timeout all_data calls rs'
        else Some (PeerClosed, all_data, calls)
      | RecvTimeout _ => Some (RecvTimedOut, all_data, calls)
      | RecvRaises _ => Some (Failed, all_data, calls)
      end
  end.

(** What a call of [send_command] amounts to. *)
Inductive result :=
| Returned (why : exit) (text : pystr)
| Raised (e : exn).

(** [send_command(cmd, timeout)], lines 4-31: the result and the calls made
    on the socket. *)
Definition send_command (cmd : pystr) (timeout : Q) (w : world)
    : option (result * list op) :=
  let calls := [Create; SetTimeout timeout; Connect] in
  if negb (connect_ok w) then Some (Raised ConnectFailed, calls)
  else
    let calls := calls ++ [Sendall (cmd ++ [nl])] in
    if negb (send_ok w) then Some (Raised SendFailed, calls)
    else
      match read_loop timeout [] calls (reads w) with
      | None => None
      | Some (why, all_data, calls) =>
        Some (Returned why (decode_replace all_data), calls ++ [Close])
      end.

(** ** The identifier scan, [re.search] at lines 42-44 *)

(** The pieces of the patterns the scripts use. *)
Inductive atom :=
| Chr (c : Z)                     (* a literal character *)
| Star (cls : Z -> bool)          (* [cls*], greedy *)
| GroupPlus (cls : Z -> bool).    (* [(cls+)], greedy, capturing *)

(** [cls*] followed by the rest of the pattern [k]: the longest run first,
    one character given back at a time while [k] fails. *)
Fixpoint star (cls : Z -> bool) (k : pystr -> option (list pystr))
    (s : pystr) : option (list pystr) :=
  match s with
  | x :: s' =>
      if cls x
      then match star cls k s' with Some g => Some g | None => k s end
      else k s
  | [] => k s
  end.

(** [(cls+)] after its first character: [taken] is the group so far. *)
Fixpoint plus (cls : Z -> bool) (k : pystr -> option (list pystr))
    (taken s : pystr) : option (list pystr) :=
  match s with
  | y :: s' =>
      if cls y
      then match plus cls k (taken ++ [y]) s' with
           | Some g => Some g
           | None => cons taken <$> k s
           end
      else cons taken <$> k s
  | [] => cons taken <$> k s
  end.

(** Match a pattern at the start of [s]; the captured groups in order. *)
Fixpoint match_here (pat : list atom) : pystr -> option (list pystr) :=
  match pat with
  | [] => fun _ => Some []
  | a :: pat' =>
    let k := match_here pat' in
    match a with
    | Chr c => fun s =>
        match s with
        | x :: s' => if x =? c then k s' else None
        | [] => None
        end
    | Star cls => star cls k
    | GroupPlus cls => fun s =>
        match s with
        | x :: s' => if cls x then plus cls k [x] s' else None
        | [] => None
        end
    end
  end.

(** [re.search]: the leftmost position where the pattern matches. *)
Fixpoint search (pat : list atom) (s : pystr) : option (list pystr) :=
  match match_here pat s with
  | Some g => Some g
  | None => match s with [] => None | _ :: t => search pat t end
  end.

(** Any character but the double quote. *)
Definition not_dq (c : Z) : bool := negb (c =? dq).

(** The pattern of line 42: [id] between double quotes, a colon, any white
    space, a double quote, one or more characters that are not a double
    quote (the group), a double quote. *)
Definition id_pattern : list atom :=
  map Chr (quoted "id" ++ lit ":")
  ++ [Star isspace; Chr dq; GroupPlus not_dq; Chr dq].

(** Lines 42-44: [match.group(1)] when there is a match. *)
Definition extract_id (result : pystr) : option pystr :=
  match search id_pattern result with
  | Some (g :: _) => Some g
  | _ => None
  end.

End GenAndRun.

(** ** [generate_script.py] *)

Module GenerateScript.
Import Py Utf8.

(** Line 20: the status text alone ends the loop. *)
Definition completion_check (decoded : pystr) : bool :=
  contains (Lit.status "success") decoded
  || contains (Lit.status "failed") decoded.

(** Lines 13-26; each turn prints the whole decoded buffer. *)
Fixpoint read_loop (all_data : bytes) (out : list console) (rs : list tick)
    : option (exit * bytes * list console) :=
  match rs with
  | [] => None
  | (now, r) :: rs' =>
    if negb (Qltb now 60) then Some (Deadline, all_data, out)
    else
      match r with
      | Recv chunk =>
        if nonempty chunk then
          let all_data := all_data ++ chunk in
          let decoded := decode_replace all_data in
          let out := out ++ [Line decoded] in
          if completion_check decoded then Some (Complete, all_data, out)
          else read_loop all_data out rs'
        else Some (PeerClosed, all_data, out)
      | RecvTimeout _ => Some (Failed, all_data, out)
      | RecvRaises _ => Some (Failed, all_data, out)
      end
  end.

End GenerateScript.

(** ** [run_script.py] *)

Module RunScript.
Import Py Utf8.

(** The variables of the script that the loop changes, with what it printed
    and the calls it made on the socket. *)
Record state := State {
  all_data : bytes;
  printed_lines : gset pystr;
  stdout : list console;
  calls : list op
}.

Definition init : state := State [] ∅ [] [].

(** Lines 21-23: a non-empty line not printed before is printed and
    remembered. *)
Definition print_line (st : state) (line : pystr) : state :=
  if truthy line && negb (bool_decide (line ∈ printed_lines st))
  then State (all_data st) ({[line]} ∪ printed_lines st)
             (stdout st ++ [Line line]) (calls st)
  else st.

(** Lines 19-23: the buffer is split again from its start on every read. *)
Definition print_lines (st : state) (decoded : pystr) : state :=
  foldl print_line st (split nl (strip decoded)).

(** Lines 24-25: [complete] or [success], and a closing brace at the end. *)
Definition completion_check (decoded : pystr) : bool :=
  (contains (Lit.status "complete") decoded
   || contains (Lit.status "success") decoded)
  && endswith Lit.brace (rstrip decoded).

Definition with_call (st : state) (o : op) : state :=
  State (all_data st) (printed_lines st) (stdout st) (calls st ++ [o]).

Definition with_chunk (st : state) (chunk : bytes) : state :=
  State (all_data st ++ chunk) (printed_lines st) (stdout st) (calls st).

Definition with_print (st : state) (c : console) : state :=
  State (all_data st) (printed_lines st) (stdout st ++ [c]) (calls st).

(** Lines 13-33.  A [socket.timeout] goes round the loop again. *)
Fixpoint read_loop (st : state) (rs : list tick) : option (exit * state) :=
  match rs with
  | [] => None
  | (now, r) :: rs' =>
    if negb (Qltb now 180) then Some (Deadline, st)
    else
      let st := with_call st (RecvCall 4096) in
      match r with
      | Recv chunk =>
        if nonempty chunk then
          let st := with_chunk st chunk in
          let decoded := decode_replace (all_data st) in
          let st := print_lines st decoded in
          if completion_check decoded then Some (Complete, st)
          else read_loop st rs'
        else Some (PeerClosed, st)
      | RecvTimeout _ => read_loop st rs'
      | RecvRaises msg => Some (Failed, with_print st (Error msg))
      end
  end.

(** The command of line 7. *)
Definition command : pystr :=
  lit "SCRIPT_EXECUTE_AUTO:84cc6c2b-7d26-4268-9839-4736dac8c850".

(** The whole script: lines 4-35.  When [connect] or [sendall] raises,
    the script ends there: the result is the exception with the calls made
    on the socket up to it. *)
Definition run_script (w : world)
    : option (exit * state) + exn * list op :=
  let st := State [] ∅ [] [Create; SetTimeout 180; Connect] in
  if negb (connect_ok w) then inr (ConnectFailed, calls st)
  else
    let st := with_call st (Sendall (command ++ [nl])) in
    if negb (send_ok w) then inr (SendFailed, calls st)
    else
      inl (match read_loop st (reads w) with
           | None => None
           | Some (why, st) => Some (why, with_call st Close)
           end).

(** The response lines printed, in order. *)
Definition lines_of (out : list console) : list pystr :=
  omap (fun c => match c with Line l => Some l | _ => None end) out.

(** A response handed over in the given chunks, each read well within the
    deadline, the peer closing after the last. *)
Definition deliver (chunks : list bytes) : list tick :=
  map (fun c => (0%Q, Recv c)) chunks ++ [(0%Q, Recv [])].

(** The lines the loop prints for a response delivered as [chunks]. *)
Definition emitted (chunks : list bytes) : list pystr :=
  match read_loop init (deliver chunks) with
  | Some (_, st) => lines_of (stdout st)
  | None => []
  end.

(** One byte per [recv]. *)
Definition bytewise (response : bytes) : list bytes :=
  map (fun b => [b]) response.

(** The buffer the loop ends with for a response delivered as [chunks]. *)
Definition buffered (chunks : list bytes) : bytes :=
  match read_loop init (deliver chunks) with
  | Some (_, st) => all_data st
  | None => []
  end.

End RunScript.

(** ** [test_full_flow.py] *)

Module TestFullFlow.
Import Py Utf8.

(** What [json.loads] returns.  Numbers are Python's [int] and [float]. *)
#[warnings="-register-all"] Inductive json (number : Type) :=
| JNull
| JBool (b : bool)
| JNumber (n : number)
| JString (s : pystr)
| JArray (items : list (json number))
| JObject (members : list (pystr * json number)).

Arguments JNull {number}.
Arguments JBool {number} b.
Arguments JNumber {number} n.
Arguments JString {number} s.
Arguments JArray {number} items.
Arguments JObject {number} members.

Section Session.

(** The standard library's [json.loads] ([None] when it raises) and [str]
    on the values it returns. *)
Variable number : Type.
Variable json_loads : pystr -> option (json number).
Variable py_str : json number -> pystr.

(** [d[k]] on a [dict]. *)
Definition member (k : string) (d : list (pystr * json number))
    : option (json number) :=
  snd <$> List.find (fun kv => bool_decide (fst kv = lit k)) d.

(** Lines 29-33 for parsed [data]: the one thing printed, if any.  Whatever
    raises inside the [try] (a value that is not a [dict], a missing key, a
    member that is not a [str]) prints nothing. *)
Definition report (data : json number) : option console :=
  match data with
  | JObject d =>
    match member "log" d with
    | Some (JString s) => Some (LogLine s)
    | Some _ => None
    | None =>
      match member "progress" d with
      | Some (JObject p) =>
        match member "step" p, member "total" p, member "description" p with
        | Some a, Some b, Some (JString c) =>
            Some (ProgressLine (py_str a) (py_str b) c)
        | _, _, _ => None
        end
      | _ => None
      end
    end
  | _ => None
  end.

Record state := State {
  all_data : bytes;
  printed : gset pystr;
  stdout : list console;
  calls : list op
}.

Definition init : state := State [] ∅ [] [].

(** Lines 27-35: what the [try] block prints for one line. *)
Definition render (line : pystr) : list console :=
  option_list (json_loads line ≫= report).

(** Lines 26-36 for one line. *)
Definition handle_line (st : state) (line : pystr) : state :=
  if truthy line && negb (bool_decide (line ∈ printed st))
  then State (all_data st) ({[line]} ∪ printed st)
             (stdout st ++ render line) (calls st)
  else st.

Definition handle_lines (st : state) (decoded : pystr) : state :=
  foldl handle_line st (split nl (strip decoded)).

Definition with_call (st : state) (o : op) : state :=
  State (all_data st) (printed st) (stdout st) (calls st ++ [o]).

Definition with_chunk (st : state) (chunk : bytes) : state :=
  State (all_data st ++ chunk) (printed st) (stdout st) (calls st).

(** Lines 17-46; the completion test is that of [gen_and_run.py]. *)
Fixpoint read_loop (timeout : Q) (st : state) (rs : list tick)
    : option (exit * state) :=
  match rs with
  | [] => None
  | (now, r) :: rs' =>
    if negb (Qltb now timeout) then Some (Deadline, st)
    else
      let st := with_call st (RecvCall 4096) in
      match r with
      | Recv chunk =>
        if nonempty chunk then
          let st := with_chunk st chunk in
          let decoded := decode_replace (all_data st) in
          let st := handle_lines st decoded in
          if GenAndRun.completion_check decoded then Some (Complete, st)
          else read_loop timeout st rs'
        else Some (PeerClosed, st)
      | RecvTimeout _ => Some (RecvTimedOut, st)
      | RecvRaises _ => Some (Failed, st)
      end
  end.

(** [send_command(cmd, timeout)], lines 7-49: the text returned and the
    final state, or the exception that [connect] or [sendall] raised with
    the calls made on the socket up to it. *)
Definition send_command (cmd : pystr) (timeout : Q) (w : world)
    : option (exit * pystr * state) + exn * list op :=
  let st := State [] ∅ [] [Create; SetTimeout timeout; Connect] in
  if negb (connect_ok w) then inr (ConnectFailed, calls st)
  else
    let st := with_call st (Sendall (cmd ++ [nl])) in
    if negb (send_ok w) then inr (SendFailed, calls st)
    else
      inl (match read_loop timeout st (reads w) with
           | None => None
           | Some (why, st) =>
               Some (why, decode_replace (all_data st), with_call st Close)
           end).

(** What the loop prints, and the buffer it ends with, for a response
    delivered as [chunks] with the default timeout of 120 seconds. *)
Definition emitted (chunks : list bytes) : list console :=
  match read_loop 120 init (RunScript.deliver chunks) with
  | Some (_, st) => stdout st
  | None => []
  end.

Definition buffered (chunks : list bytes) : bytes :=
  match read_loop 120 init (RunScript.deliver chunks) with
  | Some (_, st) => all_data st
  | None => []
  end.

End Session.

(** Line 76: the execution counts as successful when the reply holds the
    member [success] with the JSON boolean [true]. *)
Definition success (exec_result : pystr) : bool :=
  contains Lit.success_true_spaced exec_result
  || contains Lit.success_true exec_result.

End TestFullFlow.

(** ** The streaming loops of [test_ai_agent.py] and [test_exclude_live.py] *)

Module Stream.
Import Py Utf8.

(** How a streaming function ended. *)
Inductive ended :=
| Ended (why : exit)      (* it returned *)
| Escaped (e : exn)       (* an exception left it *)
| Skipped.                (* no script id: it returned before any socket *)

(** The [for line in text.strip().split(...)] loop of one chunk: each
    non-empty line is printed cut to [width] characters; the first line that
    [stop] accepts prints the completion message and ends the function
    ([true]); the lines after it are not looked at. *)
Fixpoint surface (width : nat) (stop : pystr -> bool) (lines : list pystr)
    (out : list console) : list console * bool :=
  match lines with
  | [] => (out, false)
  | line :: lines' =>
    if truthy line then
      let out := out ++ [Line (take width line)] in
      if stop line then (out ++ [Done], true)
      else surface width stop lines' out
    else surface width stop lines' out
  end.

(** The [while] loop shared by the three functions.  Only the chunk just
    received is decoded; an empty chunk and a [socket.timeout] go round
    again; the marker line closes the socket and returns from inside the
    loop. *)
Fixpoint stream_loop (deadline per_read : Q) (width : nat)
    (stop : pystr -> bool) (out : list console) (calls : list op)
    (rs : list tick) : option (exit * list console * list op) :=
  match rs with
  | [] => None
  | (now, r) :: rs' =>
    if negb (Qltb now deadline) then Some (Deadline, out, calls)
    else
      let calls := calls ++ [SetTimeout per_read; RecvCall 16384] in
      match r with
      | Recv data =>
        if nonempty data then
          let text := decode_replace data in
          let '(out, found) := surface width stop (split nl (strip text)) out in
          if found then Some (Sentinel, out, calls ++ [Close])
          else stream_loop deadline per_read width stop out calls rs'
        else stream_loop deadline per_read width stop out calls rs'
      | RecvTimeout later =>
        stream_loop deadline per_read width stop
          (out ++ [Waiting (int_of later)]) calls rs'
      | RecvRaises msg => Some (Failed, out ++ [Error msg], calls)
      end
  end.

(** A streaming function from its [socket.socket()] on: connect, send the
    command, loop, and [s.close()] after the loop when the loop was left by
    [break] or by its test. *)
Definition session (first_timeout deadline per_read : Q) (width : nat)
    (stop : pystr -> bool) (command : pystr) (w : world)
    : option (ended * list console * list op) :=
  let calls := [Create; SetTimeout first_timeout; Connect] in
  if negb (connect_ok w) then Some (Escaped ConnectFailed, [], calls)
  else
    let calls := calls ++ [Sendall command] in
    if negb (send_ok w) then Some (Escaped SendFailed, [], calls)
    else
      match stream_loop deadline per_read width stop [] calls (reads w) with
      | None => None
      | Some (Sentinel, out, calls) => Some (Ended Sentinel, out, calls)
      | Some (why, out, calls) => Some (Ended why, out, calls ++ [Close])
      end.

(** [if not script_id] *)
Definition has_id (script_id : option pystr) : option pystr :=
  match script_id with
  | Some (c :: s) => Some (c :: s)
  | _ => None
  end.

End Stream.

Module TestAiAgent.
Import Py Stream.

(** Line 94 *)
Definition script_stop (line : pystr) : bool :=
  contains (lit "SCRIPT_COMPLETE") line || contains (lit "SCRIPT_ERROR") line.

(** [test_script_execute(script_id)], lines 66-105 *)
Definition test_script_execute (script_id : option pystr) (w : world)
    : option (ended * list console * list op) :=
  match has_id script_id with
  | None => Some (Skipped, [NoScriptId], [])
  | Some id =>
      session 180 180 10 300 script_stop
        (lit "SCRIPT_EXECUTE_AUTO:" ++ id ++ [nl]) w
  end.

(** Line 133 *)
Definition goal_stop (line : pystr) : bool :=
  contains (lit "AI_GOAL_COMPLETE") line || contains (lit "AI_GOAL_ERROR") line.

(** The goal text of line 114. *)
Definition goal : pystr :=
  [25171; 24320; 23567; 32418; 20070; 65292; 28982; 21518; 22312; 39318;
   39029; 25214; 21040; 28857; 36190; 19978; 19975; 30340; 28689; 24067;
   27969; 21345; 29255; 65292; 28982; 21518; 28857; 20987; 36827; 21435;
   33719; 21462; 21069; 53; 20010; 26377; 24847; 20041; 35780; 35770].

(** [test_run_ai_goal()], lines 108-144 *)
Definition test_run_ai_goal (w : world)
    : option (ended * list console * list op) :=
  session 300 300 15 400 goal_stop (lit "RUN_AI_GOAL:" ++ goal ++ [nl]) w.

End TestAiAgent.

Module TestExcludeLive.
Import Py Stream.

(** Line 86 *)
Definition execute_stop (line : pystr) : bool :=
  contains Lit.status_complete_inner line || contains (lit "SCRIPT_ERROR") line.

(** [test_execute(script_id)], lines 61-97 *)
Definition test_execute (script_id : option pystr) (w : world)
    : option (ended * list console * list op) :=
  match has_id script_id with
  | None => Some (Skipped, [NoScriptId], [])
  | Some id =>
      session 300 180 15 300 execute_stop
        (lit "SCRIPT_EXECUTE_AUTO:" ++ id ++ [nl]) w
  end.

End TestExcludeLive.

(** ** Encoding and strict decoding *)

Module Codec.
Import Utf8.

(** The byte with value [z], for [z] from 0 to 255. *)
Definition byte_of (z : Z) : byte :=
  match Byte.of_N (Z.to_N z) with Some b => b | None => x00 end.

(** The UTF-8 bytes of one code point; [None] where [str.encode] raises
    [UnicodeEncodeError] (a surrogate) or the number is no code point. *)
Definition encode_char (c : Z) : option bytes :=
  if c <? 0 then None
  else if c <? 128 then Some [byte_of c]
  else if c <? 2048 then
    Some [byte_of (192 + c / 64); byte_of (128 + c mod 64)]
  else if c <? 65536 then
    if (55296 <=? c) && (c <=? 57343) then None
    else Some [byte_of (224 + c / 4096); byte_of (128 + (c / 64) mod 64);
               byte_of (128 + c mod 64)]
  else if c <? 1114112 then
    Some [byte_of (240 + c / 262144); byte_of (128 + (c / 4096) mod 64);
          byte_of (128 + (c / 64) mod 64); byte_of (128 + c mod 64)]
  else None.

(** [text.encode('utf-8')], as in [(cmd + '\n').encode('utf-8')] and
    [command.encode()]. *)
Fixpoint encode (text : pystr) : option bytes :=
  match text with
  | [] => Some []
  | c :: text' =>
      match encode_char c, encode text' with
      | Some b, Some bs => Some (b ++ bs)
      | _, _ => None
      end
  end.

(** [all_data.decode('utf-8')]: [None] where it raises
    [UnicodeDecodeError]. *)
Fixpoint decode_strict (s : bytes) : option pystr :=
  match s with
  | [] => Some []
  | b0 :: s1 =>
    let ch := byte_val b0 in
    if ch <? 128 then cons ch <$> decode_strict s1
    else if ch <? 194 then None
    else if ch <? 224 then
      match s1 with
      | [] => None
      | b1 :: s2 =>
        let ch2 := byte_val b1 in
        if is_continuation ch2
        then cons ((ch - 192) * 64 + (ch2 - 128)) <$> decode_strict s2
        else None
      end
    else if ch <? 240 then
      match s1 with
      | [] => None
      | b1 :: s2 =>
        let ch2 := byte_val b1 in
        if negb (is_continuation ch2)
           || (if ch2 <? 160 then ch =? 224 else ch =? 237)
        then None
        else
          match s2 with
          | [] => None
          | b2 :: s3 =>
            let ch3 := byte_val b2 in
            if is_continuation ch3
            then cons ((ch - 224) * 4096 + (ch2 - 128) * 64 + (ch3 - 128))
                   <$> decode_strict s3
            else None
          end
      end
    else if ch <? 245 then
      match s1 with
      | [] => None
      | b1 :: s2 =>
        let ch2 := byte_val b1 in
        if negb (is_continuation ch2)
           || (if ch2 <? 144 then ch =? 240 else ch =? 244)
        then None
        else
          match s2 with
          | [] => None
          | b2 :: s3 =>
            let ch3 := byte_val b2 in
            if negb (is_continuation ch3)
            then None
            else
              match s3 with
              | [] => None
              | b3 :: s4 =>
                let ch4 := byte_val b3 in
                if is_continuation ch4
                then cons ((ch - 240) * 262144 + (ch2 - 128) * 4096
                           + (ch3 - 128) * 64 + (ch4 - 128))
                       <$> decode_strict s4
                else None
              end
          end
      end
    else None
  end.

End Codec.

(** ** [quick_fix.py] *)

Module QuickFix.
Import Py.

(** [s.replace(old, new)] for a non-empty [old], from left to right:
    [skip] counts the characters of an occurrence just replaced that are
    still to be passed over. *)
Fixpoint replace_from (old new : pystr) (skip : nat) (s : pystr) : pystr :=
  match s with
  | [] => []
  | c :: t =>
      match skip with
      | S k => replace_from old new k t
      | O =>
          if startswith old s
          then new ++ replace_from old new (length old - 1) t
          else c :: replace_from old new 0 t
      end
  end.

(** [s.replace(old, new)]; an empty [old] matches before every character
    and at the end. *)
Definition replace (old new s : pystr) : pystr :=
  match old with
  | [] => new ++ flat_map (fun c => c :: new) s
  | _ :: _ => replace_from old new 0 s
  end.

(** Lines 5-8 *)
Definition import_old : pystr := lit "get_distinct_industries_cmd,".
Definition import_new : pystr :=
  lit "get_distinct_industries_cmd, get_numbers_by_files,".

(** Lines 11-14; the new text has a line feed and twelve spaces. *)
Definition handler_old : pystr := lit "delete_contact_numbers,".
Definition handler_new : pystr :=
  lit "delete_contact_numbers," ++ [nl] ++ lit "            get_numbers_by_files,".

(** Lines 4-14: from the text read to the text written back. *)
Definition quick_fix (content : pystr) : pystr :=
  replace handler_old handler_new (replace import_old import_new content).

Definition cr : Z := 13.

(** What [f.read()] on a file opened in text mode makes of the line ends
    (the default [newline=None]): a carriage return, together with the line
    feed that follows it if there is one, becomes one line feed. *)
Fixpoint read_newlines (s : pystr) : pystr :=
  match s with
  | [] => []
  | c :: t =>
      if bool_decide (c = cr)
      then nl :: match t with
                 | [] => []
                 | d :: t' =>
                     if bool_decide (d = nl)
                     then read_newlines t' else read_newlines t
                 end
      else c :: read_newlines t
  end.

(** [os.linesep]: a line feed, or on Windows a carriage return and a line
    feed. *)
Inductive platform := Posix | Windows.

Definition linesep (os : platform) : pystr :=
  match os with Posix => [nl] | Windows => [cr; nl] end.

(** What [f.write(content)] in text mode makes of them: every line feed
    becomes [os.linesep]. *)
Definition write_newlines (os : platform) (s : pystr) : pystr :=
  flat_map (fun c => if bool_decide (c = nl) then linesep os else [c]) s.

(** How the script ends: its last line is reached, or a line raises. *)
Inductive raised :=
| OpenFailed            (* lines 1 and 16: [OSError] *)
| UnicodeDecodeError    (* line 2 *)
| UnicodeEncodeError.   (* line 17 *)

Inductive outcome := Done | Raised (e : raised).

(** The script on the file [src-tauri/src/main.rs], lines 1-19: how it
    ends, and the file afterwards.  [file] holds the bytes of the file,
    [None] when line 1 cannot open it; [writable] tells whether line 16 can
    open it for writing, which empties it.  Reading decodes the bytes as
    UTF-8 and translates the line ends; writing translates them back for the
    platform [os] and encodes the text.  [Done] is printed on the last
    line. *)
Definition run (os : platform) (writable : bool) (file : option bytes)
    : outcome * option bytes :=
  match file with
  | None => (Raised OpenFailed, None)
  | Some data =>
      match Codec.decode_strict data with
      | None => (Raised UnicodeDecodeError, Some data)
      | Some text =>
          let content := quick_fix (read_newlines text) in
          if writable then
            match Codec.encode (write_newlines os content) with
            | Some data' => (Done, Some data')
            | None => (Raised UnicodeEncodeError, Some [])
            end
          else (Raised OpenFailed, Some data)
      end
  end.

End QuickFix.

(** ** [analyze_xml.py] *)

Module AnalyzeXml.
Import Py.

(** An [xml.etree.ElementTree] element: its tag, its attribute [dict] and
    its children in document order. *)
#[warnings="-register-all"] Inductive element :=
| Element (tag : pystr) (attrib : gmap pystr pystr) (children : list element).

Definition attrib_of (node : element) : gmap pystr pystr :=
  match node with Element _ a _ => a end.

Definition children_of (node : element) : list element :=
  match node with Element _ _ cs => cs end.

(** [node.get(key, '')] *)
Definition get (node : element) (key : string) : pystr :=
  default [] (attrib_of node !! lit key).

(** [a or b] on strings *)
Definition py_or (a b : pystr) : pystr := if truthy a then a else b.

(** The dictionary of lines 20-28. *)
Record element_info := ElementInfo {
  depth : nat;
  bounds : pystr;
  text : pystr;
  resource_id : pystr;
  class_name : pystr;
  content_desc : pystr;
  display_name : pystr
}.

(** The text of line 27 for an element without text, description or
    resource id: four Chinese characters for "unknown element" and the class
    name in parentheses. *)
Definition unknown (class_name : pystr) : pystr :=
  [26410; 30693; 20803; 32032] ++ lit "(" ++ class_name ++ lit ")".

(** Lines 14-28: what is appended for a clickable node. *)
Definition describe (node : element) (depth : nat) : element_info :=
  let bounds := get node "bounds" in
  let text := get node "text" in
  let resource_id := get node "resource-id" in
  let class_name := get node "class" in
  let content_desc := get node "content-desc" in
  ElementInfo depth bounds text resource_id class_name content_desc
    (py_or text (py_or content_desc (py_or resource_id (unknown class_name)))).

(** [node.get('clickable') == 'true'] *)
Definition clickable (node : element) : bool :=
  bool_decide (attrib_of node !! lit "clickable" = Some (lit "true")).

(** [find_clickable(node, depth)], lines 12-33, on the list
    [clickable_elements] that it appends to.  The function calls itself once
    for every level of the tree, and the interpreter bounds the nesting of
    calls: [limit] is the number of nested calls of [find_clickable] that it
    still allows.  A call beyond that raises [RecursionError], which is
    [None]; the exception leaves the loop of line 32 and every call around
    it. *)
Fixpoint find_clickable (limit : nat) (node : element) (depth : nat)
    (clickable_elements : list element_info) : option (list element_info) :=
  match limit with
  | O => None
  | S limit =>
      let clickable_elements :=
        if clickable node
        then clickable_elements ++ [describe node depth]
        else clickable_elements in
      fold_left
        (fun acc child => acc ≫= find_clickable limit child (S depth))
        (children_of node) (Some clickable_elements)
  end.

(** What the script prints, by kind. *)
Inductive said :=
| Usage                                   (* line 44 *)
| Analysing                               (* lines 48-49 *)
| ParseFailed                             (* line 39, with the exception *)
| NoneFound                               (* line 54 *)
| Found (count : nat)                     (* line 57 *)
| Item (number : nat) (info : element_info).   (* lines 61-69 *)

(** [analyze_clickable_elements(xml_file)], lines 4-40: what it prints and
    what it returns.  [parsed] is what [ET.parse(xml_file).getroot()] gives,
    [None] when it raises.  The clause of line 38 catches that exception
    and the [RecursionError] of a tree deeper than [limit] alike: the
    exception is printed and the result is a new empty list, whatever
    [clickable_elements] held by then. *)
Definition analyze_clickable_elements (limit : nat) (parsed : option element)
    : list said * list element_info :=
  match parsed with
  | Some root =>
      match find_clickable limit root 0 [] with
      | Some clickable_elements => ([], clickable_elements)
      | None => ([ParseFailed], [])
      end
  | None => ([ParseFailed], [])
  end.

(** [main()], lines 42-69: [argv] is [sys.argv], [parse] what parsing the
    named file gives, and [limit] the nesting of calls that is left for
    [find_clickable].  The exit status is 1 for a wrong number of arguments,
    and 0 otherwise. *)
Definition main (limit : nat) (argv : list pystr)
    (parse : pystr -> option element) : list said * Z :=
  match argv with
  | [_; xml_file] =>
      let '(errors, elements) :=
        analyze_clickable_elements limit (parse xml_file) in
      let out := Analysing :: errors in
      match elements with
      | [] => (out ++ [NoneFound], 0)
      | _ :: _ =>
          (out ++ [Found (length elements)]
           ++ imap (fun i info => Item (S i) info) elements, 0)
      end
  | _ => ([Usage], 1)
  end.

(** [root.iter()] with the depth of each element: the elements in document
    order, parents before children. *)
Fixpoint iter (node : element) (depth : nat) : list (nat * element) :=
  match node with
  | Element _ _ children =>
      (depth, node) :: flat_map (fun child => iter child (S depth)) children
  end.

(** The number of levels of a tree. *)
Fixpoint height (node : element) : nat :=
  match node with
  | Element _ _ children => S (foldr (fun child h => max (height child) h) 0%nat children)
  end.

End AnalyzeXml.

(** ** What the further properties say *)

(** A code point that [str.encode] accepts: a Unicode scalar value. *)
Definition scalar (c : Z) : Prop :=
  0 <= c < 1114112 /\ ~ (55296 <= c <= 57343).

(** [needle] occurs in [pre ++ needle] at its end only: a text that follows
    [pre] and starts with [needle] has its first occurrence of [needle]
    right after [pre]. *)
Definition first_after (needle pre : pystr) : Prop :=
  forall a b, pre ++ needle = a ++ needle ++ b -> b = [].

(** The member text that the identifier scan looks for. *)
Definition id_key : pystr := Py.quoted "id" ++ Py.lit ":".

(** The shape of a response line on the console: not empty, no longer than
    [width], free of line feeds. *)
Definition well_cut (width : nat) (c : console) : Prop :=
  match c with
  | Line text => text <> [] /\ (length text <= width)%nat /\ (Py.nl ∉ text)
  | _ => True
  end.

(** ** [gen_and_run.py], the script around [send_command] *)

Module GenAndRunScript.
Import Py GenAndRun.

(** The line of 50 equals signs. *)
Definition rule : pystr := repeat 61 50.

(** The goal text of line 37; it holds two double quotes. *)
Definition goal : pystr :=
  [25171; 24320; 23567; 32418; 20070; 65292; 28378; 21160; 39318; 39029;
   25214; 21040; 21253; 21547; 34; 19975; 34; 23383; 26679; 30340; 28857;
   36190; 25968; 31508; 35760; 65292; 28857; 20987; 36827; 20837; 21518;
   25552; 21462; 53; 26465; 35780; 35770].

(** How the script ends: it runs to its last line, or an exception that
    left [send_command] ends it with a traceback. *)
Inductive ending := Finished | Traceback (e : exn).

(** Lines 55-58: the lines of the reply that hold more than white space. *)
Definition progress (exec_result : pystr) : list pystr :=
  List.filter (fun line => truthy (strip line)) (split nl exec_result).

(** Lines 34-60.  [w1] is the peer and the clock during the first session,
    [w2] during the second.  The result: how the script ended, the texts
    given to [print] in order, and the calls on the two sockets. *)
Definition main (w1 w2 : world)
    : option (ending * list pystr * list op) :=
  let out := [rule; lit "Step 1: Generating script..."; rule] in
  match send_command (lit "SCRIPT_GENERATE:" ++ goal) 60 w1 with
  | None => None
  | Some (Raised e, calls) => Some (Traceback e, out, calls)
  | Some (Returned _ result, calls) =>
    let out := out ++ [result] in
    match extract_id result with
    | Some script_id =>
      let out := out ++ [nl :: lit "Script ID: " ++ script_id;
                         nl :: rule;
                         lit "Step 2: Executing script with auto-improve...";
                         rule] in
      match send_command (lit "SCRIPT_EXECUTE_AUTO:" ++ script_id) 180 w2 with
      | None => None
      | Some (Raised e, calls2) => Some (Traceback e, out, calls ++ calls2)
      | Some (Returned _ exec_result, calls2) =>
          Some (Finished, out ++ progress exec_result, calls ++ calls2)
      end
    | None =>
        Some (Finished, out ++ [lit "Failed to extract script ID"], calls)
    end
  end.

End GenAndRunScript.

(** ** The generating functions of [test_ai_agent.py] and [test_exclude_live.py] *)

Module Generate.
Import Py Utf8 Stream.
Import TestFullFlow(json, JNull, JBool, JNumber, JString, JArray, JObject, member).

(** What [json.loads] does with a text. *)
Inductive loads_outcome (number : Type) :=
| Parsed (v : json number)
| NotJson                         (* raises [json.JSONDecodeError] *)
| LoadsRaises (msg : pystr).      (* raises another exception *)

Arguments Parsed {number} v.
Arguments NotJson {number}.
Arguments LoadsRaises {number} msg.

(** What the two functions print, by kind.  The fixed lines printed before
    the loop are not recorded, and the console is taken to accept every
    text, so that [print] does not raise. *)
Inductive said (number : Type) :=
| Banner                                   (* the success banner *)
| Dump (result : json number)              (* [json.dumps(result, ...)[:2000]] *)
| Fields (script_id : json number)
    (script_name step_count : option (json number))   (* id, name, steps *)
| Elapsed (seconds : Z)                    (* the running seconds count *)
| Problem (msg : pystr)                    (* the exception message *)
| TypeProblem                              (* the message of a [TypeError] *)
| Response (text : pystr).                 (* the raw response *)

Arguments Banner {number}.
Arguments Dump {number} result.
Arguments Fields {number} script_id script_name step_count.
Arguments Elapsed {number} seconds.
Arguments Problem {number} msg.
Arguments TypeProblem {number}.
Arguments Response {number} text.

Section Functions.

(** The standard library's [json.loads], and [bool] on the numbers it
    returns. *)
Variable number : Type.
Variable json_loads : pystr -> loads_outcome number.
Variable nonzero : number -> bool.

(** [bool(v)], as in [if script_id] *)
Definition json_truthy (v : json number) : bool :=
  match v with
  | JNull => false
  | JBool b => b
  | JNumber n => nonzero n
  | JString s => truthy s
  | JArray items => match items with [] => false | _ :: _ => true end
  | JObject members => match members with [] => false | _ :: _ => true end
  end.

(** [v is None] *)
Definition is_none (v : json number) : bool :=
  match v with JNull => true | _ => false end.

(** ['scriptId' == v] *)
Definition is_script_id (v : json number) : bool :=
  match v with
  | JString s => bool_decide (s = lit "scriptId")
  | _ => false
  end.

(** [test_ai_agent.py], lines 41-45, for the parsed [result]: the script id
    and what is printed.  [None] where a [TypeError] is raised: by [in] on a
    number, a boolean or [None], by the subscript on a list or a string. *)
Definition take_id (result : json number)
    : option (json number * list (said number)) :=
  match result with
  | JObject d =>
      match member number "scriptId" d with
      | Some v =>
          Some (v, [Fields v (member number "scriptName" d)
                             (member number "stepCount" d)])
      | None => Some (JNull, [])
      end
  | JArray items =>
      if existsb is_script_id items then None else Some (JNull, [])
  | JString s =>
      if contains (lit "scriptId") s then None else Some (JNull, [])
  | _ => None
  end.

(** [test_script_generate], lines 28-56.  The buffer must decode strictly
    and end with a closing brace before it is parsed; whatever parses ends
    the loop.  An empty chunk, a buffer that does not decode or parse, and
    a [socket.timeout] go round again. *)
Fixpoint script_loop (all_data : bytes) (out : list (said number))
    (calls : list op) (rs : list tick)
    : option (exit * bytes * json number * list (said number) * list op) :=
  match rs with
  | [] => None
  | (now, r) :: rs' =>
    if negb (Qltb now 120) then Some (Deadline, all_data, JNull, out, calls)
    else
      let calls := calls ++ [SetTimeout 5; RecvCall 16384] in
      match r with
      | Recv chunk =>
        if nonempty chunk then
          let all_data := all_data ++ chunk in
          match Codec.decode_strict all_data with
          | None => script_loop all_data out calls rs'
          | Some text =>
            if endswith Lit.brace (strip text) then
              match json_loads text with
              | NotJson => script_loop all_data out calls rs'
              | LoadsRaises msg =>
                  Some (Failed, all_data, JNull, out ++ [Problem msg], calls)
              | Parsed result =>
                  let out := out ++ [Banner; Dump result] in
                  match take_id result with
                  | Some (script_id, fields) =>
                      Some (Complete, all_data, script_id, out ++ fields, calls)
                  | None =>
                      Some (Failed, all_data, JNull, out ++ [TypeProblem], calls)
                  end
              end
            else script_loop all_data out calls rs'
          end
        else script_loop all_data out calls rs'
      | RecvTimeout later =>
          script_loop all_data (out ++ [Elapsed (int_of later)]) calls rs'
      | RecvRaises msg =>
          Some (Failed, all_data, JNull, out ++ [Problem msg], calls)
      end
  end.

(** [test_script_generate()], [test_ai_agent.py] lines 10-63: how it ended,
    the script id returned ([JNull] for [None]), what it printed and the
    calls on the socket. *)
Definition test_script_generate (w : world)
    : option (ended * json number * list (said number) * list op) :=
  let calls := [Create; SetTimeout 180; Connect] in
  if negb (connect_ok w) then Some (Escaped ConnectFailed, JNull, [], calls)
  else
    let calls :=
      calls ++ [Sendall (lit "SCRIPT_GENERATE:" ++ TestAiAgent.goal ++ [nl])] in
    if negb (send_ok w) then Some (Escaped SendFailed, JNull, [], calls)
    else
      match script_loop [] [] calls (reads w) with
      | None => None
      | Some (why, all_data, script_id, out, calls) =>
          let out :=
            if nonempty all_data && is_none script_id
            then out ++ [Response (take 1500 (decode_replace all_data))]
            else out in
          Some (Ended why, script_id, out, calls ++ [Close])
      end.

(** The goal text of [test_exclude_live.py], line 14. *)
Definition live_goal : pystr :=
  [25171; 24320; 23567; 32418; 20070; 65292; 28982; 21518; 22312; 39318;
   39029; 25214; 21040; 28857; 36190; 19978; 19975; 30340; 31508; 35760;
   21345; 29255; 65288; 25490; 38500; 30452; 25773; 65289; 65292; 28857;
   20987; 36827; 21435; 33719; 21462; 21069; 53; 26465; 35780; 35770].

(** [test_exclude_live.py], lines 31-43: the buffer is decoded strictly and
    its first line that holds the text scriptId is parsed; an object sets
    the script id to its member of that name, or to [None].  Whatever raises
    is passed over; the banner is printed before [result.get] can raise. *)
Definition scan (all_data : bytes) (script_id : json number)
    (out : list (said number)) : json number * list (said number) :=
  match Codec.decode_strict all_data with
  | None => (script_id, out)
  | Some text =>
    match List.find (contains (lit "scriptId")) (split nl (strip text)) with
    | None => (script_id, out)
    | Some line =>
      match json_loads line with
      | Parsed result =>
        let out := out ++ [Banner] in
        match result with
        | JObject d =>
            let script_id := default JNull (member number "scriptId" d) in
            (script_id,
             out ++ [Fields script_id (member number "scriptName" d)
                                      (member number "stepCount" d)])
        | _ => (script_id, out)
        end
      | _ => (script_id, out)
      end
    end
  end.

(** [test_generate], lines 25-51: the loop ends when the script id is
    truthy. *)
Fixpoint generate_loop (all_data : bytes) (script_id : json number)
    (out : list (said number)) (calls : list op) (rs : list tick)
    : option (exit * bytes * json number * list (said number) * list op) :=
  match rs with
  | [] => None
  | (now, r) :: rs' =>
    if negb (Qltb now 90) then Some (Deadline, all_data, script_id, out, calls)
    else
      let calls := calls ++ [SetTimeout 10; RecvCall 16384] in
      match r with
      | Recv chunk =>
        if nonempty chunk then
          let all_data := all_data ++ chunk in
          let '(script_id, out) := scan all_data script_id out in
          if json_truthy script_id
          then Some (Complete, all_data, script_id, out, calls)
          else generate_loop all_data script_id out calls rs'
        else generate_loop all_data script_id out calls rs'
      | RecvTimeout later =>
          generate_loop all_data script_id (out ++ [Elapsed (int_of later)])
            calls rs'
      | RecvRaises msg =>
          Some (Failed, all_data, script_id, out ++ [Problem msg], calls)
      end
  end.

(** [test_generate()], [test_exclude_live.py] lines 9-58. *)
Definition test_generate (w : world)
    : option (ended * json number * list (said number) * list op) :=
  let calls := [Create; SetTimeout 180; Connect] in
  if negb (connect_ok w) then Some (Escaped ConnectFailed, JNull, [], calls)
  else
    let calls :=
      calls ++ [Sendall (lit "SCRIPT_GENERATE:" ++ live_goal ++ [nl])] in
    if negb (send_ok w) then Some (Escaped SendFailed, JNull, [], calls)
    else
      match generate_loop [] JNull [] calls (reads w) with
      | None => None
      | Some (why, all_data, script_id, out, calls) =>
          let response_text := decode_replace all_data in
          Some (Ended why, script_id,
                out ++ [Response (drop (length response_text - 3000)
                                       response_text)],
                calls ++ [Close])
      end.

End Functions.

End Generate.

(** ** [test_ai_agent.py] and [test_exclude_live.py] as scripts *)

Module Main.
Import Py Stream Generate.

(** How a run of one of the two scripts went: through one of the functions,
    or past all of them to the usage text. *)
Inductive ending :=
| Through (e : ended)
| NoFunction.

(** What a run prints, by kind. *)
Inductive output (number : Type) :=
| Generating (s : said number)                  (* by a generating function *)
| Streaming (c : console)                       (* by a streaming function *)
| Hint (script_id : TestFullFlow.json number)   (* the command to run next *)
| UsageText.                                    (* the usage lines *)

Arguments Generating {number} s.
Arguments Streaming {number} c.
Arguments Hint {number} script_id.
Arguments UsageText {number}.

Section Scripts.

Variable number : Type.
Variable json_loads : pystr -> loads_outcome number.
Variable nonzero : number -> bool.

(** A generating function, then [if script_id: print(...)]. *)
Definition of_generate
    (r : option (ended * TestFullFlow.json number * list (said number)
                 * list op))
    : option (ending * list (output number) * list op) :=
  match r with
  | None => None
  | Some (Ended why, script_id, out, calls) =>
      Some (Through (Ended why),
            map Generating out
            ++ (if json_truthy number nonzero script_id
                then [Hint script_id] else []),
            calls)
  | Some (e, _, out, calls) => Some (Through e, map Generating out, calls)
  end.

Definition of_session (r : option (ended * list console * list op))
    : option (ending * list (output number) * list op) :=
  match r with
  | None => None
  | Some (e, out, calls) => Some (Through e, map Streaming out, calls)
  end.

(** [test_ai_agent.py], lines 147-172; [argv] is [sys.argv]. *)
Definition test_ai_agent (argv : list pystr) (w : world)
    : option (ending * list (output number) * list op) :=
  let mode := match argv with _ :: m :: _ => m | _ => lit "generate" end in
  if bool_decide (mode = lit "generate")
  then of_generate (test_script_generate number json_loads w)
  else if bool_decide (mode = lit "execute") && (2 <? length argv)%nat
  then of_session (TestAiAgent.test_script_execute (argv !! 2%nat) w)
  else if bool_decide (mode = lit "goal")
  then of_session (TestAiAgent.test_run_ai_goal w)
  else Some (NoFunction, [UsageText], []).

(** [test_exclude_live.py], lines 100-109. *)
Definition test_exclude_live (argv : list pystr) (w : world)
    : option (ending * list (output number) * list op) :=
  if bool_decide (argv !! 1%nat = Some (lit "execute"))
  then of_session (TestExcludeLive.test_execute (argv !! 2%nat) w)
  else of_generate (test_generate number json_loads nonzero w).

End Scripts.

End Main.

(** ** [test_full_flow.py], the script around [send_command] *)

Module TestFullFlowScript.
Import Py GenAndRun.

(** The patterns of lines 79 and 88 have a group that may be empty; they
    are written with the continuations of [GenAndRun.star] and
    [GenAndRun.plus]. *)

(** The literal [text], then [k]. *)
Definition literal (text : pystr) (k : pystr -> option (list pystr))
    (s : pystr) : option (list pystr) :=
  if startswith text s then k (drop (length text) s) else None.

(** The capturing group of [cls*], greedy, then [k]: the longest run first,
    and the empty group last. *)
Definition group_star (cls : Z -> bool) (k : pystr -> option (list pystr))
    (s : pystr) : option (list pystr) :=
  match s with
  | x :: s' =>
      if cls x
      then match plus cls k [x] s' with
           | Some g => Some g
           | None => cons [] <$> k s
           end
      else cons [] <$> k s
  | [] => cons [] <$> k s
  end.

(** The end of a pattern. *)
Definition matched (s : pystr) : option (list pystr) := Some [].

(** [re.search] for a pattern given by its matcher: the leftmost position
    where it matches. *)
Fixpoint search_with (m : pystr -> option (list pystr)) (s : pystr)
    : option (list pystr) :=
  match m s with
  | Some g => Some g
  | None => match s with [] => None | _ :: t => search_with m t end
  end.

(** Any character but the closing bracket. *)
Definition not_closing (c : Z) : bool := negb (c =? 93).

(** Line 79: comments in double quotes, a colon, white space, an opening
    bracket, the group of characters that are not a closing bracket, a
    closing bracket. *)
Definition comments_pattern : pystr -> option (list pystr) :=
  literal (quoted "comments" ++ lit ":")
    (star isspace
       (literal (lit "[") (group_star not_closing (literal (lit "]") matched)))).

(** Line 88: error in double quotes, a colon, white space, a double quote,
    the group of characters that are not a double quote, a double quote. *)
Definition error_pattern : pystr -> option (list pystr) :=
  literal (quoted "error" ++ lit ":")
    (star isspace
       (literal [dq] (group_star not_dq (literal [dq] matched)))).

(** [match.group(1)] of a search, when there is a match. *)
Definition group1 (m : pystr -> option (list pystr)) (s : pystr)
    : option pystr :=
  match search_with m s with
  | Some (g :: _) => Some g
  | _ => None
  end.

(** The goal text of line 58. *)
Definition goal : pystr :=
  [25171; 24320; 23567; 32418; 20070; 65292; 22312; 39318; 39029; 28689;
   24067; 27969; 20013; 25214; 21040; 28857; 36190; 25968; 36229; 36807;
   49; 19975; 30340; 31508; 35760; 21345; 29255; 65292; 28857; 20987;
   36827; 20837; 31508; 35760; 35814; 24773; 65292; 21521; 19978; 28369;
   21160; 26597; 30475; 35780; 35770; 21306; 65292; 25552; 21462; 21069;
   53; 26465; 26377; 24847; 20041; 30340; 35780; 35770; 20869; 23481].

(** What the script prints, by kind; banners and empty lines are not
    recorded. *)
Inductive said :=
| Session (c : console)                 (* inside [send_command] *)
| GenerationFailed                      (* line 63 *)
| Generated (script_id : pystr)         (* line 68 *)
| Succeeded                             (* line 78 *)
| Comments (excerpt : pystr)            (* line 83, [comments[:200]] *)
| NoComments                            (* line 85 *)
| NotSucceeded                          (* line 87 *)
| ErrorText (msg : pystr)               (* line 90 *)
| Summary (script_id : pystr) (success : bool).   (* lines 93-98 *)

(** How the script ends: with an exit status, or with the traceback of an
    exception that left [send_command]. *)
Inductive ending := Exited (status : Z) | Traceback (e : exn).

Section Script.

Variable number : Type.
Variable json_loads : pystr -> option (TestFullFlow.json number).
Variable py_str : TestFullFlow.json number -> pystr.

(** Lines 76-90: what is printed about the reply of the second session. *)
Definition verdict (exec_result : pystr) : list said :=
  if TestFullFlow.success exec_result
  then Succeeded ::
       match group1 comments_pattern exec_result with
       | Some comments =>
           if truthy (strip comments)
           then [Comments (take 200 comments)] else [NoComments]
       | None => []
       end
  else NotSucceeded ::
       match group1 error_pattern exec_result with
       | Some msg => [ErrorText msg]
       | None => []
       end.

(** Lines 51-99.  [w1] is the peer and the clock during the first session,
    [w2] during the second. *)
Definition main (w1 w2 : world) : option (ending * list said * list op) :=
  let generate := lit "SCRIPT_GENERATE:" ++ goal in
  match TestFullFlow.send_command number json_loads py_str generate 120 w1 with
  | inr (e, calls) => Some (Traceback e, [], calls)
  | inl None => None
  | inl (Some (_, result, st1)) =>
    let out := map Session (TestFullFlow.stdout st1) in
    let calls := TestFullFlow.calls st1 in
    match extract_id result with
    | None => Some (Exited 1, out ++ [GenerationFailed], calls)
    | Some script_id =>
      let out := out ++ [Generated script_id] in
      let execute := lit "SCRIPT_EXECUTE_AUTO:" ++ script_id in
      match TestFullFlow.send_command number json_loads py_str execute 180 w2
      with
      | inr (e, calls2) => Some (Traceback e, out, calls ++ calls2)
      | inl None => None
      | inl (Some (_, exec_result, st2)) =>
          Some (Exited 0,
                out ++ map Session (TestFullFlow.stdout st2)
                ++ verdict exec_result
                ++ [Summary script_id (TestFullFlow.success exec_result)],
                calls ++ TestFullFlow.calls st2)
      end
    end
  end.

End Script.

End TestFullFlowScript.

(** How many sockets were created. *)
Fixpoint creates (log : list op) : nat :=
  match log with
  | [] => 0%nat
  | Create :: log' => S (creates log')
  | _ :: log' => creates log'
  end.

(** The clock passes [deadline] at some turn. *)
Definition runs_out (deadline : Q) (rs : list tick) : Prop :=
  Exists (fun t => Qltb (fst t) deadline = false) rs.

(** ** The script that looks for one button in a dump *)

Module AnalyzeButton.
Import Py AnalyzeXml.

(** An element of the parsed tree is known by its place: the indices of the
    children passed on the way down from the root.  Python compares and
    hashes elements by identity, and every element of a parsed tree sits at
    one place. *)
Abbreviation place := (list nat).

Definition tag_of (node : element) : pystr :=
  match node with Element tag _ _ => tag end.

(** The element at a place, if the place is in the tree. *)
Fixpoint at_place (node : element) (p : place) : option element :=
  match p with
  | [] => Some node
  | i :: p' =>
      match children_of node !! i with
      | Some child => at_place child p'
      | None => None
      end
  end.

(** The places below the children [cs], the first of which has index [i]. *)
Definition below (f : element -> list place)
    : nat -> list element -> list place :=
  fix go i cs :=
    match cs with
    | [] => []
    | c :: cs' => map (cons i) (f c) ++ go (S i) cs'
    end.

(** [root.iter()]: the places of the tree in document order. *)
Fixpoint places (node : element) : list place :=
  match node with
  | Element _ _ children => [] :: below places 0 children
  end.

(** [root.findall('.//node')], line 7: the elements below the root with the
    tag node, in document order. *)
Definition findall_node (root : element) : list place :=
  List.filter
    (fun p => match p with
              | [] => false
              | _ :: _ =>
                  bool_decide (tag_of <$> at_place root p = Some (lit "node"))
              end)
    (places root).

(** The pairs of the comprehension of line 29: each child with its parent,
    parents in document order. *)
Definition parent_pairs (root : element) : list (place * place) :=
  flat_map
    (fun q => match at_place root q with
              | Some node =>
                  map (fun i => (q ++ [i], q))
                    (seq 0 (length (children_of node)))
              | None => []
              end)
    (places root).

(** The dictionary they make; a later pair replaces an earlier one with the
    same key. *)
Definition parent_map (root : element) : gmap place place :=
  fold_left (fun m kv => <[fst kv := snd kv]> m) (parent_pairs root) ∅.

(** The test of line 20; the text is the one character U+6211. *)
Definition is_button (node : element) : bool :=
  bool_decide (get node "text" = [25105])
  && contains (lit "2264") (get node "bounds")
  && contains (lit "2324") (get node "bounds").

(** What the script prints, by kind: the block of lines 21-26 about a node
    and the block of lines 32-35 about its parent. *)
Inductive said :=
| Button (node : element)
| Parent (parent : element).

(** Lines 14-35 for the node at [p]. *)
Definition report (root : element) (p : place) : list said :=
  match at_place root p with
  | Some node =>
      if is_button node
      then Button node ::
           match parent_map root !! p with
           | Some q =>
               match at_place root q with
               | Some parent => [Parent parent]
               | None => []
               end
           | None => []
           end
      else []
  | None => []
  end.

(** Lines 7-35 for the parsed [root]. *)
Definition main (root : element) : list said :=
  flat_map (report root) (findall_node root).

End AnalyzeButton.

(** * Properties *)

(** ** What the claims say, in the words of the specification *)

(** [needle] is a substring of [hay]. *)
Definition occurs (needle hay : pystr) : Prop :=
  exists pre post, hay = pre ++ needle ++ post.

Definition is_space (c : Z) : Prop := Py.isspace c = true.

(** [text], with its trailing white space trimmed, ends with a closing
    brace. *)
Definition closes_brace (text : pystr) : Prop :=
  exists body ws, text = body ++ Lit.brace ++ ws /\ Forall is_space ws.

(** [x] is in [l] exactly once. *)
Definition once {A} (x : A) (l : list A) : Prop :=
  exists l1 l2, l = l1 ++ x :: l2 /\ (x ∉ l1) /\ (x ∉ l2).

(** The completion rule of [gen_and_run.send_command]: one of the three
    status texts occurs, exactly as written, and the text closes its
    brace. *)
Definition status_complete (decoded : pystr) : Prop :=
  (occurs (Lit.status "success") decoded
   \/ occurs (Lit.status "complete") decoded
   \/ occurs (Lit.status "failed") decoded)
  /\ closes_brace decoded.

(** The turn [t] is one at which [gen_and_run.send_command] times out: the
    deadline of the loop test has passed, or the read raises
    [socket.timeout]. *)
Definition timed_out (timeout : Q) (t : tick) : Prop :=
  Qltb (fst t) timeout = false \/ exists later, snd t = RecvTimeout later.

(** At turn [i] the loop of [gen_and_run.send_command] reads on: it is
    within the deadline, a non-empty chunk arrives, and the buffer so far
    does not pass the completion test. *)
Definition reads_on (timeout : Q) (rs : list tick) (i : nat) : Prop :=
  exists now chunk,
    rs !! i = Some (now, Recv chunk) /\ Qltb now timeout = true
    /\ chunk <> []
    /\ GenAndRun.completion_check
         (Utf8.decode_replace (received (S i) rs)) = false.

(** The three streaming functions, with the constants of each. *)
Inductive streamer := ScriptExecute | RunAiGoal | Execute.

(** The marker texts that each function looks for in a line. *)
Definition markers (f : streamer) : list pystr :=
  match f with
  | ScriptExecute => [Py.lit "SCRIPT_COMPLETE"; Py.lit "SCRIPT_ERROR"]
  | RunAiGoal => [Py.lit "AI_GOAL_COMPLETE"; Py.lit "AI_GOAL_ERROR"]
  | Execute => [Lit.status_complete_inner; Py.lit "SCRIPT_ERROR"]
  end.

Definition deadline_of (f : streamer) : Q :=
  match f with ScriptExecute => 180 | RunAiGoal => 300 | Execute => 180 end.

Definition width_of (f : streamer) : nat :=
  match f with ScriptExecute => 300 | RunAiGoal => 400 | Execute => 300 end%nat.

Definition run_streamer (f : streamer) (script_id : pystr) (w : world)
    : option (Stream.ended * list console * list op) :=
  match f with
  | ScriptExecute => TestAiAgent.test_script_execute (Some script_id) w
  | RunAiGoal => TestAiAgent.test_run_ai_goal w
  | Execute => TestExcludeLive.test_execute (Some script_id) w
  end.

(** The stop test of each function. *)
Definition stop_of (f : streamer) : pystr -> bool :=
  match f with
  | ScriptExecute => TestAiAgent.script_stop
  | RunAiGoal => TestAiAgent.goal_stop
  | Execute => TestExcludeLive.execute_stop
  end.

(** The loop with the constants of [f]. *)
Definition loop_of (f : streamer) :=
  Stream.stream_loop (deadline_of f)
    (match f with ScriptExecute => 10 | _ => 15 end)
    (width_of f) (stop_of f).

(** No marker of [f] occurs in [line]. *)
Definition unmarked (f : streamer) (line : pystr) : Prop :=
  forall m, m ∈ markers f -> ~ occurs m line.

(** The turn does not end the streaming loop of [f]: it is within the
    deadline, and the read times out or brings a chunk without a marker
    line. *)
Definition streams_on (f : streamer) (t : tick) : Prop :=
  Qltb (fst t) (deadline_of f) = true
  /\ match snd t with
     | Recv data =>
         Forall (unmarked f)
           (Py.split Py.nl (Py.strip (Utf8.decode_replace data)))
     | RecvTimeout _ => True
     | RecvRaises _ => False
     end.

(** The lines of a re-split buffer that the loops of [run_script.py] and
    [test_full_flow.py] take up: those that are not empty and not in the
    set of lines seen, each once, in order. *)
Fixpoint fresh (seen : gset pystr) (lines : list pystr) : list pystr :=
  match lines with
  | [] => []
  | l :: ls =>
      if Py.truthy l && negb (bool_decide (l ∈ seen))
      then l :: fresh ({[l]} ∪ seen) ls
      else fresh seen ls
  end.

(** The printed lines and the set of lines seen agree, and no line was
    printed twice. *)
Definition deduped (st : RunScript.state) : Prop :=
  NoDup (RunScript.lines_of (RunScript.stdout st))
  /\ forall l, l ∈ RunScript.printed_lines st
               <-> l ∈ RunScript.lines_of (RunScript.stdout st).

(** What ended the loop of [run_script.py] with reason [why] at the turn
    [(now, r)], leaving the state [st]. *)
Definition ended_by (why : exit) (now : Q) (r : recv_outcome)
    (st : RunScript.state) : Prop :=
  match why with
  | Complete =>
      Qltb now 180 = true
      /\ (exists chunk, r = Recv chunk /\ chunk <> [])
      /\ RunScript.completion_check
           (Utf8.decode_replace (RunScript.all_data st)) = true
  | PeerClosed => Qltb now 180 = true /\ r = Recv []
  | Failed => Qltb now 180 = true /\ exists msg, r = RecvRaises msg
  | Deadline => Qltb now 180 = false
  | RecvTimedOut | Sentinel => False
  end.

(** In [test_full_flow.send_command]: [hs] are the lines taken up so far,
    each once; they are the set [printed], and the console shows what each
    gave rise to, in order. *)
Definition handled {number} (json_loads : pystr -> option (TestFullFlow.json number))
    (py_str : TestFullFlow.json number -> pystr)
    (st : TestFullFlow.state) (hs : list pystr) : Prop :=
  NoDup hs
  /\ (forall l, l ∈ TestFullFlow.printed st <-> l ∈ hs)
  /\ TestFullFlow.stdout st = hs ≫= TestFullFlow.render number json_loads py_str.

(** ** The decoder and the string operations on small inputs *)

(** U+4E2D is E4 B8 AD.  Cut after two bytes it decodes to one U+FFFD; cut
    by an ASCII byte, to U+FFFD and that character; an overlong or surrogate
    form is replaced byte by byte. *)
Example decode_replace_cases :
  Utf8.decode_replace [xe4; xb8; xad] = [20013]
  /\ Utf8.decode_replace [xe4; xb8] = [65533]
  /\ Utf8.decode_replace [xe4; x41] = [65533; 65]
  /\ Utf8.decode_replace [xc0; x80] = [65533; 65533]
  /\ Utf8.decode_replace [xed; xa0; x80] = [65533; 65533; 65533]
  /\ Utf8.decode_replace [xf0; x9f; x93; xa5] = [128229]
  /\ Utf8.decode_replace (Utf8.ascii_bytes (Py.lit "{}")) = Py.lit "{}".
Proof. repeat split; reflexivity. Qed.

Example strip_split_cases :
  Py.strip (Py.lit "  a b  ") = Py.lit "a b"
  /\ Py.rstrip (Py.lit "} " ++ [Py.nl]) = Py.lit "}"
  /\ Py.split Py.nl [] = [[]]
  /\ Py.split Py.nl (Py.lit "a" ++ [Py.nl] ++ Py.lit "b" ++ [Py.nl])
     = [Py.lit "a"; Py.lit "b"; []]
  /\ Py.contains (Py.lit "bc") (Py.lit "abcd") = true
  /\ Py.contains (Py.lit "bd") (Py.lit "abcd") = false.
Proof. repeat split; reflexivity. Qed.

(** ** Facts about the string operations *)

Module PyFacts.
Import Py.

Lemma startswith_spec p s :
  startswith p s = true <-> exists t, s = p ++ t.
Proof.
  revert s. induction p as [|a p IH]; intros s; simpl.
  - split; eauto.
  - destruct s as [|b s].
    + split; [discriminate | intros [t Ht]; discriminate].
    + rewrite andb_true_iff, Z.eqb_eq, IH. split.
      * intros [-> [t ->]]. by exists t.
      * intros [t Ht]. injection Ht as -> ->. eauto.
Qed.

Lemma contains_spec needle hay :
  contains needle hay = true <-> occurs needle hay.
Proof.
  unfold occurs. induction hay as [|c hay IH]; simpl.
  - rewrite orb_false_r, startswith_spec. split.
    + intros [t Ht]. exists [], t. done.
    + intros (pre & post & H). symmetry in H.
      apply app_eq_nil in H as [-> H]. apply app_eq_nil in H as [-> ->].
      by exists [].
  - rewrite orb_true_iff, startswith_spec, IH. split.
    + intros [[t Ht] | (pre & post & H)].
      * exists [], t. done.
      * exists (c :: pre), post. by rewrite H.
    + intros (pre & post & H). destruct pre as [|x pre].
      * left. by exists post.
      * right. injection H as -> H. eauto.
Qed.

Lemma contains_app needle pre post :
  contains needle (pre ++ needle ++ post) = true.
Proof. apply contains_spec. by exists pre, post. Qed.

Lemma endswith_spec p s :
  endswith p s = true <-> exists pre, s = pre ++ p.
Proof.
  unfold endswith. rewrite startswith_spec. split.
  - intros [t Ht]. exists (rev t).
    apply (f_equal (@rev Z)) in Ht.
    by rewrite rev_involutive, rev_app_distr, rev_involutive in Ht.
  - intros [pre ->]. exists (rev pre). by rewrite rev_app_distr.
Qed.

Lemma lstrip_spec s :
  exists ws, s = ws ++ lstrip s /\ Forall is_space ws
             /\ forall c t, lstrip s = c :: t -> isspace c = false.
Proof.
  induction s as [|c s (ws & Hs & Hws & Hhd)]; simpl.
  - exists []. repeat split; [constructor | discriminate].
  - destruct (isspace c) eqn:Hc.
    + exists (c :: ws). split; [simpl; congruence|]. split; [by constructor | done].
    + exists []. split; [done|]. split; [constructor |].
      intros c' t [= -> _]. done.
Qed.

Lemma lstrip_app ws c t :
  Forall is_space ws -> isspace c = false -> lstrip (ws ++ c :: t) = c :: t.
Proof.
  intros Hws Hc. induction Hws as [|x ws Hx _ IH]; simpl.
  - by rewrite Hc.
  - unfold is_space in Hx. by rewrite Hx.
Qed.

Lemma Forall_space_rev ws : Forall is_space ws -> Forall is_space (rev ws).
Proof.
  rewrite !Forall_forall. intros H x Hx. apply H.
  apply list_elem_of_In. apply list_elem_of_In in Hx. by apply in_rev.
Qed.

Lemma rstrip_spec s : exists ws, s = rstrip s ++ ws /\ Forall is_space ws.
Proof.
  unfold rstrip. destruct (lstrip_spec (rev s)) as (ws & Hs & Hws & _).
  exists (rev ws). split; [|by apply Forall_space_rev].
  by rewrite <- rev_app_distr, <- Hs, rev_involutive.
Qed.

Lemma rstrip_app body c ws :
  isspace c = false -> Forall is_space ws ->
  rstrip (body ++ c :: ws) = body ++ [c].
Proof.
  intros Hc Hws. unfold rstrip. rewrite rev_app_distr. simpl.
  rewrite <- app_assoc. simpl.
  rewrite lstrip_app; [|by apply Forall_space_rev|done].
  simpl. by rewrite rev_involutive.
Qed.

Lemma closes_brace_spec text :
  endswith Lit.brace (rstrip text) = true <-> closes_brace text.
Proof.
  rewrite endswith_spec. unfold closes_brace. split.
  - intros [pre Hpre]. destruct (rstrip_spec text) as (ws & Hs & Hws).
    exists pre, ws. split; [|done]. rewrite Hs at 1. rewrite Hpre.
    by rewrite <- app_assoc.
  - intros (body & ws & -> & Hws). exists body.
    change (Lit.brace ++ ws) with (125 :: ws). by rewrite rstrip_app.
Qed.

End PyFacts.

(** ** C1: completion detection *)

Module FlowData.

(** The [for] loop of [test_full_flow.send_command] leaves the buffer as it
    is. *)
Lemma flow_buffer_kept number json_loads py_str st decoded :
  TestFullFlow.all_data
    (TestFullFlow.handle_lines number json_loads py_str st decoded)
  = TestFullFlow.all_data st.
Proof.
  unfold TestFullFlow.handle_lines.
  generalize (Py.split Py.nl (Py.strip decoded)). intros ls. revert st.
  induction ls as [|l ls IH]; intros st; simpl; [done|].
  rewrite IH. unfold TestFullFlow.handle_line. by destruct (_ && _).
Qed.

End FlowData.

Lemma completion_check_spec decoded :
  GenAndRun.completion_check decoded = true <-> status_complete decoded.
Proof.
  unfold GenAndRun.completion_check, status_complete.
  rewrite andb_true_iff, !orb_true_iff, !PyFacts.contains_spec,
    PyFacts.closes_brace_spec.
  tauto.
Qed.

(** C1, as the code has it.  A read that hands over a non-empty chunk
    within the deadline ends the loop of [gen_and_run.send_command], and
    likewise the loop of [test_full_flow.send_command], as complete if and
    only if the decoded buffer holds one of the three status texts, written
    without a space after the colon, and ends with a closing brace once
    trailing white space is trimmed; otherwise the loop reads on, with the
    chunk in its buffer.  So a response that ends with a status text and a
    brace is complete, and a text that does not close its brace is not,
    whatever it holds. *)
Theorem completion_detection timeout now all_data chunk calls rs :
  Qltb now timeout = true -> chunk <> [] ->
  let buffer := all_data ++ chunk in
  let decoded := Utf8.decode_replace buffer in
  let calls' := calls ++ [RecvCall 4096] in
  (status_complete decoded ->
     GenAndRun.read_loop timeout all_data calls ((now, Recv chunk) :: rs)
     = Some (Complete, buffer, calls'))
  /\ (~ status_complete decoded ->
     GenAndRun.read_loop timeout all_data calls ((now, Recv chunk) :: rs)
     = GenAndRun.read_loop timeout buffer calls' rs)
  /\ (GenAndRun.completion_check decoded = true <-> status_complete decoded)
  /\ (forall v pre, v ∈ ["success"; "complete"; "failed"]%string ->
        decoded = pre ++ Lit.status v ++ Lit.brace -> status_complete decoded)
  /\ (~ closes_brace decoded -> GenAndRun.completion_check decoded = false)
  /\ (forall number json_loads py_str st,
        TestFullFlow.all_data st = all_data ->
        let st' :=
          TestFullFlow.handle_lines number json_loads py_str
            (TestFullFlow.with_chunk
               (TestFullFlow.with_call st (RecvCall 4096)) chunk) decoded in
        TestFullFlow.all_data st' = buffer
        /\ (status_complete decoded ->
            TestFullFlow.read_loop number json_loads py_str timeout st
              ((now, Recv chunk) :: rs)
            = Some (Complete, st'))
        /\ (~ status_complete decoded ->
            TestFullFlow.read_loop number json_loads py_str timeout st
              ((now, Recv chunk) :: rs)
            = TestFullFlow.read_loop number json_loads py_str timeout st' rs)).
Proof.
  intros Hnow Hchunk buffer decoded calls'.
  assert (Hne : nonempty chunk = true) by (by destruct chunk).
  split_and!.
  - intros H. apply completion_check_spec in H. simpl.
    rewrite Hnow, Hne. simpl. fold buffer decoded. by rewrite H.
  - intros H. simpl. rewrite Hnow, Hne. simpl. fold buffer decoded.
    destruct (GenAndRun.completion_check decoded) eqn:E; [|done].
    by apply completion_check_spec in E.
  - apply completion_check_spec.
  - intros v pre Hv Hd. split.
    + rewrite !elem_of_cons in Hv.
      destruct Hv as [->|[->|[->|Hv]]]; [| | |by apply elem_of_nil in Hv];
        rewrite Hd; unfold occurs; eauto 6.
    + exists (pre ++ Lit.status v), []. split; [|constructor].
      by rewrite Hd, app_nil_r, <- app_assoc.
  - intros H. destruct (GenAndRun.completion_check decoded) eqn:E; [|done].
    apply completion_check_spec in E. destruct E as [_ E]. done.
  - intros number json_loads py_str st Hst st'.
    assert (Hdata : TestFullFlow.all_data st' = buffer).
    { unfold st'. rewrite FlowData.flow_buffer_kept. simpl.
      by rewrite Hst. }
    split; [exact Hdata|].
    assert (Hstep : TestFullFlow.read_loop number json_loads py_str timeout st
                      ((now, Recv chunk) :: rs)
                    = if GenAndRun.completion_check decoded
                      then Some (Complete, st')
                      else TestFullFlow.read_loop number json_loads py_str
                             timeout st' rs).
    { simpl. rewrite Hnow, Hne. simpl. rewrite Hst. by fold buffer decoded. }
    rewrite Hstep. split; intros H.
    + apply completion_check_spec in H. by rewrite H.
    + destruct (GenAndRun.completion_check decoded) eqn:E; [|done].
      by apply completion_check_spec in E.
Qed.

(** At a concrete read: the buffer closes its object on this chunk. *)
Lemma completion_detection_witness :
  let all_data := Utf8.ascii_bytes (Py.lit "{" ++ Lit.status "failed") in
  let chunk := Utf8.ascii_bytes (Py.lit "}") in
  GenAndRun.read_loop 60 all_data [] [(1.5%Q, Recv chunk)]
  = Some (Complete, all_data ++ chunk, [RecvCall 4096]).
Proof.
  intros all_data chunk.
  refine (proj1 (completion_detection 60 1.5 all_data chunk [] []
                   eq_refl _) _).
  - discriminate.
  - apply completion_check_spec. vm_compute. reflexivity.
Defined.

(** C1 as stated fails: the text with a space after the colon holds the
    spaced status text and closes its brace, and the loop of
    [gen_and_run.send_command] does not take it for complete.  And the test
    of [generate_script.py] holds on a text that does not close its
    brace. *)
Lemma completion_spaced_variant_missed :
  let all_data :=
    Utf8.ascii_bytes (Py.lit "{" ++ Lit.status_spaced "success" ++ Py.lit "}") in
  let decoded := Utf8.decode_replace all_data in
  let unclosed := Py.lit "{" ++ Lit.status "success" in
  Py.contains (Lit.status_spaced "success") decoded = true
  /\ Py.endswith Lit.brace (Py.rstrip decoded) = true
  /\ GenAndRun.completion_check decoded = false
  /\ GenAndRun.read_loop 60 [] [] [(1%Q, Recv all_data); (2%Q, RecvTimeout 62)]
     = Some (RecvTimedOut, all_data, [RecvCall 4096; RecvCall 4096])
  /\ Py.endswith Lit.brace (Py.rstrip unclosed) = false
  /\ GenerateScript.completion_check unclosed = true.
Proof. vm_compute. repeat split; reflexivity. Qed.

(** ** C7: the success scan *)

(** C7, as the code has it.  The scan of [test_full_flow.py] reports success
    exactly for a reply that holds the member [success] with the JSON boolean
    [true], with or without one space after the colon. *)
Theorem success_scan_boolean_forms exec_result :
  TestFullFlow.success exec_result = true <->
  occurs Lit.success_true_spaced exec_result
  \/ occurs Lit.success_true exec_result.
Proof.
  unfold TestFullFlow.success.
  by rewrite orb_true_iff, !PyFacts.contains_spec.
Qed.

Lemma success_scan_boolean_forms_witness :
  TestFullFlow.success
    (Py.lit "{" ++ Lit.success_true ++ Py.lit ",x" ++ Py.lit "}") = true.
Proof.
  apply success_scan_boolean_forms. right.
  exists (Py.lit "{"), (Py.lit ",x}"). reflexivity.
Defined.

(** C7 as stated fails: a reply whose [success] member is the quoted string
    is reported as not successful. *)
Lemma success_scan_rejects_quoted :
  let exec_result := Lit.payload "success" (Py.lit "true") in
  Py.contains Lit.success_quoted exec_result = true
  /\ TestFullFlow.success exec_result = false.
Proof. vm_compute. split; reflexivity. Qed.

(** ** C3: the identifier scan *)

Module ScanFacts.
Import Py GenAndRun.

Lemma id_pattern_eq :
  id_pattern
  = [Chr 34; Chr 105; Chr 100; Chr 34; Chr 58; Star isspace; Chr 34;
     GroupPlus not_dq; Chr 34].
Proof. reflexivity. Qed.

Lemma not_dq_true c v : dq ∉ c :: v -> not_dq c = true.
Proof.
  intros H. unfold not_dq. apply negb_true_iff, Z.eqb_neq.
  intros ->. apply H. left.
Qed.

(** The greedy star runs over white space up to the first other
    character, when the rest of the pattern matches there. *)
Lemma star_spaces k ws c t g :
  Forall is_space ws -> isspace c = false -> k (c :: t) = Some g ->
  star isspace k (ws ++ c :: t) = Some g.
Proof.
  intros Hws Hc Hk. induction Hws as [|x ws Hx _ IH]; simpl.
  - by rewrite Hc.
  - unfold is_space in Hx. by rewrite Hx, IH.
Qed.

(** The greedy group takes every character up to the first double quote. *)
Lemma plus_upto_dq k v taken rest g :
  dq ∉ v -> k (dq :: rest) = Some g ->
  plus not_dq k taken (v ++ dq :: rest) = Some ((taken ++ v) :: g).
Proof.
  revert taken. induction v as [|y v IH]; intros taken Hv Hk; simpl.
  - change (not_dq dq) with false. simpl. by rewrite Hk, app_nil_r.
  - rewrite (not_dq_true y v Hv).
    rewrite IH; [|by apply not_elem_of_cons in Hv as [_ ?]|done].
    by rewrite <- app_assoc.
Qed.

(** The pattern at the opening quote of the member named [id]. *)
Lemma match_id_member ws v rest :
  Forall is_space ws -> v <> [] -> dq ∉ v ->
  match_here id_pattern
    ([34; 105; 100; 34; 58] ++ ws ++ dq :: v ++ dq :: rest) = Some [v].
Proof.
  intros Hws Hne Hv. rewrite id_pattern_eq. simpl.
  apply (star_spaces _ ws dq _ [v]); [done|done|].
  destruct v as [|x v]; [done|]. simpl.
  rewrite (not_dq_true x v Hv).
  rewrite (plus_upto_dq _ v [x] rest []);
    [done|by apply not_elem_of_cons in Hv as [_ ?]|done].
Qed.

Lemma search_found pat s g :
  match_here pat s = Some g -> search pat s = Some g.
Proof. intros H. destruct s; simpl; by rewrite H. Qed.

Lemma search_step pat c s :
  match_here pat (c :: s) = None -> search pat (c :: s) = search pat s.
Proof. intros H. simpl. by rewrite H. Qed.

(** No match starts inside a text without any double quote. *)
Lemma search_skip v s :
  dq ∉ v -> search id_pattern (v ++ s) = search id_pattern s.
Proof.
  intros Hv. induction v as [|x v IH]; [done|].
  apply not_elem_of_cons in Hv as [Hx Hv].
  rewrite id_pattern_eq in *. simpl.
  destruct (x =? 34) eqn:E; [apply Z.eqb_eq in E; by subst|].
  by apply IH.
Qed.

(** No match starts at the opening quote of a value without double quotes
    that closes an object. *)
Lemma no_match_at_value v :
  dq ∉ v -> match_here id_pattern (dq :: v ++ [dq; 125]) = None.
Proof.
  intros Hv. rewrite id_pattern_eq.
  destruct v as [|x [|y [|z v]]]; simpl.
  - done.
  - by destruct (x =? 105).
  - destruct (x =? 105); [|done]. by destruct (y =? 100).
  - destruct (x =? 105); [|done]. destruct (y =? 100); [|done].
    destruct (z =? 34) eqn:E; [|done].
    apply Z.eqb_eq in E. subst. exfalso. apply Hv. do 2 right. left.
Qed.

End ScanFacts.

(** C3, as the code has it.  For an identifier that is not empty and holds
    no double quote, the scan finds it in the member named [id], also with
    white space after the colon, and finds nothing in the member named
    [scriptId]: the pattern asks for a double quote right before [id]. *)
Theorem id_scan_by_field_name (v : pystr) :
  v <> [] -> Py.dq ∉ v ->
  GenAndRun.extract_id (Lit.payload "id" v) = Some v
  /\ (forall ws, Forall is_space ws ->
        GenAndRun.extract_id
          (Py.lit "{" ++ Py.quoted "id" ++ Py.lit ":" ++ ws
           ++ [Py.dq] ++ v ++ [Py.dq] ++ Py.lit "}") = Some v)
  /\ GenAndRun.extract_id (Lit.payload "scriptId" v) = None.
Proof.
  intros Hne Hv.
  assert (Hid : forall ws, Forall is_space ws ->
    GenAndRun.extract_id
      (Py.lit "{" ++ Py.quoted "id" ++ Py.lit ":" ++ ws
       ++ [Py.dq] ++ v ++ [Py.dq] ++ Py.lit "}") = Some v).
  { intros ws Hws. unfold GenAndRun.extract_id.
    change (Py.lit "{" ++ Py.quoted "id" ++ Py.lit ":" ++ ws
            ++ [Py.dq] ++ v ++ [Py.dq] ++ Py.lit "}")
      with (123 :: [34; 105; 100; 34; 58] ++ ws ++ Py.dq :: v ++ Py.dq :: [125]).
    rewrite ScanFacts.search_step by reflexivity.
    by rewrite (ScanFacts.search_found _ _ [v])
      by (by apply ScanFacts.match_id_member). }
  split_and!.
  - apply (Hid []). constructor.
  - exact Hid.
  - unfold GenAndRun.extract_id.
    change (Lit.payload "scriptId" v)
      with ([123; 34; 115; 99; 114; 105; 112; 116; 73; 100; 34; 58]
            ++ Py.dq :: v ++ [Py.dq; 125]).
    cbn [app].
    do 12 (rewrite ScanFacts.search_step by reflexivity).
    rewrite ScanFacts.search_step by (by apply ScanFacts.no_match_at_value).
    by rewrite ScanFacts.search_skip.
Qed.

Lemma id_scan_by_field_name_witness :
  GenAndRun.extract_id (Lit.payload "id" (Py.lit "abc")) = Some (Py.lit "abc")
  /\ GenAndRun.extract_id (Lit.payload "scriptId" (Py.lit "abc")) = None.
Proof.
  assert (H1 : Py.lit "abc" <> []) by discriminate.
  assert (H2 : Py.dq ∉ Py.lit "abc") by (by apply (bool_decide_unpack _)).
  destruct (id_scan_by_field_name (Py.lit "abc") H1 H2) as (Ha & _ & Hb).
  split; [exact Ha | exact Hb].
Defined.

(** C3 as stated fails: from the payload whose member is named [scriptId]
    the scan extracts nothing, while it extracts [abc] when the member is
    named [id]. *)
Lemma id_scan_misses_scriptId :
  GenAndRun.extract_id (Lit.payload "id" (Py.lit "abc")) = Some (Py.lit "abc")
  /\ GenAndRun.extract_id (Lit.payload "scriptId" (Py.lit "abc")) = None.
Proof. vm_compute. split; reflexivity. Qed.

(** ** C6: a timeout returns what was received *)

Module LoopFacts.

Lemma closes_app l1 l2 : closes (l1 ++ l2) = (closes l1 + closes l2)%nat.
Proof. induction l1 as [|o l1 IH]; simpl; [done|]. rewrite IH. lia. Qed.

(** The loop of [gen_and_run.send_command] never closes the socket. *)
Lemma read_loop_closes timeout rs : forall all_data calls why buffer calls',
  GenAndRun.read_loop timeout all_data calls rs = Some (why, buffer, calls') ->
  closes calls' = closes calls.
Proof.
  induction rs as [|[now r] rs IH]; intros all_data calls why buffer calls';
    simpl; [done|].
  destruct (Qltb now timeout); simpl; [|by intros [= _ _ ->]].
  assert (Hc : closes (calls ++ [RecvCall 4096]) = closes calls)
    by (rewrite closes_app; simpl; lia).
  destruct r as [chunk|later|msg]; try (intros [= _ _ <-]; exact Hc).
  destruct (nonempty chunk); [|intros [= _ _ <-]; exact Hc].
  destruct (GenAndRun.completion_check _); [intros [= _ _ <-]; exact Hc|].
  intros H. apply IH in H. by rewrite H.
Qed.

(** While every turn reads on, the loop only accumulates. *)
Lemma read_loop_reads_on timeout n : forall all_data calls rs,
  (forall i, (i < n)%nat -> exists now chunk,
     rs !! i = Some (now, Recv chunk) /\ Qltb now timeout = true
     /\ chunk <> []
     /\ GenAndRun.completion_check
          (Utf8.decode_replace (all_data ++ received (S i) rs)) = false) ->
  GenAndRun.read_loop timeout all_data calls rs
  = GenAndRun.read_loop timeout (all_data ++ received n rs)
      (calls ++ repeat (RecvCall 4096) n) (drop n rs).
Proof.
  induction n as [|n IH]; intros all_data calls rs H.
  - simpl. by rewrite !app_nil_r, drop_0.
  - destruct (H 0%nat ltac:(lia)) as (now & chunk & Hrs & Hnow & Hne & Hck).
    destruct rs as [|t rs]; [done|]. injection Hrs as ->.
    simpl in Hck. rewrite app_nil_r in Hck.
    cbn [GenAndRun.read_loop]. rewrite Hnow.
    assert (nonempty chunk = true) as -> by (by destruct chunk).
    cbn [negb]. rewrite Hck.
    rewrite IH.
    + simpl. by rewrite <- !app_assoc.
    + intros i Hi. destruct (H (S i) ltac:(lia))
        as (now' & chunk' & Hrs' & Hnow' & Hne' & Hck').
      exists now', chunk'. split_and!; try done.
      cbn [received] in Hck'. cbn [received].
      by rewrite <- app_assoc.
Qed.

End LoopFacts.

(** C6.  In a session of [gen_and_run.send_command] whose first [n] reads
    bring data without completing, and whose next turn finds the deadline
    passed or raises [socket.timeout], the function returns, and what it
    returns is the decoding of everything received in those [n] reads; the
    socket is closed once on the way. *)
Theorem timeout_returns_partial_buffer cmd timeout w n t :
  connect_ok w = true -> send_ok w = true ->
  (forall i, (i < n)%nat -> reads_on timeout (reads w) i) ->
  reads w !! n = Some t -> timed_out timeout t ->
  exists why calls,
    GenAndRun.send_command cmd timeout w
    = Some (GenAndRun.Returned why
              (Utf8.decode_replace (received n (reads w))), calls)
    /\ (why = Deadline \/ why = RecvTimedOut)
    /\ closes calls = 1%nat.
Proof.
  intros Hc Hs Hon Ht Hto. unfold GenAndRun.send_command.
  rewrite Hc, Hs. cbn [negb].
  set (calls0 := [Create; SetTimeout timeout; Connect] ++ [Sendall (cmd ++ [Py.nl])]).
  assert (Hloop : exists why calls,
    GenAndRun.read_loop timeout [] calls0 (reads w)
    = Some (why, received n (reads w), calls)
    /\ (why = Deadline \/ why = RecvTimedOut)).
  { rewrite (LoopFacts.read_loop_reads_on timeout n) by exact Hon.
    cbn [app]. apply drop_S in Ht as Hd.
    rewrite (drop_S _ _ _ Ht). destruct t as [now r]. cbn [GenAndRun.read_loop].
    destruct (Qltb now timeout) eqn:Hnow; cbn [negb]; [|eauto].
    destruct Hto as [Hto|[later Hto]]; simpl in Hto; [congruence|].
    subst r. eauto. }
  destruct Hloop as (why & calls & Hloop & Hwhy).
  rewrite Hloop. exists why, (calls ++ [Close]). split_and!; [done|done|].
  apply LoopFacts.read_loop_closes in Hloop.
  rewrite LoopFacts.closes_app, Hloop. reflexivity.
Qed.

(** A peer that sends an unclosed object and then stays silent. *)
Lemma timeout_returns_partial_buffer_witness :
  let partial := Utf8.ascii_bytes (Py.lit "{" ++ Py.quoted "scriptId") in
  exists why calls,
    GenAndRun.send_command (Py.lit "SCRIPT_GENERATE:x") 60
      (World true true [(0.5%Q, Recv partial); (1%Q, RecvTimeout 61)])
    = Some (GenAndRun.Returned why (Utf8.decode_replace partial), calls)
    /\ (why = Deadline \/ why = RecvTimedOut)
    /\ closes calls = 1%nat.
Proof.
  intros partial.
  refine (timeout_returns_partial_buffer (Py.lit "SCRIPT_GENERATE:x") 60
    (World true true [(0.5%Q, Recv partial); (1%Q, RecvTimeout 61)])
    1 (1%Q, RecvTimeout 61) eq_refl eq_refl _ eq_refl _).
  - intros i Hi. assert (i = 0%nat) as -> by lia.
    exists 0.5%Q, partial. split_and!; [reflexivity|reflexivity|discriminate|].
    vm_compute. reflexivity.
  - right. by exists 61%Q.
Defined.

(** ** C4: closing the socket *)

Module CloseFacts.
Import LoopFacts.

Lemma recvs_app l1 l2 : recvs (l1 ++ l2) = (recvs l1 + recvs l2)%nat.
Proof.
  induction l1 as [|o l1 IH]; simpl; [done|]. destruct o; simpl; lia.
Qed.

Lemma run_print_lines_calls st decoded :
  RunScript.calls (RunScript.print_lines st decoded) = RunScript.calls st.
Proof.
  unfold RunScript.print_lines.
  generalize (Py.split Py.nl (Py.strip decoded)). intros ls. revert st.
  induction ls as [|l ls IH]; intros st; simpl; [done|].
  rewrite IH. unfold RunScript.print_line. by destruct (_ && _).
Qed.

Lemma run_loop_closes rs : forall st why st',
  RunScript.read_loop st rs = Some (why, st') ->
  closes (RunScript.calls st') = closes (RunScript.calls st).
Proof.
  induction rs as [|[now r] rs IH]; intros st why st'; simpl; [done|].
  destruct (Qltb now 180); simpl; [|by intros [= _ ->]].
  assert (Hc : closes (RunScript.calls (RunScript.with_call st (RecvCall 4096)))
               = closes (RunScript.calls st))
    by (simpl; rewrite closes_app; simpl; lia).
  destruct r as [chunk|later|msg].
  - destruct (nonempty chunk); [|by intros [= _ <-]].
    destruct (RunScript.completion_check _).
    + intros [= _ <-]. by rewrite run_print_lines_calls.
    + intros H. apply IH in H. by rewrite H, run_print_lines_calls.
  - intros H. apply IH in H. by rewrite H.
  - by intros [= _ <-].
Qed.

Section FullFlow.
Variable number : Type.
Variable json_loads : pystr -> option (TestFullFlow.json number).
Variable py_str : TestFullFlow.json number -> pystr.

Lemma flow_handle_lines_calls st decoded :
  TestFullFlow.calls
    (TestFullFlow.handle_lines number json_loads py_str st decoded)
  = TestFullFlow.calls st.
Proof.
  unfold TestFullFlow.handle_lines.
  generalize (Py.split Py.nl (Py.strip decoded)). intros ls. revert st.
  induction ls as [|l ls IH]; intros st; simpl; [done|].
  rewrite IH. unfold TestFullFlow.handle_line. by destruct (_ && _).
Qed.

Lemma flow_loop_closes timeout rs : forall st why st',
  TestFullFlow.read_loop number json_loads py_str timeout st rs
  = Some (why, st') ->
  closes (TestFullFlow.calls st')
  = closes (TestFullFlow.calls st).
Proof.
  induction rs as [|[now r] rs IH]; intros st why st'; simpl; [done|].
  destruct (Qltb now timeout); simpl; [|by intros [= _ ->]].
  assert (Hc : closes (TestFullFlow.calls
                 (TestFullFlow.with_call st (RecvCall 4096)))
               = closes (TestFullFlow.calls st))
    by (simpl; rewrite closes_app; simpl; lia).
  destruct r as [chunk|later|msg]; try by intros [= _ <-].
  destruct (nonempty chunk); [|by intros [= _ <-]].
  destruct (GenAndRun.completion_check _).
  - intros [= _ <-]. by rewrite flow_handle_lines_calls.
  - intros H. apply IH in H. by rewrite H, flow_handle_lines_calls.
Qed.

End FullFlow.

(** The streaming loop closes the socket itself exactly when it returns on
    a marker line. *)
Lemma stream_loop_closes deadline per_read width stop rs :
  forall out calls why out' calls',
  Stream.stream_loop deadline per_read width stop out calls rs
  = Some (why, out', calls') ->
  match why with
  | Sentinel => closes calls' = S (closes calls)
  | _ => closes calls' = closes calls
  end.
Proof.
  induction rs as [|[now r] rs IH]; intros out calls why out' calls';
    simpl; [done|].
  destruct (Qltb now deadline); simpl; [|by intros [= <- _ <-]].
  assert (Hc : closes (calls ++ [SetTimeout per_read; RecvCall 16384])
               = closes calls) by (rewrite closes_app; simpl; lia).
  destruct r as [data|later|msg].
  - destruct (nonempty data).
    + destruct (Stream.surface _ _ _ _) as [out1 found]. destruct found.
      * intros [= <- _ <-]. rewrite closes_app, Hc. simpl. lia.
      * intros H. apply IH in H. by rewrite Hc in H.
    + intros H. apply IH in H. by rewrite Hc in H.
  - intros H. apply IH in H. by rewrite Hc in H.
  - by intros [= <- _ <-].
Qed.

Lemma session_closes first deadline per_read width stop command w why out calls :
  Stream.session first deadline per_read width stop command w
  = Some (Stream.Ended why, out, calls) ->
  closes calls = 1%nat.
Proof.
  unfold Stream.session.
  destruct (connect_ok w); simpl; [|done].
  destruct (send_ok w); simpl; [|done].
  destruct (Stream.stream_loop _ _ _ _ _ _ _) as [[[why' out'] calls']|] eqn:E;
    [|done].
  apply stream_loop_closes in E.
  destruct why'; intros [= <- <- <-]; rewrite ?closes_app, E; reflexivity.
Qed.

End CloseFacts.




(** ** C8: marker lines end a streaming session *)

Module StreamFacts.
Import Py Stream LoopFacts CloseFacts.

Lemma stop_of_spec f line :
  stop_of f line = true <-> exists m, m ∈ markers f /\ occurs m line.
Proof.
  destruct f; simpl; unfold TestAiAgent.script_stop, TestAiAgent.goal_stop,
    TestExcludeLive.execute_stop;
    rewrite orb_true_iff, !PyFacts.contains_spec; (split;
    [ intros [H|H]; eexists; (split; [|exact H]); [by left|right; by left]
    | intros (m & Hm & H); rewrite !elem_of_cons in Hm;
      destruct Hm as [->|[->|Hm]]; [by left|by right|by apply elem_of_nil in Hm] ]).
Qed.

Lemma stop_of_unmarked f line : unmarked f line -> stop_of f line = false.
Proof.
  intros H. destruct (stop_of f line) eqn:E; [|done].
  apply stop_of_spec in E as (m & Hm & Ho). by destruct (H m Hm).
Qed.

Lemma unmarked_by_stop f line :
  stop_of f line = false -> unmarked f line.
Proof.
  intros H m Hm Ho.
  assert (stop_of f line = true)
    by (apply stop_of_spec; eauto).
  congruence.
Qed.

Lemma occurs_nonempty m line : m <> [] -> occurs m line -> line <> [].
Proof.
  intros Hm (pre & post & ->) H.
  apply app_eq_nil in H as [_ H]. by apply app_eq_nil in H as [H _].
Qed.

Lemma markers_nonempty f m : m ∈ markers f -> m <> [].
Proof.
  destruct f; simpl; rewrite !elem_of_cons;
    intros [->|[->|H]]; try discriminate; by apply elem_of_nil in H.
Qed.

(** Lines without a marker are printed and the chunk is left behind. *)
Lemma surface_unmarked f width lines : forall out,
  Forall (unmarked f) lines ->
  exists out', surface width (stop_of f) lines out = (out ++ out', false).
Proof.
  induction lines as [|l lines IH]; intros out H; simpl.
  - exists []. by rewrite app_nil_r.
  - apply Forall_cons in H as [Hl H].
    rewrite (stop_of_unmarked f l Hl).
    destruct (truthy l).
    + destruct (IH (out ++ [Line (take width l)]) H) as [out' ->].
      exists (Line (take width l) :: out'). by rewrite <- app_assoc.
    + apply IH, H.
Qed.

(** The first marker line of a chunk is printed, then the completion
    message, and the rest of the chunk is dropped. *)
Lemma surface_marked f width before line after : forall out,
  Forall (unmarked f) before ->
  (exists m, m ∈ markers f /\ occurs m line) ->
  exists out',
    surface width (stop_of f) (before ++ line :: after) out
    = (out ++ out' ++ [Line (take width line); Done], true).
Proof.
  induction before as [|l before IH]; intros out H Hm; simpl.
  - assert (Hl : truthy line = true).
    { destruct Hm as (m & Hm & Ho).
      pose proof (occurs_nonempty m line (markers_nonempty f m Hm) Ho).
      by destruct line. }
    rewrite Hl. apply stop_of_spec in Hm. rewrite Hm.
    exists []. by rewrite <- app_assoc.
  - apply Forall_cons in H as [Hl H].
    rewrite (stop_of_unmarked f l Hl).
    destruct (truthy l).
    + destruct (IH (out ++ [Line (take width l)]) H Hm) as [out' ->].
      exists (Line (take width l) :: out'). by rewrite <- !app_assoc.
    + by apply IH.
Qed.

Lemma loop_marker f pre now data rest before line after :
  forall out calls,
  Forall (streams_on f) pre ->
  Qltb now (deadline_of f) = true -> data <> [] ->
  split nl (strip (Utf8.decode_replace data)) = before ++ line :: after ->
  Forall (unmarked f) before ->
  (exists m, m ∈ markers f /\ occurs m line) ->
  exists out' calls',
    loop_of f out calls (pre ++ (now, Recv data) :: rest)
    = Some (Sentinel, out ++ out' ++ [Line (take (width_of f) line); Done], calls')
    /\ closes calls' = S (closes calls)
    /\ recvs calls' = (recvs calls + S (length pre))%nat.
Proof.
  intros out calls Hpre Hnow Hdata Hlines Hbefore Hline. revert out calls.
  unfold loop_of.
  induction Hpre as [|[now0 r0] pre [Hnow0 Hr0] _ IH]; intros out calls.
  - simpl. rewrite Hnow. simpl.
    assert (nonempty data = true) as -> by (by destruct data).
    rewrite Hlines.
    destruct (surface_marked f (width_of f) before line after out
                Hbefore Hline) as [out' ->].
    eexists _, _. split; [reflexivity|].
    rewrite !closes_app, !recvs_app. simpl. lia.
  - simpl in Hnow0, Hr0. cbn [app stream_loop]. rewrite Hnow0. cbn [negb].
    destruct r0 as [data0|later|msg]; [| |done].
    + destruct (nonempty data0).
      * destruct (surface_unmarked f (width_of f) _ out Hr0) as [out0 ->].
        destruct (IH (out ++ out0)
          (calls ++ [SetTimeout (match f with ScriptExecute => 10 | _ => 15 end);
                     RecvCall 16384])) as (out' & calls' & -> & Hc & Hr).
        exists (out0 ++ out'), calls'. split; [by rewrite <- !app_assoc|].
        rewrite closes_app in Hc. rewrite recvs_app in Hr. simpl in *. lia.
      * destruct (IH out
          (calls ++ [SetTimeout (match f with ScriptExecute => 10 | _ => 15 end);
                     RecvCall 16384])) as (out' & calls' & -> & Hc & Hr).
        exists out', calls'. split; [done|].
        rewrite closes_app in Hc. rewrite recvs_app in Hr. simpl in *. lia.
    + destruct (IH (out ++ [Waiting (int_of later)])
          (calls ++ [SetTimeout (match f with ScriptExecute => 10 | _ => 15 end);
                     RecvCall 16384])) as (out' & calls' & -> & Hc & Hr).
      exists ([Waiting (int_of later)] ++ out'), calls'.
      split; [by rewrite <- !app_assoc|].
      rewrite closes_app in Hc. rewrite recvs_app in Hr. simpl in *. lia.
Qed.

End StreamFacts.

(** C8, as the code has it.  Each streaming function looks for its own two
    markers: [test_script_execute] for SCRIPT_COMPLETE and SCRIPT_ERROR,
    [test_run_ai_goal] for AI_GOAL_COMPLETE and AI_GOAL_ERROR,
    [test_execute] for the inner text of the complete status and
    SCRIPT_ERROR.  When a chunk brings a line that holds one of them, after
    turns that did not end the loop, the function prints that line and the
    completion message, closes the socket and returns without reading
    again, whatever the completion test of the other scripts would say. *)
Theorem marker_line_ends_session f script_id w pre now data rest
    before line after :
  script_id <> [] -> connect_ok w = true -> send_ok w = true ->
  reads w = pre ++ (now, Recv data) :: rest ->
  Forall (streams_on f) pre ->
  Qltb now (deadline_of f) = true -> data <> [] ->
  Py.split Py.nl (Py.strip (Utf8.decode_replace data))
  = before ++ line :: after ->
  Forall (unmarked f) before ->
  (exists m, m ∈ markers f /\ occurs m line) ->
  exists out calls,
    run_streamer f script_id w
    = Some (Stream.Ended Sentinel,
            out ++ [Line (take (width_of f) line); Done], calls)
    /\ closes calls = 1%nat
    /\ recvs calls = S (length pre).
Proof.
  intros Hid Hc Hs Hrs Hpre Hnow Hdata Hlines Hbefore Hline.
  assert (Hsess : forall first command,
    exists out calls,
      Stream.session first (deadline_of f)
        (match f with ScriptExecute => 10 | _ => 15 end)
        (width_of f) (stop_of f) command w
      = Some (Stream.Ended Sentinel,
              out ++ [Line (take (width_of f) line); Done], calls)
      /\ closes calls = 1%nat /\ recvs calls = S (length pre)).
  { intros first command. unfold Stream.session.
    rewrite Hc, Hs, Hrs. cbn [negb app].
    destruct (StreamFacts.loop_marker f pre now data rest before line after
      [] ([Create; SetTimeout first; Connect] ++ [Sendall command])
      Hpre Hnow Hdata Hlines Hbefore Hline) as (out' & calls' & H & Hcl & Hre).
    unfold loop_of in H. cbn [app] in H.
    exists out', calls'. rewrite H. split; [done|].
    split; [exact Hcl|exact Hre]. }
  destruct script_id as [|c script_id]; [done|].
  destruct f; simpl; apply Hsess.
Qed.

(** A chunk of three lines, the second with a marker, after a read that
    timed out; the chunk does not pass the completion test of
    [gen_and_run.py]. *)
Lemma marker_line_ends_session_witness :
  let data := Utf8.ascii_bytes
    (Py.lit "step 1" ++ [Py.nl] ++ Py.lit "SCRIPT_COMPLETE ok" ++ [Py.nl]
     ++ Py.lit "more") in
  let w := World true true [(1%Q, RecvTimeout 11); (12%Q, Recv data)] in
  GenAndRun.completion_check (Utf8.decode_replace data) = false
  /\ exists out calls,
    TestAiAgent.test_script_execute (Some (Py.lit "s1")) w
    = Some (Stream.Ended Sentinel,
            out ++ [Line (Py.lit "SCRIPT_COMPLETE ok"); Done], calls)
    /\ closes calls = 1%nat /\ recvs calls = 2%nat.
Proof.
  intros data w. split; [by vm_compute|].
  refine (marker_line_ends_session ScriptExecute (Py.lit "s1") w
    [(1%Q, RecvTimeout 11)] 12 data [] [Py.lit "step 1"]
    (Py.lit "SCRIPT_COMPLETE ok") [Py.lit "more"] _ eq_refl eq_refl eq_refl
    _ eq_refl _ _ _ _).
  - discriminate.
  - repeat constructor.
  - discriminate.
  - by vm_compute.
  - repeat constructor. apply StreamFacts.unmarked_by_stop. by vm_compute.
  - exists (Py.lit "SCRIPT_COMPLETE"). split; [by left|].
    by exists [], (Py.lit " ok").
Defined.

(** C8 as stated fails: [test_script_execute] prints a line that holds
    AI_GOAL_COMPLETE and reads on until the deadline, and [test_execute]
    does the same with a line that holds SCRIPT_COMPLETE. *)
Lemma foreign_marker_does_not_end_session :
  let w marker := World true true
    [(1%Q, Recv (Utf8.ascii_bytes (Py.lit marker)));
     (3%Q, RecvTimeout 13.5); (181%Q, Recv [])] in
  (exists calls,
     TestAiAgent.test_script_execute (Some (Py.lit "s1")) (w "AI_GOAL_COMPLETE"%string)
     = Some (Stream.Ended Deadline,
             [Line (Py.lit "AI_GOAL_COMPLETE"); Waiting 13], calls)
     /\ recvs calls = 2%nat)
  /\ (exists calls,
     TestExcludeLive.test_execute (Some (Py.lit "s1")) (w "SCRIPT_COMPLETE"%string)
     = Some (Stream.Ended Deadline,
             [Line (Py.lit "SCRIPT_COMPLETE"); Waiting 13], calls)
     /\ recvs calls = 2%nat).
Proof.
  intros w. split; eexists; (split; [reflexivity|reflexivity]).
Qed.

(** ** C9: a read timeout does not end [run_script.py] *)

Module RunFacts.
Import Py RunScript.

Lemma print_lines_all_data st decoded :
  all_data (print_lines st decoded) = all_data st.
Proof.
  unfold print_lines.
  generalize (split nl (strip decoded)). intros ls. revert st.
  induction ls as [|l ls IH]; intros st; simpl; [done|].
  rewrite IH. unfold print_line. by destruct (_ && _).
Qed.

(** Every way out of the loop is one of the four of [ended_by]. *)
Lemma read_loop_ended rs : forall st why st',
  read_loop st rs = Some (why, st') ->
  exists i now r, rs !! i = Some (now, r) /\ ended_by why now r st'.
Proof.
  induction rs as [|[now r] rs IH]; intros st why st'; simpl; [done|].
  destruct (Qltb now 180) eqn:Hnow; simpl.
  2:{ intros [= <- <-]. by exists 0%nat, now, r. }
  destruct r as [chunk|later|msg].
  - destruct (nonempty chunk) eqn:Hne.
    + destruct (completion_check _) eqn:Hck.
      * intros [= <- <-]. exists 0%nat, now, (Recv chunk).
        split; [done|]. simpl. split_and!; [done| |].
        -- exists chunk. split; [done|]. by destruct chunk.
        -- by rewrite print_lines_all_data.
      * intros H. apply IH in H as (i & now' & r' & H & He).
        by exists (S i), now', r'.
    + intros [= <- <-]. exists 0%nat, now, (Recv chunk).
      split; [done|]. simpl. split; [done|]. by destruct chunk.
  - intros H. apply IH in H as (i & now' & r' & H & He).
    by exists (S i), now', r'.
  - intros [= <- <-]. exists 0%nat, now, (RecvRaises msg).
    split; [done|]. simpl. eauto.
Qed.

End RunFacts.

(** C9.  In the loop of [run_script.py] a read that raises
    [socket.timeout] within the deadline changes nothing but the count of
    calls, and the loop goes on with the next turn.  When the loop ends, it
    ends at a turn where the completion test holds on the buffer, or the
    peer has closed, or another exception was raised, or the 180 seconds of
    the loop test have passed; never at a read timeout. *)
Theorem read_timeout_never_ends_run_script st rs :
  (forall now later, Qltb now 180 = true ->
     RunScript.read_loop st ((now, RecvTimeout later) :: rs)
     = RunScript.read_loop (RunScript.with_call st (RecvCall 4096)) rs)
  /\ (forall why st', RunScript.read_loop st rs = Some (why, st') ->
        exists i now r, rs !! i = Some (now, r) /\ ended_by why now r st').
Proof.
  split.
  - intros now later Hnow. simpl. by rewrite Hnow.
  - intros why st'. apply RunFacts.read_loop_ended.
Qed.

(** The first read times out after its 180 seconds; the loop goes round,
    and it is the loop test that ends the session. *)
Lemma read_timeout_never_ends_run_script_witness :
  let reply := Utf8.ascii_bytes (Py.lit "{" ++ Lit.status "complete" ++ Py.lit "}") in
  let rs := [(180.5%Q, Recv reply)] in
  Qltb 0.25 180 = true
  /\ RunScript.read_loop RunScript.init ((0.25%Q, RecvTimeout 180.25) :: rs)
     = RunScript.read_loop
         (RunScript.with_call RunScript.init (RecvCall 4096)) rs
  /\ exists st',
       RunScript.read_loop RunScript.init ((0.25%Q, RecvTimeout 180.25) :: rs)
       = Some (Deadline, st')
       /\ exists i now r,
            ((0.25%Q, RecvTimeout 180.25) :: rs) !! i = Some (now, r)
            /\ ended_by Deadline now r st'.
Proof.
  intros reply rs. split; [reflexivity|]. split.
  - exact (proj1 (read_timeout_never_ends_run_script RunScript.init rs)
             0.25%Q 180.25%Q eq_refl).
  - eexists. split; [reflexivity|].
    refine (proj2 (read_timeout_never_ends_run_script RunScript.init
             ((0.25%Q, RecvTimeout 180.25) :: rs)) Deadline _ _).
    reflexivity.
Defined.

(** ** C5: each line is printed once *)

Module DedupeFacts.
Import Py RunScript.

Lemma lines_of_app out1 out2 : lines_of (out1 ++ out2) = lines_of out1 ++ lines_of out2.
Proof. apply omap_app. Qed.

Lemma lines_of_Line ls : lines_of (Line <$> ls) = ls.
Proof. induction ls as [|l ls IH]; simpl; [done|]. by f_equal. Qed.

Lemma fresh_elem seen ls l :
  l ∈ fresh seen ls -> (l ∉ seen) /\ l <> [] /\ l ∈ ls.
Proof.
  revert seen. induction ls as [|x ls IH]; intros seen; simpl.
  - by intros ?%elem_of_nil.
  - destruct (truthy x) eqn:Hx; simpl.
    + case_bool_decide as Hs; simpl.
      * intros (H1 & H2 & H3)%IH. split_and!; [done|done|by right].
      * intros [->|(H1 & H2 & H3)%IH]%elem_of_cons.
        -- split_and!; [done|by destruct x|by left].
        -- split_and!; [|done|by right].
           intros H. apply H1, elem_of_union. by right.
    + intros (H1 & H2 & H3)%IH. split_and!; [done|done|by right].
Qed.

Lemma fresh_NoDup seen ls : NoDup (fresh seen ls).
Proof.
  revert seen. induction ls as [|x ls IH]; intros seen; simpl.
  - constructor.
  - destruct (truthy x && negb (bool_decide (x ∈ seen))); [|done].
    constructor; [|done]. intros [H _]%fresh_elem.
    apply H, elem_of_union. left. by apply elem_of_singleton.
Qed.

Lemma fresh_covers seen ls l :
  l ∈ ls -> l <> [] -> l ∈ seen \/ l ∈ fresh seen ls.
Proof.
  revert seen. induction ls as [|x ls IH]; intros seen; [by intros ?%elem_of_nil|].
  intros [->|Hl]%elem_of_cons Hne; simpl.
  - assert (truthy x = true) as -> by (by destruct x). simpl.
    case_bool_decide; simpl; [by left|right; by left].
  - destruct (truthy x && negb (bool_decide (x ∈ seen))).
    + destruct (IH ({[x]} ∪ seen) Hl Hne) as [H|H].
      * apply elem_of_union in H as [->%elem_of_singleton|H];
          [right; by left|by left].
      * right. by right.
    + by apply IH.
Qed.

(** The [for] loop over the lines, in one step. *)
Lemma print_lines_fresh st decoded :
  let F := fresh (printed_lines st) (split nl (strip decoded)) in
  print_lines st decoded
  = State (all_data st) (list_to_set F ∪ printed_lines st)
          (stdout st ++ (Line <$> F)) (calls st).
Proof.
  unfold print_lines. generalize (split nl (strip decoded)). intros ls.
  revert st. induction ls as [|l ls IH]; intros st; simpl.
  - destruct st. simpl. by rewrite app_nil_r, (left_id_L ∅ (∪)).
  - rewrite IH. unfold print_line.
    destruct (truthy l && negb (bool_decide (l ∈ printed_lines st))); simpl.
    + f_equal; [|by rewrite <- app_assoc].
      by rewrite (assoc_L (∪)), (comm_L (∪) (list_to_set _) {[l]}).
    + done.
Qed.

Lemma deduped_init : deduped init.
Proof.
  split; [constructor|]. intros l. simpl.
  split; [by intros ?%not_elem_of_empty|by intros ?%elem_of_nil].
Qed.

Lemma deduped_with_call st o : deduped st -> deduped (with_call st o).
Proof. done. Qed.

Lemma deduped_with_chunk st c : deduped st -> deduped (with_chunk st c).
Proof. done. Qed.

Lemma deduped_with_error st msg : deduped st -> deduped (with_print st (Error msg)).
Proof.
  intros [Hn Hp]. unfold deduped. simpl.
  rewrite lines_of_app. simpl. by rewrite app_nil_r.
Qed.

Lemma deduped_print_lines st decoded :
  deduped st -> deduped (print_lines st decoded).
Proof.
  intros [Hn Hp]. rewrite print_lines_fresh. unfold deduped. simpl.
  rewrite lines_of_app, lines_of_Line. split.
  - apply NoDup_app. split_and!; [done| |apply fresh_NoDup].
    intros l Hl Hf. apply fresh_elem in Hf as [Hf _]. by apply Hf, Hp.
  - intros l. rewrite elem_of_union, elem_of_list_to_set, elem_of_app, Hp.
    tauto.
Qed.

(** After its [for] loop, every non-empty line of the buffer is in the
    set. *)
Lemma print_lines_seen st decoded l :
  l ∈ split nl (strip decoded) -> l <> [] ->
  l ∈ printed_lines (print_lines st decoded).
Proof.
  intros Hl Hne. rewrite print_lines_fresh. simpl.
  rewrite elem_of_union, elem_of_list_to_set.
  destruct (fresh_covers (printed_lines st) _ l Hl Hne); auto.
Qed.

Lemma print_lines_grows st decoded :
  printed_lines st ⊆ printed_lines (print_lines st decoded).
Proof.
  rewrite print_lines_fresh. simpl. intros l Hl. apply elem_of_union. by right.
Qed.

(** The loop keeps the record straight and forgets no line. *)
Lemma read_loop_deduped rs : forall st why st',
  read_loop st rs = Some (why, st') -> deduped st ->
  deduped st' /\ printed_lines st ⊆ printed_lines st'.
Proof.
  induction rs as [|[now r] rs IH]; intros st why st'; simpl; [done|].
  destruct (Qltb now 180); simpl; [|by intros [= _ <-]].
  destruct r as [chunk|later|msg].
  - destruct (nonempty chunk); [|by intros [= _ <-]].
    set (st1 := with_chunk (with_call st (RecvCall 4096)) chunk).
    destruct (completion_check _).
    + intros [= _ <-] Hd. split; [by apply deduped_print_lines|].
      apply (print_lines_grows st1).
    + intros H Hd. apply IH in H as [H1 H2]; [|by apply deduped_print_lines].
      split; [done|]. etrans; [|exact H2]. apply (print_lines_grows st1).
  - intros H Hd. by apply IH in H.
  - intros [= _ <-] Hd. split; [by apply deduped_with_error|done].
Qed.

(** A script of turns that leaves the loop running leaves a state from
    which the loop goes on. *)
Lemma read_loop_running pre : forall st,
  read_loop st pre = None ->
  exists st1,
    (forall rs, read_loop st (pre ++ rs) = read_loop st1 rs)
    /\ (deduped st -> deduped st1)
    /\ all_data st1 = all_data st ++ received (length pre) pre.
Proof.
  induction pre as [|[now r] pre IH]; intros st; simpl.
  - intros _. exists st. by rewrite app_nil_r.
  - destruct (Qltb now 180); simpl; [|done].
    destruct r as [chunk|later|msg]; [| |done].
    + destruct (nonempty chunk); [|done].
      destruct (completion_check _); [done|].
      intros H. apply IH in H as (st1 & Hrun & Hd & Hdata).
      exists st1. split_and!; [done| |].
      * intros Hst. by apply Hd, deduped_print_lines.
      * rewrite Hdata, RunFacts.print_lines_all_data. simpl.
        by rewrite <- app_assoc.
    + intros H. apply IH in H as (st1 & Hrun & Hd & Hdata).
      exists st1. split_and!; [done|done|]. by rewrite Hdata.
Qed.

Lemma once_of_NoDup {A} (x : A) (l : list A) : NoDup l -> x ∈ l -> once x l.
Proof.
  intros Hn (l1 & l2 & ->)%list_elem_of_split.
  exists l1, l2. split; [done|].
  apply NoDup_app in Hn as (_ & H1 & H2). apply NoDup_cons in H2 as [H2 _].
  split; [|done]. intros Hx. apply (H1 x Hx). by left.
Qed.

End DedupeFacts.

Module FlowFacts.
Import Py DedupeFacts.

Section FullFlow.
Variable number : Type.
Variable json_loads : pystr -> option (TestFullFlow.json number).
Variable py_str : TestFullFlow.json number -> pystr.

Local Abbreviation render := (TestFullFlow.render number json_loads py_str).
Local Abbreviation handle_lines :=
  (TestFullFlow.handle_lines number json_loads py_str).
Local Abbreviation read_loop := (TestFullFlow.read_loop number json_loads py_str).
Local Abbreviation is_handled := (handled json_loads py_str).

(** The [for] loop over the lines, in one step. *)
Lemma handle_lines_fresh st decoded :
  let F := fresh (TestFullFlow.printed st) (split nl (strip decoded)) in
  handle_lines st decoded
  = TestFullFlow.State (TestFullFlow.all_data st)
      (list_to_set F ∪ TestFullFlow.printed st)
      (TestFullFlow.stdout st ++ (F ≫= render)) (TestFullFlow.calls st).
Proof.
  unfold TestFullFlow.handle_lines.
  generalize (split nl (strip decoded)). intros ls.
  revert st. induction ls as [|l ls IH]; intros st; simpl.
  - destruct st. simpl. by rewrite app_nil_r, (left_id_L ∅ (∪)).
  - rewrite IH. unfold TestFullFlow.handle_line.
    destruct (truthy l && negb (bool_decide (l ∈ TestFullFlow.printed st)));
      simpl.
    + f_equal; [|by rewrite <- app_assoc].
      by rewrite (assoc_L (∪)), (comm_L (∪) (list_to_set _) {[l]}).
    + done.
Qed.

Lemma handled_init : is_handled TestFullFlow.init [].
Proof.
  split_and!; [constructor| |done]. intros l. simpl.
  split; [by intros ?%not_elem_of_empty|by intros ?%elem_of_nil].
Qed.

Lemma handled_handle_lines st decoded hs :
  is_handled st hs ->
  is_handled (handle_lines st decoded)
    (hs ++ fresh (TestFullFlow.printed st) (split nl (strip decoded))).
Proof.
  intros (Hn & Hp & Ho). rewrite handle_lines_fresh.
  unfold handled. split_and!; simpl.
  - apply NoDup_app. split_and!; [done| |apply fresh_NoDup].
    intros l Hl Hf. apply fresh_elem in Hf as [Hf _]. by apply Hf, Hp.
  - intros l. rewrite elem_of_union, elem_of_list_to_set, elem_of_app, Hp.
    tauto.
  - by rewrite Ho, bind_app.
Qed.

Lemma handle_lines_seen st decoded l :
  l ∈ split nl (strip decoded) -> l <> [] ->
  l ∈ TestFullFlow.printed (handle_lines st decoded).
Proof.
  intros Hl Hne. rewrite handle_lines_fresh. simpl.
  rewrite elem_of_union, elem_of_list_to_set.
  destruct (fresh_covers (TestFullFlow.printed st) _ l Hl Hne); auto.
Qed.

Lemma handle_lines_grows st decoded :
  TestFullFlow.printed st ⊆ TestFullFlow.printed (handle_lines st decoded).
Proof.
  rewrite handle_lines_fresh. simpl. intros l Hl.
  apply elem_of_union. by right.
Qed.

Lemma handle_lines_all_data st decoded :
  TestFullFlow.all_data (handle_lines st decoded) = TestFullFlow.all_data st.
Proof. by rewrite handle_lines_fresh. Qed.

Lemma flow_loop_handled timeout rs : forall st hs why st',
  read_loop timeout st rs = Some (why, st') -> is_handled st hs ->
  (exists hs', is_handled st' (hs ++ hs'))
  /\ TestFullFlow.printed st ⊆ TestFullFlow.printed st'.
Proof.
  induction rs as [|[now r] rs IH]; intros st hs why st'; simpl; [done|].
  assert (Hsame : forall st0 : TestFullFlow.state, is_handled st0 hs ->
            exists hs', is_handled st0 (hs ++ hs'))
    by (intros st0 H0; exists []; by rewrite app_nil_r).
  destruct (Qltb now timeout); simpl; [|intros [= _ <-]; auto].
  destruct r as [chunk|later|msg]; try (intros [= _ <-]; auto).
  destruct (nonempty chunk); [|intros [= _ <-]; auto].
  set (st1 := TestFullFlow.with_chunk
                (TestFullFlow.with_call st (RecvCall 4096)) chunk).
  destruct (GenAndRun.completion_check _).
  - intros [= _ <-] Hd. split; [|apply (handle_lines_grows st1)].
    eexists. by apply (handled_handle_lines st1).
  - intros H Hd.
    apply (IH _ (hs ++ fresh (TestFullFlow.printed st1)
                   (split nl (strip (Utf8.decode_replace
                      (TestFullFlow.all_data st1)))))) in H
      as [[hs' H1] H2]; [|by apply (handled_handle_lines st1)].
    split.
    + eexists. rewrite <- app_assoc in H1. exact H1.
    + etrans; [|exact H2]. apply (handle_lines_grows st1).
Qed.

Lemma flow_loop_running timeout pre : forall st,
  read_loop timeout st pre = None ->
  exists st1,
    (forall rs, read_loop timeout st (pre ++ rs) = read_loop timeout st1 rs)
    /\ (forall hs, is_handled st hs -> exists hs', is_handled st1 (hs ++ hs'))
    /\ TestFullFlow.all_data st1
       = TestFullFlow.all_data st ++ received (length pre) pre.
Proof.
  induction pre as [|[now r] pre IH]; intros st; simpl.
  - intros _. exists st. split_and!; [done| |by rewrite app_nil_r].
    intros hs H. exists []. by rewrite app_nil_r.
  - destruct (Qltb now timeout); simpl; [|done].
    destruct r as [chunk|later|msg]; [|done|done].
    destruct (nonempty chunk); [|done].
    set (st0 := TestFullFlow.with_chunk
                  (TestFullFlow.with_call st (RecvCall 4096)) chunk).
    destruct (GenAndRun.completion_check _); [done|].
    intros H. apply IH in H as (st1 & Hrun & Hd & Hdata).
    exists st1. split_and!; [done| |].
    + intros hs Hst.
      destruct (Hd _ (handled_handle_lines st0 _ hs Hst)) as [hs' H'].
      eexists. rewrite <- app_assoc in H'. exact H'.
    + rewrite Hdata, handle_lines_all_data. simpl. by rewrite <- app_assoc.
Qed.

End FullFlow.

End FlowFacts.

(** C5, as the code has it.  The loops compare raw lines: the strings that
    the decoded buffer, stripped at both ends, splits into at its line
    feeds.  Take a read that brings data, after turns that left the loop
    running, and a non-empty raw line of the re-split buffer at that read.
    In [run_script.py] that raw line is printed exactly once over the whole
    session, however many later reads present it again, and no raw line at
    all is printed twice.  In [test_full_flow.send_command] the raw line is
    taken up by the [try] block exactly once, and the console shows what the
    lines taken up gave rise to, each once and in order: nothing for a line
    that does not parse, the log line for an object with a string under
    log, the progress line for an object without log whose progress
    object has a step, a total and a string as description. *)
Theorem each_line_printed_once pre now chunk rest line :
  chunk <> [] -> line <> [] ->
  line ∈ Py.split Py.nl (Py.strip
           (Utf8.decode_replace (received (length pre) pre ++ chunk))) ->
  (forall why st',
     RunScript.read_loop RunScript.init pre = None ->
     Qltb now 180 = true ->
     RunScript.read_loop RunScript.init (pre ++ (now, Recv chunk) :: rest)
     = Some (why, st') ->
     once line (RunScript.lines_of (RunScript.stdout st'))
     /\ NoDup (RunScript.lines_of (RunScript.stdout st')))
  /\ (forall number json_loads py_str timeout why st',
     TestFullFlow.read_loop number json_loads py_str timeout
       TestFullFlow.init pre = None ->
     Qltb now timeout = true ->
     TestFullFlow.read_loop number json_loads py_str timeout
       TestFullFlow.init (pre ++ (now, Recv chunk) :: rest)
     = Some (why, st') ->
     exists hs,
       once line hs
       /\ TestFullFlow.stdout st'
          = hs ≫= TestFullFlow.render number json_loads py_str
       /\ (json_loads line = None ->
           TestFullFlow.render number json_loads py_str line = [])
       /\ (forall d s,
             json_loads line = Some (TestFullFlow.JObject d) ->
             TestFullFlow.member number "log" d
             = Some (TestFullFlow.JString s) ->
             TestFullFlow.render number json_loads py_str line = [LogLine s])
       /\ (forall d p a b c,
             json_loads line = Some (TestFullFlow.JObject d) ->
             TestFullFlow.member number "log" d = None ->
             TestFullFlow.member number "progress" d
             = Some (TestFullFlow.JObject p) ->
             TestFullFlow.member number "step" p = Some a ->
             TestFullFlow.member number "total" p = Some b ->
             TestFullFlow.member number "description" p
             = Some (TestFullFlow.JString c) ->
             TestFullFlow.render number json_loads py_str line
             = [ProgressLine (py_str a) (py_str b) c])).
Proof.
  intros Hchunk Hne Hline.
  assert (Hc : nonempty chunk = true) by (by destruct chunk).
  split.
  - intros why st' Hpre Hnow Hrun.
    apply DedupeFacts.read_loop_running in Hpre as (st1 & Hgo & Hd & Hdata).
    specialize (Hd DedupeFacts.deduped_init). simpl in Hdata.
    rewrite Hgo in Hrun. simpl in Hrun. rewrite Hnow in Hrun. simpl in Hrun.
    rewrite Hc, Hdata in Hrun.
    set (st2 := RunScript.print_lines _ _) in Hrun.
    assert (Hd2 : deduped st2) by (by apply DedupeFacts.deduped_print_lines).
    assert (Hl2 : line ∈ RunScript.printed_lines st2)
      by (by apply DedupeFacts.print_lines_seen).
    assert (Hfin : deduped st' /\ line ∈ RunScript.printed_lines st').
    { destruct (RunScript.completion_check _).
      - by injection Hrun as _ <-.
      - apply DedupeFacts.read_loop_deduped in Hrun as [H1 H2]; [|done].
        split; [done|]. by apply H2. }
    destruct Hfin as [[Hn Hp] Hl]. split; [|done].
    apply DedupeFacts.once_of_NoDup; [done|]. by apply Hp.
  - intros number json_loads py_str timeout why st' Hpre Hnow Hrun.
    apply FlowFacts.flow_loop_running in Hpre as (st1 & Hgo & Hd & Hdata).
    destruct (Hd [] (FlowFacts.handled_init _ _ _)) as [hs1 Hh1].
    simpl in Hdata, Hh1.
    rewrite Hgo in Hrun. simpl in Hrun. rewrite Hnow in Hrun. simpl in Hrun.
    rewrite Hc, Hdata in Hrun.
    set (st0 := TestFullFlow.with_chunk _ _) in Hrun.
    set (st2 := TestFullFlow.handle_lines _ _ _ _ _) in Hrun.
    assert (Hh2 : exists hs2, handled json_loads py_str st2 hs2).
    { eexists. by apply (FlowFacts.handled_handle_lines _ _ _ st0 _ hs1). }
    destruct Hh2 as [hs2 Hh2].
    assert (Hl2 : line ∈ TestFullFlow.printed st2)
      by (by apply FlowFacts.handle_lines_seen).
    assert (Hfin : exists hs, handled json_loads py_str st' hs
                              /\ line ∈ TestFullFlow.printed st').
    { destruct (GenAndRun.completion_check _).
      - injection Hrun as _ <-. eauto.
      - apply (FlowFacts.flow_loop_handled _ _ _ _ _ _ hs2) in Hrun
          as [[hs' H1] H2]; [|done].
        eexists. split; [exact H1|]. by apply H2. }
    destruct Hfin as (hs & (Hn & Hp & Ho) & Hl). exists hs.
    split_and!; [|done|..].
    + apply DedupeFacts.once_of_NoDup; [done|]. by apply Hp.
    + intros Hj. unfold TestFullFlow.render. by rewrite Hj.
    + intros d s Hj Hlog. unfold TestFullFlow.render. rewrite Hj. simpl.
      by rewrite Hlog.
    + intros d p a b c Hj Hlog Hprog Hstep Htotal Hdesc.
      unfold TestFullFlow.render. rewrite Hj. simpl.
      by rewrite Hlog, Hprog, Hstep, Htotal, Hdesc.
Qed.

(** A line that stays at the head of the buffer over two reads. *)
Lemma each_line_printed_once_witness :
  let l1 := Py.lit "{" ++ Py.quoted "log" ++ Py.lit ":" ++ Py.quoted "a" ++ Py.lit "}" in
  let l2 := Py.lit "{" ++ Py.quoted "log" ++ Py.lit ":" ++ Py.quoted "b" ++ Py.lit "}" in
  let pre := [(1%Q, Recv (Utf8.ascii_bytes (l1 ++ [Py.nl])))] in
  let rs := pre ++ [(2%Q, Recv (Utf8.ascii_bytes l2)); (3%Q, Recv [])] in
  match RunScript.read_loop RunScript.init rs with
  | Some (_, st') =>
      RunScript.lines_of (RunScript.stdout st') = [l1; l2]
      /\ once l1 (RunScript.lines_of (RunScript.stdout st'))
  | None => False
  end.
Proof.
  intros l1 l2 pre rs.
  destruct (RunScript.read_loop RunScript.init rs) as [[why st']|] eqn:E;
    [|by vm_compute in E].
  split.
  - vm_compute in E. by injection E as _ <-.
  - refine (proj1 (proj1 (each_line_printed_once pre 2 (Utf8.ascii_bytes l2)
      [(3%Q, Recv [])] l1 _ _ _) why st' eq_refl eq_refl E)).
    + discriminate.
    + discriminate.
    + vm_compute. by left.
Defined.

(** C5 as stated fails.  Two log lines arrive, each ended by a carriage
    return and a line feed, one in each read.  After the first read the
    first line is the last of the buffer and is printed without its
    carriage return, which [strip] took off; after the second read it is
    printed again with it.  [test_full_flow.send_command] prints its log
    text twice, for [json.loads] takes the line with and without the
    carriage return. *)
Lemma crlf_line_printed_twice :
  let l1 := Py.lit "{" ++ Py.quoted "log" ++ Py.lit ":" ++ Py.quoted "a" ++ Py.lit "}" in
  let l2 := Py.lit "{" ++ Py.quoted "log" ++ Py.lit ":" ++ Py.quoted "b" ++ Py.lit "}" in
  let c1 := Utf8.ascii_bytes (l1 ++ [13; Py.nl]) in
  let c2 := Utf8.ascii_bytes (l2 ++ [13; Py.nl]) in
  let log (s : string) : option (TestFullFlow.json Z) :=
    Some (TestFullFlow.JObject [(Py.lit "log", TestFullFlow.JString (Py.lit s))]) in
  let json_loads (line : pystr) : option (TestFullFlow.json Z) :=
    if bool_decide (line = l1) || bool_decide (line = l1 ++ [13])
    then log "a"%string
    else if bool_decide (line = l2) || bool_decide (line = l2 ++ [13])
    then log "b"%string else None in
  let py_str (v : TestFullFlow.json Z) : pystr := [] in
  Py.split Py.nl (Utf8.decode_replace (c1 ++ c2)) = [l1 ++ [13]; l2 ++ [13]; []]
  /\ RunScript.emitted [c1; c2] = [l1; l1 ++ [13]; l2]
  /\ TestFullFlow.emitted Z json_loads py_str [c1; c2]
     = [LogLine (Py.lit "a"); LogLine (Py.lit "a"); LogLine (Py.lit "b")].
Proof. vm_compute. repeat split; reflexivity. Qed.

(** ** C10: a line split between two reads *)

Module SplitFacts.
Import Py RunScript DedupeFacts.

(** Lines that are empty or seen already are passed over. *)
Lemma fresh_old seen ls tail :
  (forall l, l ∈ ls -> l = [] \/ l ∈ seen) ->
  fresh seen (ls ++ tail) = fresh seen tail.
Proof.
  induction ls as [|x ls IH]; intros H; simpl; [done|].
  destruct (H x ltac:(by left)) as [->|Hx]; simpl.
  - apply IH. intros l Hl. apply H. by right.
  - rewrite bool_decide_true by done. rewrite andb_false_r.
    apply IH. intros l Hl. apply H. by right.
Qed.

(** The lines printed for the first part of a list are seen when the
    second part is gone through. *)
Lemma fresh_app seen ls1 : forall ls2,
  fresh seen (ls1 ++ ls2)
  = fresh seen ls1 ++ fresh (list_to_set (fresh seen ls1) ∪ seen) ls2.
Proof.
  revert seen. induction ls1 as [|l ls1 IH]; intros seen ls2; simpl.
  - by rewrite (left_id_L ∅ (∪)).
  - destruct (truthy l && negb (bool_decide (l ∈ seen))); simpl.
    + rewrite IH. do 2 f_equal.
      by rewrite (assoc_L (∪)), (comm_L (∪) (list_to_set _) {[l]}).
    + apply IH.
Qed.

Lemma fresh_new seen x : x <> [] -> x ∉ seen -> fresh seen [x] = [x].
Proof.
  intros Hx Hs. simpl. rewrite bool_decide_false by done.
  by destruct x.
Qed.

End SplitFacts.

(** C10, as the code has it.  Take a read after which the buffer ends in a
    partial line [x], whatever lines [ls] stand before it, and the next
    read, which completes [x] to [y] and may bring more lines after it.
    When [x] and [y] are not empty and differ, and neither is a line printed
    in an earlier read or one of the lines [ls] before it in the buffer, the
    first read prints the new ones among [ls] and then [x], and the second
    read prints [y] next: the same line of the response is surfaced twice.
    The loop compares whole raw lines, so this needs [y] to differ from
    every line printed so far. *)
Theorem split_line_printed_twice st now1 p now2 q rs ls x y more :
  Qltb now1 180 = true -> Qltb now2 180 = true -> p <> [] -> q <> [] ->
  let d1 := Utf8.decode_replace (RunScript.all_data st ++ p) in
  let d2 := Utf8.decode_replace ((RunScript.all_data st ++ p) ++ q) in
  Py.split Py.nl (Py.strip d1) = ls ++ [x] ->
  Py.split Py.nl (Py.strip d2) = ls ++ y :: more ->
  x <> [] -> y <> [] -> x <> y ->
  x ∉ RunScript.printed_lines st -> y ∉ RunScript.printed_lines st ->
  x ∉ ls -> y ∉ ls ->
  RunScript.completion_check d1 = false ->
  exists st1 st2 later,
    RunScript.read_loop st [(now1, Recv p)] = None
    /\ (forall rs', RunScript.read_loop st ((now1, Recv p) :: rs')
                    = RunScript.read_loop st1 rs')
    /\ RunScript.stdout st1
       = RunScript.stdout st
         ++ (Line <$> fresh (RunScript.printed_lines st) ls) ++ [Line x]
    /\ RunScript.read_loop st1 ((now2, Recv q) :: rs)
       = (if RunScript.completion_check d2 then Some (Complete, st2)
          else RunScript.read_loop st2 rs)
    /\ RunScript.stdout st2
       = RunScript.stdout st1 ++ Line y :: (Line <$> later).
Proof.
  intros Hn1 Hn2 Hp Hq d1 d2 Hd1 Hd2 Hx Hy Hxy Hxs Hys Hxl Hyl Hck.
  assert (Hpn : nonempty p = true) by (by destruct p).
  assert (Hqn : nonempty q = true) by (by destruct q).
  set (seen := RunScript.printed_lines st) in *.
  set (F := fresh seen ls).
  set (seen1 := list_to_set (F ++ [x]) ∪ seen : gset pystr).
  set (st1 := RunScript.print_lines
    (RunScript.with_chunk (RunScript.with_call st (RecvCall 4096)) p) d1).
  set (st2 := RunScript.print_lines
    (RunScript.with_chunk (RunScript.with_call st1 (RecvCall 4096)) q) d2).
  assert (HF : forall l, l ∈ F -> l ∈ ls).
  { intros l Hl. by apply DedupeFacts.fresh_elem in Hl as (_ & _ & Hl). }
  assert (E1 : st1 = RunScript.State (RunScript.all_data st ++ p) seen1
                 (RunScript.stdout st ++ (Line <$> F) ++ [Line x])
                 (RunScript.calls st ++ [RecvCall 4096])).
  { unfold st1. rewrite DedupeFacts.print_lines_fresh. simpl.
    rewrite Hd1, SplitFacts.fresh_app, SplitFacts.fresh_new; [|done|].
    - fold seen F. unfold seen1. by rewrite fmap_app.
    - fold seen F. intros [H%elem_of_list_to_set|H]%elem_of_union; [|done].
      by apply Hxl, HF. }
  assert (Hy1 : y ∉ seen1).
  { unfold seen1. intros [H%elem_of_list_to_set|H]%elem_of_union; [|done].
    apply elem_of_app in H as [H|H%list_elem_of_singleton]; [|done].
    by apply Hyl, HF. }
  assert (Hold : forall l, l ∈ ls -> l = [] \/ l ∈ seen1).
  { intros l Hl. destruct l as [|c l]; [by left|]. right.
    destruct (DedupeFacts.fresh_covers seen ls (c :: l) Hl) as [H|H]; [done| |].
    - apply elem_of_union. by right.
    - apply elem_of_union. left. apply elem_of_list_to_set.
      apply elem_of_app. by left. }
  exists st1, st2, (fresh ({[y]} ∪ seen1) more). split_and!.
  - simpl. rewrite Hn1, Hpn. simpl. fold d1. by rewrite Hck.
  - intros rs'. simpl. rewrite Hn1, Hpn. simpl. fold d1. by rewrite Hck.
  - by rewrite E1.
  - simpl. rewrite Hn2, Hqn. simpl.
    replace (RunScript.all_data st1) with (RunScript.all_data st ++ p)
      by (by rewrite E1).
    fold d2. reflexivity.
  - unfold st2. rewrite DedupeFacts.print_lines_fresh. simpl.
    replace (RunScript.printed_lines st1) with seen1 by (by rewrite E1).
    rewrite Hd2, SplitFacts.fresh_old by done.
    simpl. rewrite bool_decide_false by done.
    by destruct y.
Qed.

(** A whole log line and the start of the next in the first read, the rest
    of that line and a third line in the second. *)
Lemma split_line_printed_twice_witness :
  let l := Py.lit "{" ++ Py.quoted "log" ++ Py.lit ":" ++ Py.quoted "a" ++ Py.lit "}" in
  let x := Py.lit "{" ++ Py.quoted "log" in
  let y := Py.lit "{" ++ Py.quoted "log" ++ Py.lit ":" ++ Py.quoted "b" ++ Py.lit "}" in
  let z := Py.lit "end" in
  let p := Utf8.ascii_bytes (l ++ [Py.nl] ++ x) in
  let q := Utf8.ascii_bytes (Py.lit ":" ++ Py.quoted "b" ++ Py.lit "}"
                             ++ [Py.nl] ++ z) in
  RunScript.emitted [p; q] = [l; x; y; z]
  /\ exists st1 st2 later,
    RunScript.read_loop RunScript.init [(1%Q, Recv p)] = None
    /\ (forall rs', RunScript.read_loop RunScript.init ((1%Q, Recv p) :: rs')
                    = RunScript.read_loop st1 rs')
    /\ RunScript.stdout st1 = [Line l; Line x]
    /\ RunScript.read_loop st1 [(2%Q, Recv q); (3%Q, Recv [])]
       = RunScript.read_loop st2 [(3%Q, Recv [])]
    /\ RunScript.stdout st2
       = RunScript.stdout st1 ++ Line y :: (Line <$> later).
Proof.
  intros l x y z p q. split; [by vm_compute|].
  refine (split_line_printed_twice RunScript.init 1 p 2 q [(3%Q, Recv [])]
    [l] x y [z] eq_refl eq_refl _ _ eq_refl eq_refl _ _ _ _ _ _ _ eq_refl);
    try discriminate;
    first [ apply (not_elem_of_empty (C := gset pystr))
          | by intros [H|H%elem_of_nil]%elem_of_cons ].
Defined.

(** C10 as stated fails: when the line cut between two reads repeats an
    earlier line, its first part is printed and the completed line is not
    printed again. *)
Lemma repeated_line_not_printed_again :
  let l := Py.lit "{" ++ Py.quoted "log" ++ Py.lit ":" ++ Py.quoted "a" ++ Py.lit "}" in
  let x := Py.lit "{" ++ Py.quoted "log" in
  let p := Utf8.ascii_bytes (l ++ [Py.nl] ++ x) in
  let q := Utf8.ascii_bytes (Py.lit ":" ++ Py.quoted "a" ++ Py.lit "}") in
  Py.split Py.nl (Utf8.decode_replace (p ++ q)) = [l; l]
  /\ RunScript.emitted [p] = [l; x]
  /\ RunScript.emitted [p; q] = [l; x].
Proof. vm_compute. repeat split; reflexivity. Qed.

(** ** C2: one chunk against one byte per read *)

Module ChunkFacts.
Import Py RunScript DedupeFacts.

(** The response handed over whole: the loop prints the fresh lines of the
    whole text, once. *)
Lemma whole_run response :
  response <> [] ->
  exists why st',
    read_loop init (deliver [response]) = Some (why, st')
    /\ all_data st' = response
    /\ lines_of (stdout st')
       = fresh ∅ (split nl (strip (Utf8.decode_replace response))).
Proof.
  intros Hne. assert (Hn : nonempty response = true) by (by destruct response).
  unfold deliver. simpl. rewrite Hn.
  set (st1 := print_lines _ _).
  assert (E : all_data st1 = response
              /\ lines_of (stdout st1)
                 = fresh ∅ (split nl (strip (Utf8.decode_replace response)))).
  { unfold st1. rewrite print_lines_fresh. simpl. split; [done|].
    apply lines_of_Line. }
  destruct (completion_check _); eexists _, _; (split; [reflexivity|exact E]).
Qed.

(** The response handed over byte by byte from the state [st], no buffer
    before the last passing the completion test: the loop gets to the last
    byte, and then every non-empty line of the whole text is in the set. *)
Lemma bytewise_run rest : forall st,
  deduped st ->
  (forall k, (0 < k < length rest)%nat ->
     completion_check
       (Utf8.decode_replace (all_data st ++ take k rest)) = false) ->
  exists why st',
    read_loop st (deliver (bytewise rest)) = Some (why, st')
    /\ deduped st'
    /\ all_data st' = all_data st ++ rest
    /\ (rest <> [] -> forall l, l <> [] ->
          l ∈ split nl (strip (Utf8.decode_replace (all_data st ++ rest))) ->
          l ∈ printed_lines st').
Proof.
  induction rest as [|b rest IH]; intros st Hd Hck.
  - exists PeerClosed, (with_call st (RecvCall 4096)).
    split_and!; [done|done|by rewrite app_nil_r|done].
  - unfold deliver, bytewise. cbn [map app read_loop].
    change (Qltb 0 180) with true. cbn [negb nonempty].
    set (st1 := print_lines (with_chunk (with_call st (RecvCall 4096)) [b])
                  (Utf8.decode_replace
                     (all_data (with_chunk (with_call st (RecvCall 4096)) [b])))).
    assert (Hd1 : deduped st1) by (by apply deduped_print_lines).
    assert (Ha1 : all_data st1 = all_data st ++ [b])
      by (unfold st1; by rewrite RunFacts.print_lines_all_data).
    destruct rest as [|b' rest].
    + assert (Hl1 : forall l, l <> [] ->
        l ∈ split nl (strip (Utf8.decode_replace (all_data st ++ [b]))) ->
        l ∈ printed_lines st1).
      { intros l Hl Hin. by apply print_lines_seen. }
      destruct (completion_check _).
      * exists Complete, st1. split_and!; done.
      * exists PeerClosed, (with_call st1 (RecvCall 4096)).
        split_and!; done.
    + assert (Hfalse : completion_check
        (Utf8.decode_replace (all_data (with_chunk (with_call st (RecvCall 4096)) [b])))
        = false).
      { apply (Hck 1%nat). simpl. lia. }
      rewrite Hfalse.
      destruct (IH st1 Hd1) as (why & st' & Hrun & Hd' & Ha' & Hl').
      { intros k Hk. rewrite Ha1, <- app_assoc.
        apply (Hck (S k)). simpl in *. lia. }
      exists why, st'. split_and!; [exact Hrun|done| |].
      * by rewrite Ha', Ha1, <- app_assoc.
      * intros _ l Hl Hin. apply Hl'; [done|done|].
        by rewrite Ha1, <- app_assoc.
Qed.

Section FullFlow.
Variable number : Type.
Variable json_loads : pystr -> option (TestFullFlow.json number).
Variable py_str : TestFullFlow.json number -> pystr.

Local Abbreviation flow_loop :=
  (TestFullFlow.read_loop number json_loads py_str 120).
Local Abbreviation flow_lines :=
  (TestFullFlow.handle_lines number json_loads py_str).
Local Abbreviation is_handled := (handled json_loads py_str).

Lemma whole_run_flow response :
  response <> [] ->
  exists why st',
    flow_loop TestFullFlow.init (deliver [response]) = Some (why, st')
    /\ TestFullFlow.all_data st' = response
    /\ TestFullFlow.stdout st'
       = fresh ∅ (split nl (strip (Utf8.decode_replace response)))
         ≫= TestFullFlow.render number json_loads py_str.
Proof.
  intros Hne. assert (Hn : nonempty response = true) by (by destruct response).
  unfold deliver. simpl. rewrite Hn.
  set (st1 := TestFullFlow.handle_lines _ _ _ _ _).
  assert (E : TestFullFlow.all_data st1 = response
              /\ TestFullFlow.stdout st1
                 = fresh ∅ (split nl (strip (Utf8.decode_replace response)))
                   ≫= TestFullFlow.render number json_loads py_str).
  { unfold st1. by rewrite FlowFacts.handle_lines_fresh. }
  destruct (GenAndRun.completion_check _); eexists _, _;
    (split; [reflexivity|exact E]).
Qed.

Lemma bytewise_run_flow rest : forall st hs,
  is_handled st hs ->
  (forall k, (0 < k < length rest)%nat ->
     GenAndRun.completion_check
       (Utf8.decode_replace (TestFullFlow.all_data st ++ take k rest)) = false) ->
  exists why st' hs',
    flow_loop st (deliver (bytewise rest)) = Some (why, st')
    /\ is_handled st' hs'
    /\ TestFullFlow.all_data st' = TestFullFlow.all_data st ++ rest
    /\ (rest <> [] -> forall l, l <> [] ->
          l ∈ split nl (strip (Utf8.decode_replace
                                 (TestFullFlow.all_data st ++ rest))) ->
          l ∈ TestFullFlow.printed st').
Proof.
  induction rest as [|b rest IH]; intros st hs Hd Hck.
  - exists PeerClosed, (TestFullFlow.with_call st (RecvCall 4096)), hs.
    split_and!; [done|done|by rewrite app_nil_r|done].
  - unfold deliver, bytewise. cbn [map app TestFullFlow.read_loop].
    change (Qltb 0 120) with true. cbn [negb nonempty].
    set (st0 := TestFullFlow.with_chunk
                  (TestFullFlow.with_call st (RecvCall 4096)) [b]).
    set (st1 := flow_lines st0 (Utf8.decode_replace (TestFullFlow.all_data st0))).
    assert (Hd1 : exists hs1, is_handled st1 hs1).
    { eexists. by apply (FlowFacts.handled_handle_lines _ _ _ st0 _ hs). }
    destruct Hd1 as [hs1 Hd1].
    assert (Ha1 : TestFullFlow.all_data st1 = TestFullFlow.all_data st ++ [b])
      by (unfold st1; by rewrite FlowFacts.handle_lines_all_data).
    destruct rest as [|b' rest].
    + assert (Hl1 : forall l, l <> [] ->
        l ∈ split nl (strip (Utf8.decode_replace
                               (TestFullFlow.all_data st ++ [b]))) ->
        l ∈ TestFullFlow.printed st1).
      { intros l Hl Hin. by apply FlowFacts.handle_lines_seen. }
      destruct (GenAndRun.completion_check _).
      * exists Complete, st1, hs1. split_and!; done.
      * exists PeerClosed, (TestFullFlow.with_call st1 (RecvCall 4096)), hs1.
        split_and!; done.
    + assert (Hfalse : GenAndRun.completion_check
        (Utf8.decode_replace (TestFullFlow.all_data st0)) = false).
      { apply (Hck 1%nat). simpl. lia. }
      rewrite Hfalse.
      destruct (IH st1 hs1 Hd1) as (why & st' & hs' & Hrun & Hd' & Ha' & Hl').
      { intros k Hk. rewrite Ha1, <- app_assoc.
        apply (Hck (S k)). simpl in *. lia. }
      exists why, st', hs'. split_and!; [exact Hrun|done| |].
      * by rewrite Ha', Ha1, <- app_assoc.
      * intros _ l Hl Hin. apply Hl'; [done|done|].
        by rewrite Ha1, <- app_assoc.
Qed.

End FullFlow.

End ChunkFacts.

(** C2, as the code has it.  For a response of which no proper prefix
    passes the completion test, [run_script.py] ends with the same buffer
    whether the bytes come in one chunk or one per read, and every line it
    prints for the one chunk it also prints for the single bytes; the same
    holds for the buffer and the console of [test_full_flow.send_command].
    (The single bytes make the loop take up the unfinished lines as well,
    and a prefix that passes the completion test ends the session before
    the rest is read.) *)
Theorem chunking_keeps_whole_lines response :
  ((forall k, (0 < k < length response)%nat ->
      RunScript.completion_check
        (Utf8.decode_replace (take k response)) = false) ->
   RunScript.buffered [response]
   = RunScript.buffered (RunScript.bytewise response)
   /\ forall line, line ∈ RunScript.emitted [response] ->
                   line ∈ RunScript.emitted (RunScript.bytewise response))
  /\ (forall number json_loads py_str,
   (forall k, (0 < k < length response)%nat ->
      GenAndRun.completion_check
        (Utf8.decode_replace (take k response)) = false) ->
   TestFullFlow.buffered number json_loads py_str [response]
   = TestFullFlow.buffered number json_loads py_str
       (RunScript.bytewise response)
   /\ forall event,
        event ∈ TestFullFlow.emitted number json_loads py_str [response] ->
        event ∈ TestFullFlow.emitted number json_loads py_str
                  (RunScript.bytewise response)).
Proof.
  split.
  - intros Hck. destruct response as [|b response].
    + split; [reflexivity|]. intros line H. vm_compute in H.
      by apply elem_of_nil in H.
    + destruct (ChunkFacts.whole_run (b :: response)) as
        (why1 & st1 & Hrun1 & Ha1 & Hl1); [done|].
      destruct (ChunkFacts.bytewise_run (b :: response) RunScript.init
                  DedupeFacts.deduped_init Hck)
        as (why2 & st2 & Hrun2 & [Hn2 Hp2] & Ha2 & Hl2).
      unfold RunScript.buffered, RunScript.emitted.
      rewrite Hrun1, Hrun2. split; [by rewrite Ha1, Ha2|].
      intros line. rewrite Hl1. intros (_ & Hne & Hin)%DedupeFacts.fresh_elem.
      apply Hp2. by apply Hl2.
  - intros number json_loads py_str Hck. destruct response as [|b response].
    + split; [reflexivity|]. intros event H. vm_compute in H.
      by apply elem_of_nil in H.
    + destruct (ChunkFacts.whole_run_flow number json_loads py_str
                  (b :: response)) as (why1 & st1 & Hrun1 & Ha1 & Hl1); [done|].
      destruct (ChunkFacts.bytewise_run_flow number json_loads py_str
                  (b :: response) TestFullFlow.init []
                  (FlowFacts.handled_init _ _ _) Hck)
        as (why2 & st2 & hs2 & Hrun2 & (Hn2 & Hp2 & Ho2) & Ha2 & Hl2).
      unfold TestFullFlow.buffered, TestFullFlow.emitted.
      rewrite Hrun1, Hrun2. split; [by rewrite Ha1, Ha2|].
      intros event. rewrite Hl1, Ho2.
      intros (l & He & Hl)%list_elem_of_bind.
      apply DedupeFacts.fresh_elem in Hl as (_ & Hne & Hin).
      apply list_elem_of_bind. exists l. split; [done|].
      apply Hp2. by apply Hl2.
Qed.

(** A log line without a status. *)
Lemma chunking_keeps_whole_lines_witness :
  let response := Utf8.ascii_bytes
    (Py.lit "{" ++ Py.quoted "log" ++ Py.lit ":1}" ++ [Py.nl]) in
  RunScript.buffered [response] = RunScript.buffered (RunScript.bytewise response)
  /\ forall line, line ∈ RunScript.emitted [response] ->
                  line ∈ RunScript.emitted (RunScript.bytewise response).
Proof.
  intros response. apply (proj1 (chunking_keeps_whole_lines response)).
  intros k Hk.
  assert (Hall : forallb (fun k => negb (RunScript.completion_check
            (Utf8.decode_replace (take k response)))) (seq 0 10) = true)
    by (by vm_compute).
  rewrite forallb_forall in Hall. apply negb_true_iff, Hall, in_seq.
  change (length response) with 10%nat in Hk. lia.
Defined.

(** C2 as stated fails.  A reply that goes on after a complete status
    object: in one chunk both lines are printed, byte by byte the session
    ends at the closing brace of the first and the second line is never
    printed.  And a plain two-byte line is printed once in one chunk, but
    after its first byte and again whole when it comes byte by byte. *)
Lemma chunking_changes_emitted_lines :
  let l1 := Py.lit "{" ++ Lit.status "success" ++ Py.lit "}" in
  let l2 := Py.lit "{" ++ Py.quoted "log" ++ Py.lit ":" ++ Py.quoted "x" ++ Py.lit "}" in
  let response := Utf8.ascii_bytes (l1 ++ [Py.nl] ++ l2) in
  RunScript.emitted [response] = [l1; l2]
  /\ (l2 ∉ RunScript.emitted (RunScript.bytewise response))
  /\ RunScript.emitted [response] <> RunScript.emitted (RunScript.bytewise response)
  /\ RunScript.emitted [Utf8.ascii_bytes (Py.lit "ab")] = [Py.lit "ab"]
  /\ RunScript.emitted (RunScript.bytewise (Utf8.ascii_bytes (Py.lit "ab")))
     = [Py.lit "a"; Py.lit "ab"].
Proof.
  intros l1 l2 response. split_and!.
  - by vm_compute.
  - apply (bool_decide_unpack _). by vm_compute.
  - by vm_compute.
  - by vm_compute.
  - by vm_compute.
Qed.

(** The same reply in [test_full_flow.send_command], with [json.loads] as
    it is on the lines of this run: the two whole lines are objects, every
    other line that comes up is not JSON.  In one chunk the log line is
    printed; byte by byte the session ends before it. *)
Example chunking_changes_full_flow_console :
  let l1 := Py.lit "{" ++ Lit.status "success" ++ Py.lit "}" in
  let l2 := Py.lit "{" ++ Py.quoted "log" ++ Py.lit ":" ++ Py.quoted "x" ++ Py.lit "}" in
  let response := Utf8.ascii_bytes (l1 ++ [Py.nl] ++ l2) in
  let json_loads (line : pystr) : option (TestFullFlow.json Z) :=
    if bool_decide (line = l1)
    then Some (TestFullFlow.JObject
                 [(Py.lit "status", TestFullFlow.JString (Py.lit "success"))])
    else if bool_decide (line = l2)
    then Some (TestFullFlow.JObject
                 [(Py.lit "log", TestFullFlow.JString (Py.lit "x"))])
    else None in
  let py_str (v : TestFullFlow.json Z) : pystr := [] in
  TestFullFlow.emitted Z json_loads py_str [response] = [LogLine (Py.lit "x")]
  /\ TestFullFlow.emitted Z json_loads py_str (RunScript.bytewise response) = [].
Proof. vm_compute. split; reflexivity. Qed.

(** * Further properties of the scripts *)

(** ** The two decoders and the encoder *)

Module CodecFacts.
Import Utf8 Codec.

Lemma byte_val_of z : 0 <= z < 256 -> byte_val (byte_of z) = z.
Proof.
  intros Hz. unfold byte_val, byte_of.
  destruct (Byte.of_N (Z.to_N z)) as [b|] eqn:E.
  - apply Byte.to_of_N in E. rewrite E. lia.
  - apply Byte.of_N_None_iff in E. lia.
Qed.

Lemma byte_val_range b : 0 <= byte_val b < 256.
Proof.
  unfold byte_val. pose proof (Byte.to_N_bounded b). lia.
Qed.

Lemma byte_of_val b : byte_of (byte_val b) = b.
Proof.
  unfold byte_val, byte_of. rewrite N2Z.id. by rewrite Byte.of_to_N.
Qed.

Ltac split_decoder :=
  repeat match goal with
  | |- context [match ?s with [] => _ | _ :: _ => _ end] =>
      is_var s; destruct s
  | |- context [if ?c then _ else _] => destruct c eqn:?
  end.

(** Where the strict decoder succeeds, the lenient one gives the same
    text. *)
Lemma strict_then_replace n : forall s t,
  (length s <= n)%nat ->
  decode_strict s = Some t -> decode_replace s = t.
Proof.
  induction n as [|n IH]; intros s t Hn.
  - destruct s; [|simpl in Hn; lia]. by intros [= <-].
  - destruct s as [|b0 s]; [by intros [= <-]|].
    simpl in Hn.
    cbn [decode_strict decode_replace].
    split_decoder; try discriminate; simpl in Hn;
      intros (t' & Ht & ->)%fmap_Some; f_equal; apply IH;
      ((simpl; lia) || done).
Qed.

Ltac zbool :=
  repeat (match goal with
          | |- context [?a <? ?b] => destruct (Z.ltb_spec a b); try lia
          | |- context [?a <=? ?b] => destruct (Z.leb_spec a b); try lia
          | |- context [?a =? ?b] => destruct (Z.eqb_spec a b); try lia
          end; cbn [andb orb negb]).

Lemma digits2 c :
  c = 64 * (c / 64) + c mod 64 /\ 0 <= c mod 64 < 64.
Proof. split; [apply Z.div_mod; lia|apply Z.mod_pos_bound; lia]. Qed.

Lemma digits3 c :
  c = 4096 * (c / 4096) + 64 * ((c / 64) mod 64) + c mod 64
  /\ 0 <= (c / 64) mod 64 < 64 /\ 0 <= c mod 64 < 64.
Proof.
  destruct (digits2 c) as [H1 H2]. destruct (digits2 (c / 64)) as [H3 H4].
  rewrite Z.div_div in H3 by lia. change (64 * 64) with 4096 in H3. lia.
Qed.

Lemma digits4 c :
  c = 262144 * (c / 262144) + 4096 * ((c / 4096) mod 64)
      + 64 * ((c / 64) mod 64) + c mod 64
  /\ 0 <= (c / 4096) mod 64 < 64 /\ 0 <= (c / 64) mod 64 < 64
  /\ 0 <= c mod 64 < 64.
Proof.
  destruct (digits3 c) as (H1 & H2 & H3).
  destruct (digits2 (c / 4096)) as [H4 H5].
  rewrite Z.div_div in H4 by lia. change (4096 * 64) with 262144 in H4. lia.
Qed.

(** The bytes of one code point decode to that code point. *)
Lemma decode_encode_char c b rest :
  encode_char c = Some b ->
  decode_strict (b ++ rest) = cons c <$> decode_strict rest.
Proof.
  unfold encode_char. zbool; intros [= <-]; cbn [app decode_strict].
  - rewrite byte_val_of by lia. zbool. done.
  - destruct (digits2 c) as [Hc Hd].
    generalize dependent (c / 64). generalize dependent (c mod 64).
    intros y Hy x Hx. rewrite !byte_val_of by lia.
    unfold is_continuation. zbool. do 2 f_equal. lia.
  - destruct (digits3 c) as (Hc & Hb & Hd).
    generalize dependent (c / 4096). generalize dependent ((c / 64) mod 64).
    generalize dependent (c mod 64).
    intros z Hz y Hy x Hx. rewrite !byte_val_of by lia.
    unfold is_continuation. zbool; do 2 f_equal; lia.
  - destruct (digits3 c) as (Hc & Hb & Hd).
    generalize dependent (c / 4096). generalize dependent ((c / 64) mod 64).
    generalize dependent (c mod 64).
    intros z Hz y Hy x Hx. rewrite !byte_val_of by lia.
    unfold is_continuation. zbool; do 2 f_equal; lia.
  - destruct (digits4 c) as (Hc & Ha & Hb & Hd).
    generalize dependent (c / 262144). generalize dependent ((c / 4096) mod 64).
    generalize dependent ((c / 64) mod 64). generalize dependent (c mod 64).
    intros z Hz y Hy x Hx u Hu. rewrite !byte_val_of by lia.
    unfold is_continuation. zbool; do 2 f_equal; lia.
Qed.

(** Encoding a text and decoding the bytes strictly gives it back. *)
Lemma decode_encode text : forall bs,
  encode text = Some bs -> decode_strict bs = Some text.
Proof.
  induction text as [|c text IH]; intros bs; simpl.
  - by intros [= <-].
  - destruct (encode_char c) as [b|] eqn:Ec; [|done].
    destruct (encode text) as [bs'|]; [|done]. intros [= <-].
    by rewrite (decode_encode_char c b bs' Ec), (IH bs' eq_refl).
Qed.

Ltac zhyp :=
  unfold is_continuation in *;
  repeat match goal with
  | H : (_ || _) = false |- _ => apply orb_false_iff in H as [? ?]
  | H : (_ && _) = true |- _ => apply andb_true_iff in H as [? ?]
  | H : (_ && _) = false |- _ => apply andb_false_iff in H as [?|?]
  | H : negb _ = false |- _ => apply negb_false_iff in H
  | H : negb _ = true |- _ => apply negb_true_iff in H
  | H : (_ <? _) = true |- _ => apply Z.ltb_lt in H
  | H : (_ <? _) = false |- _ => apply Z.ltb_ge in H
  | H : (_ <=? _) = true |- _ => apply Z.leb_le in H
  | H : (_ <=? _) = false |- _ => apply Z.leb_gt in H
  | H : (_ =? _) = true |- _ => apply Z.eqb_eq in H
  | H : (_ =? _) = false |- _ => apply Z.eqb_neq in H
  | H : (if ?c then _ else _) = _ |- _ => destruct c eqn:?
  end.

Lemma undigits x y : 0 <= y < 64 -> (64 * x + y) / 64 = x /\ (64 * x + y) mod 64 = y.
Proof.
  intros Hy. split.
  - symmetry. apply (Z.div_unique _ _ x y); lia.
  - symmetry. apply (Z.mod_unique _ _ x y); lia.
Qed.

Lemma encode_char_1 b :
  byte_val b < 128 -> encode_char (byte_val b) = Some [b].
Proof.
  intros H. pose proof (byte_val_range b). unfold encode_char.
  zbool. by rewrite byte_of_val.
Qed.

Lemma encode_char_2 b0 b1 :
  194 <= byte_val b0 < 224 -> 128 <= byte_val b1 <= 191 ->
  encode_char ((byte_val b0 - 192) * 64 + (byte_val b1 - 128)) = Some [b0; b1].
Proof.
  intros H0 H1. unfold encode_char.
  destruct (undigits (byte_val b0 - 192) (byte_val b1 - 128)) as [Hd Hm]; [lia|].
  replace ((byte_val b0 - 192) * 64 + (byte_val b1 - 128))
    with (64 * (byte_val b0 - 192) + (byte_val b1 - 128)) by lia.
  zbool. rewrite Hd, Hm.
  replace (192 + (byte_val b0 - 192)) with (byte_val b0) by lia.
  replace (128 + (byte_val b1 - 128)) with (byte_val b1) by lia.
  by rewrite !byte_of_val.
Qed.

Lemma encode_char_3 b0 b1 b2 :
  224 <= byte_val b0 < 240 -> 128 <= byte_val b1 <= 191 ->
  128 <= byte_val b2 <= 191 ->
  (byte_val b0 = 224 -> 160 <= byte_val b1) ->
  (byte_val b0 = 237 -> byte_val b1 < 160) ->
  encode_char ((byte_val b0 - 224) * 4096 + (byte_val b1 - 128) * 64
               + (byte_val b2 - 128)) = Some [b0; b1; b2].
Proof.
  intros H0 H1 H2 Ha Hb. unfold encode_char.
  set (x := byte_val b0 - 224). set (y := byte_val b1 - 128).
  set (z := byte_val b2 - 128).
  replace (x * 4096 + y * 64 + z) with (64 * (64 * x + y) + z) by lia.
  destruct (undigits (64 * x + y) z) as [Hd Hm]; [lia|].
  destruct (undigits x y) as [Hd' Hm']; [lia|].
  assert (Hq : (64 * (64 * x + y) + z) / 4096 = x).
  { change 4096 with (64 * 64). rewrite <- Z.div_div by lia. by rewrite Hd, Hd'. }
  rewrite Hq, Hd, Hm, Hm'.
  assert (Hx : 0 <= x < 16 /\ 0 <= y < 64 /\ 0 <= z < 64
               /\ (x = 0 -> 32 <= y) /\ (x = 13 -> y < 32))
    by (unfold x, y, z; lia).
  zbool; unfold x, y, z;
    replace (224 + (byte_val b0 - 224)) with (byte_val b0) by lia;
    replace (128 + (byte_val b1 - 128)) with (byte_val b1) by lia;
    replace (128 + (byte_val b2 - 128)) with (byte_val b2) by lia;
    by rewrite !byte_of_val.
Qed.

Lemma encode_char_4 b0 b1 b2 b3 :
  240 <= byte_val b0 < 245 -> 128 <= byte_val b1 <= 191 ->
  128 <= byte_val b2 <= 191 -> 128 <= byte_val b3 <= 191 ->
  (byte_val b0 = 240 -> 144 <= byte_val b1) ->
  (byte_val b0 = 244 -> byte_val b1 < 144) ->
  encode_char ((byte_val b0 - 240) * 262144 + (byte_val b1 - 128) * 4096
               + (byte_val b2 - 128) * 64 + (byte_val b3 - 128))
  = Some [b0; b1; b2; b3].
Proof.
  intros H0 H1 H2 H3 Ha Hb. unfold encode_char.
  set (x := byte_val b0 - 240). set (y := byte_val b1 - 128).
  set (z := byte_val b2 - 128). set (u := byte_val b3 - 128).
  replace (x * 262144 + y * 4096 + z * 64 + u)
    with (64 * (64 * (64 * x + y) + z) + u) by lia.
  destruct (undigits (64 * (64 * x + y) + z) u) as [Hd Hm]; [lia|].
  destruct (undigits (64 * x + y) z) as [Hd' Hm']; [lia|].
  destruct (undigits x y) as [Hd'' Hm'']; [lia|].
  assert (Hq : (64 * (64 * (64 * x + y) + z) + u) / 4096 = 64 * x + y).
  { change 4096 with (64 * 64). rewrite <- Z.div_div by lia. by rewrite Hd, Hd'. }
  assert (Hr : (64 * (64 * (64 * x + y) + z) + u) / 262144 = x).
  { change 262144 with (4096 * 64). rewrite <- Z.div_div by lia.
    by rewrite Hq, Hd''. }
  rewrite Hr, Hq, Hd, Hm, Hm', Hm''.
  assert (Hx : 0 <= x < 5 /\ 0 <= y < 64 /\ 0 <= z < 64 /\ 0 <= u < 64
               /\ (x = 0 -> 16 <= y) /\ (x = 4 -> y < 16))
    by (unfold x, y, z, u; lia).
  zbool; unfold x, y, z, u;
    replace (240 + (byte_val b0 - 240)) with (byte_val b0) by lia;
    replace (128 + (byte_val b1 - 128)) with (byte_val b1) by lia;
    replace (128 + (byte_val b2 - 128)) with (byte_val b2) by lia;
    replace (128 + (byte_val b3 - 128)) with (byte_val b3) by lia;
    by rewrite !byte_of_val.
Qed.

(** What the strict decoder accepts is the encoding of what it returns. *)
Lemma encode_decode n : forall s t,
  (length s <= n)%nat ->
  decode_strict s = Some t -> encode t = Some s.
Proof.
  induction n as [|n IH]; intros s t Hn.
  - destruct s; [|simpl in Hn; lia]. by intros [= <-].
  - destruct s as [|b0 s]; [by intros [= <-]|].
    simpl in Hn. cbn [decode_strict].
    split_decoder; try discriminate; simpl in Hn;
      intros (t' & Ht & ->)%fmap_Some; cbn [encode];
      (apply IH in Ht; [rewrite Ht | simpl; lia]); zhyp.
    all: first
      [ rewrite encode_char_1 by lia
      | rewrite encode_char_2 by lia
      | rewrite encode_char_3 by lia
      | rewrite encode_char_4 by lia ]; done.
Qed.

End CodecFacts.

(** X1.  Every text of scalar values has an encoding, and the bytes decode
    back to the text, with the strict decoder and with the lenient one: the
    replacement character never comes from bytes that a script encoded. *)
Theorem utf8_round_trip (text : pystr) :
  Forall scalar text ->
  exists bs,
    Codec.encode text = Some bs
    /\ Codec.decode_strict bs = Some text
    /\ Utf8.decode_replace bs = text.
Proof.
  intros Hs.
  assert (He : exists bs, Codec.encode text = Some bs).
  { induction Hs as [|c text [Hc Hn] _ [bs IH]]; [by exists []|].
    simpl. rewrite IH.
    assert (exists b, Codec.encode_char c = Some b) as [b ->]; [|by eexists].
    unfold Codec.encode_char. CodecFacts.zbool; by eexists. }
  destruct He as [bs He]. exists bs.
  pose proof (CodecFacts.decode_encode text bs He) as Hd.
  split_and!; [done|done|].
  by apply (CodecFacts.strict_then_replace (length bs)).
Qed.

(** The command of [run_script.py] ends with a line feed; here a text with
    characters of one, two, three and four bytes. *)
Lemma utf8_round_trip_witness :
  let text := [65; 233; 25171; 128229; 10] in
  exists bs,
    Codec.encode text = Some bs
    /\ Codec.decode_strict bs = Some text
    /\ Utf8.decode_replace bs = text.
Proof.
  intros text. apply utf8_round_trip.
  repeat constructor; unfold scalar; lia.
Defined.

(** X2.  Where [all_data.decode('utf-8')] succeeds, the bytes are exactly
    the encoding of the text it returns (no second byte form of a text is
    accepted), and the lenient decoder, used for the raw dump of the same
    buffer, returns the same text. *)
Theorem strict_decode_is_canonical (s : bytes) (text : pystr) :
  Codec.decode_strict s = Some text ->
  Codec.encode text = Some s /\ Utf8.decode_replace s = text.
Proof.
  intros H. split.
  - by apply (CodecFacts.encode_decode (length s)).
  - by apply (CodecFacts.strict_then_replace (length s)).
Qed.

Lemma strict_decode_is_canonical_witness :
  Codec.encode [123; 20013; 125] = Some [x7b; xe4; xb8; xad; x7d]
  /\ Utf8.decode_replace [x7b; xe4; xb8; xad; x7d] = [123; 20013; 125].
Proof.
  apply strict_decode_is_canonical. reflexivity.
Defined.

(** ** The buffer holds what the reads brought *)

Module BufferFacts.

Lemma gen_loop_log timeout rs : forall all_data calls why buf calls',
  GenAndRun.read_loop timeout all_data calls rs = Some (why, buf, calls') ->
  exists k, (k <= length rs)%nat
    /\ buf = all_data ++ received k rs
    /\ calls' = calls ++ repeat (RecvCall 4096) k.
Proof.
  induction rs as [|[now r] rs IH]; intros all_data calls why buf calls';
    simpl; [done|].
  destruct (Qltb now timeout); simpl.
  2:{ intros [= _ <- <-]. exists 0%nat. simpl. rewrite !app_nil_r.
      split_and!; [lia|done|done]. }
  destruct r as [chunk|later|msg].
  - destruct chunk as [|b chunk]; simpl.
    + intros [= _ <- <-]. exists 1%nat. simpl. rewrite !app_nil_r.
      split_and!; [lia|done|done].
    + destruct (GenAndRun.completion_check _).
      * intros [= _ <- <-]. exists 1%nat. simpl. rewrite !app_nil_r.
        split_and!; [lia|done|done].
      * intros H. apply IH in H as (k & Hk & -> & ->).
        exists (S k). simpl. rewrite <- !app_assoc.
        split_and!; [lia|done|done].
  - intros [= _ <- <-]. exists 1%nat. simpl. rewrite !app_nil_r.
    split_and!; [lia|done|done].
  - intros [= _ <- <-]. exists 1%nat. simpl. rewrite !app_nil_r.
    split_and!; [lia|done|done].
Qed.

Lemma run_loop_buffer rs : forall st why st',
  RunScript.read_loop st rs = Some (why, st') ->
  exists k, (k <= length rs)%nat
    /\ RunScript.all_data st' = RunScript.all_data st ++ received k rs
    /\ recvs (RunScript.calls st') = (recvs (RunScript.calls st) + k)%nat.
Proof.
  induction rs as [|[now r] rs IH]; intros st why st'; simpl; [done|].
  destruct (Qltb now 180); simpl.
  2:{ intros [= _ <-]. exists 0%nat. rewrite app_nil_r. split; [lia|]. split; [done|lia]. }
  destruct r as [chunk|later|msg].
  - destruct chunk as [|b chunk]; simpl.
    + intros [= _ <-]. exists 1%nat. simpl.
      rewrite app_nil_r, CloseFacts.recvs_app. simpl. split; [lia|]. split; [done|lia].
    + destruct (RunScript.completion_check _).
      * intros [= _ <-]. exists 1%nat.
        rewrite RunFacts.print_lines_all_data, CloseFacts.run_print_lines_calls.
        simpl. rewrite app_nil_r, CloseFacts.recvs_app. simpl.
        split; [lia|]. split; [done|lia].
      * intros H. apply IH in H as (k & Hk & Ha & Hc).
        rewrite RunFacts.print_lines_all_data in Ha.
        rewrite CloseFacts.run_print_lines_calls in Hc. simpl in Ha, Hc.
        rewrite CloseFacts.recvs_app in Hc. simpl in Hc.
        exists (S k). simpl. split; [lia|].
        split; [by rewrite Ha, <- app_assoc|lia].
  - intros H. apply IH in H as (k & Hk & Ha & Hc). simpl in Ha, Hc.
    rewrite CloseFacts.recvs_app in Hc. simpl in Hc.
    exists (S k). simpl. split; [lia|]. split; [done|lia].
  - intros [= _ <-]. exists 1%nat. simpl.
    rewrite app_nil_r, CloseFacts.recvs_app. simpl. split; [lia|]. split; [done|lia].
Qed.

End BufferFacts.

(** X3.  Whatever ends the loop, [gen_and_run.send_command] has made some
    number [k] of [recv] calls, and returns the decoding of exactly the
    chunks those [k] calls brought, in order: nothing received is dropped or
    repeated.  On the socket it did, in this order: create, set the timeout,
    connect, send the one command line, the [k] reads, close.  The buffer of
    [run_script.py] is likewise what its reads brought. *)
Theorem session_returns_what_was_received :
  (forall cmd timeout w why text calls,
     GenAndRun.send_command cmd timeout w
     = Some (GenAndRun.Returned why text, calls) ->
     exists k, (k <= length (reads w))%nat
       /\ text = Utf8.decode_replace (received k (reads w))
       /\ calls = [Create; SetTimeout timeout; Connect; Sendall (cmd ++ [Py.nl])]
                  ++ repeat (RecvCall 4096) k ++ [Close])
  /\ (forall w why st,
     RunScript.run_script w = inl (Some (why, st)) ->
     exists k, (k <= length (reads w))%nat
       /\ RunScript.all_data st = received k (reads w)
       /\ recvs (RunScript.calls st) = k).
Proof.
  split.
  - intros cmd timeout w why text calls. unfold GenAndRun.send_command.
    destruct (connect_ok w); simpl; [|done].
    destruct (send_ok w); simpl; [|done].
    destruct (GenAndRun.read_loop _ _ _ _) as [[[why' buf] calls']|] eqn:E;
      [|done].
    intros [= _ <- <-].
    apply BufferFacts.gen_loop_log in E as (k & Hk & -> & ->).
    exists k. split; [done|]. split; [done|]. by rewrite <- app_assoc.
  - intros w why st. unfold RunScript.run_script.
    destruct (connect_ok w); simpl; [|done].
    destruct (send_ok w); simpl; [|done].
    destruct (RunScript.read_loop _ _) as [[why' st']|] eqn:E; [|done].
    intros [= _ <-].
    apply BufferFacts.run_loop_buffer in E as (k & Hk & Ha & Hc).
    exists k. simpl in *. rewrite CloseFacts.recvs_app. simpl.
    split; [done|]. split; [done|lia].
Qed.

(** Two chunks, then the peer closes. *)
Lemma session_returns_what_was_received_witness :
  let w := World true true
    [(1%Q, Recv [x7b]); (2%Q, Recv [x61; x62]); (3%Q, Recv [])] in
  GenAndRun.send_command [88] 60 w
  = Some (GenAndRun.Returned PeerClosed [123; 97; 98],
          [Create; SetTimeout 60; Connect; Sendall [88; 10];
           RecvCall 4096; RecvCall 4096; RecvCall 4096; Close])
  /\ exists k, (k <= 3)%nat
       /\ [123; 97; 98] = Utf8.decode_replace (received k (reads w)).
Proof.
  intros w. split; [reflexivity|].
  destruct (proj1 session_returns_what_was_received [88] 60%Q w PeerClosed
              [123; 97; 98] _ eq_refl) as (k & Hk & Ht & _).
  by exists k.
Defined.

(** ** What the identifier scan finds, and where *)

Module MatchFacts.
Import Py GenAndRun.

Lemma search_inv pat s g :
  search pat s = Some g ->
  exists pre s', s = pre ++ s' /\ match_here pat s' = Some g.
Proof.
  induction s as [|c s IH]; simpl.
  - destruct (match_here pat []) eqn:E; [|done].
    intros [= <-]. by exists [], [].
  - destruct (match_here pat (c :: s)) eqn:E.
    + intros [= <-]. by exists [], (c :: s).
    + intros (pre & s' & -> & H)%IH. by exists (c :: pre), s'.
Qed.

Lemma chr_inv c pat s g :
  match_here (Chr c :: pat) s = Some g ->
  exists s', s = c :: s' /\ match_here pat s' = Some g.
Proof.
  simpl. destruct s as [|x s]; [done|].
  destruct (x =? c) eqn:E; [|done]. apply Z.eqb_eq in E as ->. eauto.
Qed.

Lemma chrs_inv lits pat : forall s g,
  match_here (map Chr lits ++ pat) s = Some g ->
  exists s', s = lits ++ s' /\ match_here pat s' = Some g.
Proof.
  induction lits as [|c lits IH]; intros s g; [by exists s|].
  intros (s1 & -> & H)%chr_inv. apply IH in H as (s' & -> & H). eauto.
Qed.

Lemma star_inv cls k s g :
  star cls k s = Some g ->
  exists run s', s = run ++ s' /\ Forall (fun c => cls c = true) run
                 /\ k s' = Some g.
Proof.
  induction s as [|x s IH]; simpl.
  - intros H. by exists [], [].
  - destruct (cls x) eqn:Hx.
    + destruct (star cls k s) as [g'|] eqn:E.
      * intros [= <-]. destruct (IH eq_refl) as (run & s' & -> & Hr & Hk).
        exists (x :: run), s'. split_and!; [done|by constructor|done].
      * intros H. by exists [], (x :: s).
    + intros H. by exists [], (x :: s).
Qed.

Lemma plus_inv cls k : forall s taken g,
  plus cls k taken s = Some g ->
  exists run s' g', s = run ++ s' /\ Forall (fun c => cls c = true) run
                    /\ k s' = Some g' /\ g = (taken ++ run) :: g'.
Proof.
  assert (Hstop : forall s taken g, cons taken <$> k s = Some g ->
    exists run s' g', s = run ++ s' /\ Forall (fun c => cls c = true) run
                      /\ k s' = Some g' /\ g = (taken ++ run) :: g').
  { intros s taken g (g' & Hk & ->)%fmap_Some.
    exists [], s, g'. by rewrite app_nil_r. }
  induction s as [|y s IH]; intros taken g; simpl; [apply Hstop|].
  destruct (cls y) eqn:Hy; [|apply Hstop].
  destruct (plus cls k (taken ++ [y]) s) as [g0|] eqn:E; [|apply Hstop].
  intros [= <-]. apply IH in E as (run & s' & g' & -> & Hr & Hk & ->).
  exists (y :: run), s', g'. split_and!; [done|by constructor|done|].
  by rewrite <- app_assoc.
Qed.

(** A text that does not start with the literal start of a pattern does
    not match it. *)
Lemma chrs_fail lits pat : forall s,
  startswith lits s = false -> match_here (map Chr lits ++ pat) s = None.
Proof.
  induction lits as [|c lits IH]; intros s; simpl; [done|].
  destruct s as [|x s]; [done|]. rewrite Z.eqb_sym.
  destruct (x =? c); simpl; [apply IH|done].
Qed.

Lemma startswith_app_l p a b :
  (length p <= length a)%nat -> startswith p (a ++ b) = startswith p a.
Proof.
  revert a. induction p as [|x p IH]; intros a Hl; simpl; [by destruct a|].
  destruct a as [|y a]; simpl in *; [lia|].
  rewrite IH by lia. done.
Qed.

(** No match of a pattern with literal start [lits] begins inside [pre]
    when [lits] first occurs right after it. *)
Lemma search_first_after lits pat pre rest :
  first_after lits pre ->
  search (map Chr lits ++ pat) (pre ++ lits ++ rest)
  = search (map Chr lits ++ pat) (lits ++ rest).
Proof.
  revert rest. induction pre as [|c pre IH]; intros rest Hf; [done|].
  cbn [app search].
  rewrite chrs_fail.
  - apply IH. intros a b Hab. apply (Hf (c :: a) b). simpl. by rewrite Hab.
  - destruct (startswith lits (c :: pre ++ lits ++ rest)) eqn:E; [|done].
    rewrite app_assoc, app_comm_cons, startswith_app_l in E
      by (simpl; rewrite length_app; lia).
    apply PyFacts.startswith_spec in E as [t Ht].
    assert (t = []) as ->.
    { apply (Hf [] t). simpl. by rewrite <- Ht. }
    rewrite app_nil_r in Ht.
    apply (f_equal length) in Ht. simpl in Ht. rewrite length_app in Ht. lia.
Qed.

(** The check that [first_after] can be settled by. *)
Lemma first_after_check lits pre :
  forallb (fun i => negb (startswith lits (drop i (pre ++ lits))))
    (seq 0 (length pre)) = true ->
  first_after lits pre.
Proof.
  intros H a b Hab. destruct b as [|x b]; [done|]. exfalso.
  rewrite forallb_forall in H.
  assert (Hlen : (length a < length pre)%nat).
  { apply (f_equal length) in Hab. rewrite !length_app in Hab. simpl in Hab. lia. }
  specialize (H (length a)). rewrite in_seq in H.
  rewrite Hab, drop_app_length in H.
  assert (startswith lits (lits ++ x :: b) = true)
    by (apply PyFacts.startswith_spec; eauto).
  rewrite H0 in H. by specialize (H ltac:(lia)).
Qed.

(** What a match of the identifier pattern looks like. *)
Lemma extract_id_inv result v :
  GenAndRun.extract_id result = Some v ->
  v <> [] /\ (Py.dq ∉ v)
  /\ exists pre ws post,
       result = pre ++ id_key ++ ws ++ [Py.dq] ++ v ++ [Py.dq] ++ post
       /\ Forall is_space ws.
Proof.
  unfold GenAndRun.extract_id.
  destruct (GenAndRun.search _ _) as [[|g gs]|] eqn:E; [done| |done].
  intros [= ->].
  apply MatchFacts.search_inv in E as (pre & s & -> & E).
  change GenAndRun.id_pattern
    with (map GenAndRun.Chr id_key
          ++ [GenAndRun.Star Py.isspace; GenAndRun.Chr Py.dq;
              GenAndRun.GroupPlus GenAndRun.not_dq; GenAndRun.Chr Py.dq]) in E.
  apply MatchFacts.chrs_inv in E as (s1 & -> & E).
  cbn [GenAndRun.match_here] in E.
  apply MatchFacts.star_inv in E as (ws & s2 & -> & Hws & E).
  destruct s2 as [|q s2]; [done|].
  destruct (q =? Py.dq) eqn:Hq; [|done]. apply Z.eqb_eq in Hq as ->.
  destruct s2 as [|x s2]; [done|].
  destruct (GenAndRun.not_dq x) eqn:Hx; [|done].
  apply MatchFacts.plus_inv in E as (run & s3 & g' & -> & Hrun & E & [= -> ->]).
  destruct s3 as [|q s3]; [done|].
  destruct (q =? Py.dq) eqn:Hq; [|done]. apply Z.eqb_eq in Hq as ->.
  split_and!; [done| |].
  - intros Hin. simpl in Hin.
    apply elem_of_cons in Hin as [<-|Hin]; [done|].
    rewrite Forall_forall in Hrun. specialize (Hrun _ Hin). done.
  - exists pre, ws, s3. split; [reflexivity|done].
Qed.

End MatchFacts.

(** X4.  Whatever the scan of [gen_and_run.py] and [test_full_flow.py]
    extracts is a non-empty text without a double quote that stands in the
    scanned text between double quotes, after the key [id] in double quotes,
    a colon and white space only. *)
Theorem id_scan_is_sound result v :
  GenAndRun.extract_id result = Some v ->
  v <> [] /\ (Py.dq ∉ v)
  /\ exists pre ws post,
       result = pre ++ id_key ++ ws ++ [Py.dq] ++ v ++ [Py.dq] ++ post
       /\ Forall is_space ws.
Proof. exact (MatchFacts.extract_id_inv result v). Qed.

(** The scan on a reply of two members. *)
Lemma id_scan_is_sound_witness :
  let result := Py.lit "{" ++ Py.quoted "name" ++ Py.lit ":" ++ Py.quoted "n"
                ++ Py.lit "," ++ id_key ++ Py.lit " " ++ Py.quoted "s1"
                ++ Py.lit "}" in
  GenAndRun.extract_id result = Some (Py.lit "s1")
  /\ Py.lit "s1" <> [] /\ (Py.dq ∉ Py.lit "s1").
Proof.
  intros result. split; [reflexivity|].
  destruct (id_scan_is_sound result (Py.lit "s1") eq_refl) as (H1 & H2 & _).
  by split.
Defined.

(** X5.  The scan needs neither a closed object nor the key in first place:
    when the key [id] in double quotes with its colon first occurs right
    after [pre], and white space, a double quote, a non-empty identifier
    without double quotes and a double quote follow, the scan extracts that
    identifier, whatever comes after; so also from a buffer that a timeout
    cut short. *)
Theorem id_scan_finds_first_member pre ws v post :
  first_after id_key pre -> Forall is_space ws -> v <> [] -> Py.dq ∉ v ->
  GenAndRun.extract_id
    (pre ++ id_key ++ ws ++ [Py.dq] ++ v ++ [Py.dq] ++ post) = Some v.
Proof.
  intros Hf Hws Hv Hq. unfold GenAndRun.extract_id.
  change GenAndRun.id_pattern
    with (map GenAndRun.Chr id_key
          ++ [GenAndRun.Star Py.isspace; GenAndRun.Chr Py.dq;
              GenAndRun.GroupPlus GenAndRun.not_dq; GenAndRun.Chr Py.dq]).
  rewrite MatchFacts.search_first_after by done.
  change (map GenAndRun.Chr id_key
          ++ [GenAndRun.Star Py.isspace; GenAndRun.Chr Py.dq;
              GenAndRun.GroupPlus GenAndRun.not_dq; GenAndRun.Chr Py.dq])
    with GenAndRun.id_pattern.
  rewrite (ScanFacts.search_found _ _ [v]); [done|].
  apply (ScanFacts.match_id_member ws v post); done.
Qed.

(** A reply cut off inside the member that follows the identifier. *)
Lemma id_scan_finds_first_member_witness :
  let pre := Py.lit "{" ++ Lit.status "success" ++ Py.lit "," in
  GenAndRun.extract_id
    (pre ++ id_key ++ [] ++ [Py.dq] ++ Py.lit "s1" ++ [Py.dq]
     ++ Py.lit "," ++ Py.quoted "scriptNa") = Some (Py.lit "s1").
Proof.
  intros pre. apply id_scan_finds_first_member.
  - by apply MatchFacts.first_after_check.
  - constructor.
  - discriminate.
  - by apply (bool_decide_unpack _).
Defined.

(** ** [quick_fix.py]: what a run changes *)

Module ReplaceFacts.
Import Py QuickFix.

Lemma contains_cons needle c t :
  contains needle (c :: t) = startswith needle (c :: t) || contains needle t.
Proof. done. Qed.

Lemma occurs_trans a b c : occurs a b -> occurs b c -> occurs a c.
Proof.
  intros (p1 & q1 & ->) (p2 & q2 & ->).
  exists (p2 ++ p1), (q1 ++ q2). by rewrite <- !app_assoc.
Qed.

(** Without an occurrence nothing is replaced. *)
Lemma replace_from_noop old new s :
  contains old s = false -> replace_from old new 0 s = s.
Proof.
  induction s as [|c t IH]; [done|].
  rewrite contains_cons. intros [H1 H2]%orb_false_iff.
  cbn [replace_from]. rewrite H1. by rewrite IH.
Qed.

(** A replacement by a text that is not shorter does not shorten. *)
Lemma replace_from_length_ge old new : forall s k,
  old <> [] -> (length old <= length new)%nat ->
  (length s <= length (replace_from old new k s) + k)%nat.
Proof.
  intros s k Ho Hl. revert k.
  induction s as [|c t IH]; intros k; simpl; [lia|].
  destruct k as [|k].
  - destruct (startswith old (c :: t)).
    + rewrite length_app. specialize (IH (length old - 1)%nat).
      destruct old; [done|]. simpl in *. lia.
    + simpl. specialize (IH 0%nat). lia.
  - specialize (IH k). lia.
Qed.

(** A replacement by a longer text lengthens a text that holds the old
    one. *)
Lemma replace_from_length_gt old new s :
  old <> [] -> (length old < length new)%nat ->
  contains old s = true ->
  (length s < length (replace_from old new 0 s))%nat.
Proof.
  intros Ho Hl. induction s as [|c t IH].
  - destruct old; [done|]. done.
  - rewrite contains_cons. cbn [replace_from].
    destruct (startswith old (c :: t)) eqn:E; simpl.
    + intros _. rewrite length_app.
      pose proof (replace_from_length_ge old new t (length old - 1) Ho
                    ltac:(lia)).
      destruct old; [done|]. simpl in *. lia.
    + intros H. specialize (IH H). lia.
Qed.

(** After a replacement the new text is there. *)
Lemma replace_from_has_new old new s :
  old <> [] ->
  contains old s = true -> occurs new (replace_from old new 0 s).
Proof.
  intros Ho. induction s as [|c t IH].
  - destruct old; [done|]. done.
  - rewrite contains_cons. cbn [replace_from].
    destruct (startswith old (c :: t)) eqn:E; simpl.
    + intros _. by exists [], (replace_from old new (length old - 1) t).
    + intros (pre & post & ->)%IH. by exists (c :: pre), post.
Qed.

Lemma quick_fix_noop content :
  contains import_old content = false ->
  contains handler_old content = false ->
  quick_fix content = content.
Proof.
  intros H1 H2. unfold quick_fix.
  replace (replace import_old import_new content) with content
    by (symmetry; by apply replace_from_noop).
  by apply replace_from_noop.
Qed.

Lemma quick_fix_grows content :
  contains import_old content = true \/ contains handler_old content = true ->
  (length content < length (quick_fix content))%nat.
Proof.
  intros Hocc. unfold quick_fix.
  set (t := replace import_old import_new content).
  pose proof (replace_from_length_ge import_old import_new content 0
    ltac:(done) ltac:(simpl; lia)) as H1.
  pose proof (replace_from_length_ge handler_old handler_new t 0
    ltac:(done) ltac:(simpl; lia)) as H2.
  destruct (contains import_old content) eqn:E1.
  - pose proof (replace_from_length_gt import_old import_new content
      ltac:(done) ltac:(simpl; lia) E1) as H.
    unfold t in *. simpl in *. lia.
  - assert (t = content) as Ht by (by apply replace_from_noop).
    destruct Hocc as [H|H]; [congruence|]. rewrite Ht.
    pose proof (replace_from_length_gt handler_old handler_new content
      ltac:(done) ltac:(simpl; lia) H) as H3.
    simpl in *. lia.
Qed.

End ReplaceFacts.

(** ** [quick_fix.py]: the file before and after *)

Module FileFacts.
Import Py Codec QuickFix.

(** The replacements leave the text as it is exactly when neither pattern
    occurs in it. *)
Lemma quick_fix_fixed_iff content :
  quick_fix content = content <->
  ~ occurs import_old content /\ ~ occurs handler_old content.
Proof.
  rewrite <- !PyFacts.contains_spec. split.
  - intros Heq.
    destruct (contains import_old content) eqn:E1;
      destruct (contains handler_old content) eqn:E2;
      try (split; congruence);
      (assert (length content < length (quick_fix content))%nat
         by (apply ReplaceFacts.quick_fix_grows; auto));
      rewrite Heq in *; lia.
  - intros [H1 H2]. apply ReplaceFacts.quick_fix_noop.
    + by destruct (contains import_old content).
    + by destruct (contains handler_old content).
Qed.

(** A text has an encoding exactly when each of its characters has one. *)
Lemma encode_some_iff text :
  is_Some (encode text) <-> Forall (fun c => is_Some (encode_char c)) text.
Proof.
  induction text as [|c text IH]; simpl.
  - split; [constructor|by eexists].
  - rewrite Forall_cons, <- IH.
    destruct (encode_char c), (encode text); split;
      try (intros [? [=]]); try (intros [[? [=]] [? [=]]]);
      try (by intros; split; eexists); by eexists.
Qed.

Lemma read_newlines_forall (P : Z -> Prop) : forall s,
  P nl -> Forall P s -> Forall P (read_newlines s).
Proof.
  intros s Hnl. induction s as [s IH] using (induction_ltof1 _ (@length Z)).
  unfold ltof in IH. intros Hs. destruct s as [|c t]; [constructor|].
  apply Forall_cons in Hs as [Hc Ht]. cbn [read_newlines].
  case_bool_decide.
  - apply Forall_cons_2; [done|]. destruct t as [|d t']; [constructor|].
    apply Forall_cons in Ht as [Hd Ht']. case_bool_decide.
    + apply IH; [simpl; lia|done].
    + apply IH; [simpl; lia|by apply Forall_cons_2].
  - apply Forall_cons_2; [done|]. apply IH; [simpl; lia|done].
Qed.

Lemma replace_from_forall (P : Z -> Prop) old new : forall s k,
  Forall P new -> Forall P s -> Forall P (replace_from old new k s).
Proof.
  intros s k Hnew. revert k.
  induction s as [|c t IH]; intros k Hs; [constructor|].
  apply Forall_cons in Hs as [Hc Ht]. cbn [replace_from].
  destruct k as [|k]; [|by apply IH].
  destruct (startswith old (c :: t)).
  - apply Forall_app_2; [done|by apply IH].
  - apply Forall_cons_2; [done|by apply IH].
Qed.

Lemma write_newlines_forall (P : Z -> Prop) os s :
  Forall P (linesep os) -> Forall P s -> Forall P (write_newlines os s).
Proof.
  intros Hsep. unfold write_newlines.
  induction 1 as [|c t Hc _ IH]; simpl; [constructor|].
  apply Forall_app_2; [|done].
  case_bool_decide; [done|by apply Forall_cons_2].
Qed.

(** A text without carriage return is read as it is, and on a platform
    whose line separator is the line feed every text is written as it
    is. *)
Lemma read_newlines_plain s : cr ∉ s -> read_newlines s = s.
Proof.
  induction s as [|c t IH]; [done|].
  intros [Hc Ht]%not_elem_of_cons. cbn [read_newlines].
  rewrite bool_decide_false by done. by rewrite IH.
Qed.

Lemma write_newlines_posix s : write_newlines Posix s = s.
Proof.
  unfold write_newlines. induction s as [|c t IH]; [done|].
  cbn [flat_map]. rewrite IH. by case_bool_decide; subst.
Qed.

(** What a run on a readable and writable file of valid UTF-8 does. *)
Lemma run_decoded os data text :
  decode_strict data = Some text ->
  exists data',
    run os true (Some data) = (Done, Some data')
    /\ encode (write_newlines os (quick_fix (read_newlines text)))
       = Some data'.
Proof.
  intros Hd. unfold run. rewrite Hd.
  pose proof (CodecFacts.encode_decode (length data) data text
                ltac:(lia) Hd) as He.
  assert (Htext : Forall (fun c => is_Some (encode_char c)) text).
  { apply encode_some_iff. by rewrite He. }
  assert (Hlit : forall s,
    forallb (fun c => bool_decide (is_Some (encode_char c))) s = true ->
    Forall (fun c => is_Some (encode_char c)) s).
  { intros s H. apply Forall_forall. intros c Hc%list_elem_of_In.
    rewrite forallb_forall in H. specialize (H c Hc).
    by apply bool_decide_eq_true in H. }
  destruct (encode (write_newlines os (quick_fix (read_newlines text))))
    as [data'|] eqn:E; [by exists data'|].
  exfalso. apply eq_None_not_Some in E. apply E, encode_some_iff.
  apply write_newlines_forall; [by destruct os; apply Hlit|].
  unfold quick_fix, replace, handler_old, import_old.
  cbn [lit]. 
  apply replace_from_forall; [by apply Hlit|].
  apply replace_from_forall; [by apply Hlit|].
  apply read_newlines_forall; [by eexists|done].
Qed.

End FileFacts.

(** X6.  A run of [quick_fix.py] on a file that it can open and that holds
    valid UTF-8 reaches its last line, and the file then holds the encoding
    of the text it has written.  The replacements leave the text that was
    read as it is exactly when neither of the two patterns occurs in it.
    The file is byte for byte as before exactly when the text written, line
    ends translated for the platform, is the text that the file held; where
    the line separator of the platform is the line feed and the file holds
    no carriage return, that is exactly when neither pattern occurs in the
    file. *)
Theorem quick_fix_changes_iff_pattern os data text :
  Codec.decode_strict data = Some text ->
  let content := QuickFix.read_newlines text in
  exists data',
    QuickFix.run os true (Some data) = (QuickFix.Done, Some data')
    /\ Codec.decode_strict data'
       = Some (QuickFix.write_newlines os (QuickFix.quick_fix content))
    /\ (QuickFix.quick_fix content = content <->
        ~ occurs QuickFix.import_old content
        /\ ~ occurs QuickFix.handler_old content)
    /\ (data' = data <->
        QuickFix.write_newlines os (QuickFix.quick_fix content) = text)
    /\ (os = QuickFix.Posix -> QuickFix.cr ∉ text ->
        (data' = data <->
         ~ occurs QuickFix.import_old text
         /\ ~ occurs QuickFix.handler_old text)).
Proof.
  intros Hd content.
  destruct (FileFacts.run_decoded os data text Hd) as (data' & Hrun & He).
  fold content in He.
  pose proof (CodecFacts.decode_encode _ _ He) as Hd'.
  pose proof (CodecFacts.encode_decode (length data) data text
                ltac:(lia) Hd) as Het.
  assert (Hsame : data' = data <->
    QuickFix.write_newlines os (QuickFix.quick_fix content) = text).
  { split; [intros ->; congruence|]. intros Heq. rewrite Heq in He. congruence. }
  exists data'. split_and!; [done|done|apply FileFacts.quick_fix_fixed_iff|done|].
  intros -> Hcr. rewrite Hsame, FileFacts.write_newlines_posix.
  unfold content. rewrite FileFacts.read_newlines_plain by done.
  apply FileFacts.quick_fix_fixed_iff.
Qed.

(** A file of two lines without either pattern: on a platform with the line
    feed it is left as it was; with carriage returns in it, it is rewritten
    with line feeds. *)
Lemma quick_fix_changes_iff_pattern_witness :
  let data := Utf8.ascii_bytes (Py.lit "use a::{b, c};" ++ [Py.nl]) in
  let dos := Utf8.ascii_bytes (Py.lit "use a;" ++ [QuickFix.cr; Py.nl]) in
  QuickFix.run QuickFix.Posix true (Some data) = (QuickFix.Done, Some data)
  /\ QuickFix.run QuickFix.Posix true (Some dos)
     = (QuickFix.Done, Some (Utf8.ascii_bytes (Py.lit "use a;" ++ [Py.nl]))).
Proof.
  intros data dos. split; [|by vm_compute].
  destruct (quick_fix_changes_iff_pattern QuickFix.Posix data
              (Py.lit "use a::{b, c};" ++ [Py.nl]) eq_refl)
    as (data' & Hrun & _ & _ & _ & Hiff).
  rewrite Hrun. do 2 f_equal. apply Hiff; [done| |].
  - by vm_compute; intros H; repeat (apply elem_of_cons in H as [H|H]; [done|]);
      apply elem_of_nil in H.
  - split; intros H%PyFacts.contains_spec; by vm_compute in H.
Defined.

(** X7.  A run of [quick_fix.py] that changes the text makes it longer and
    leaves one of the two patterns in it: the text it writes is again one
    that a run changes, so every further run inserts the names once
    more. *)
Theorem quick_fix_never_settles content :
  occurs QuickFix.import_old content \/ occurs QuickFix.handler_old content ->
  let fixed := QuickFix.quick_fix content in
  (length content < length fixed)%nat
  /\ (occurs QuickFix.import_old fixed \/ occurs QuickFix.handler_old fixed)
  /\ QuickFix.quick_fix fixed <> fixed.
Proof.
  intros Hocc fixed. rewrite <- !PyFacts.contains_spec in Hocc.
  assert (Hkeep : occurs QuickFix.import_old fixed
                  \/ occurs QuickFix.handler_old fixed).
  { unfold fixed, QuickFix.quick_fix.
    set (t := QuickFix.replace QuickFix.import_old QuickFix.import_new content).
    destruct (Py.contains QuickFix.handler_old t) eqn:E.
    - right. eapply ReplaceFacts.occurs_trans;
        [|by apply ReplaceFacts.replace_from_has_new].
      by exists [], ([Py.nl] ++ Py.lit "            get_numbers_by_files,").
    - replace (QuickFix.replace QuickFix.handler_old QuickFix.handler_new t)
        with t by (symmetry; by apply ReplaceFacts.replace_from_noop).
      destruct (Py.contains QuickFix.import_old content) eqn:E1.
      + left. eapply ReplaceFacts.occurs_trans;
          [|by apply ReplaceFacts.replace_from_has_new].
        by exists [], (Py.lit " get_numbers_by_files,").
      + assert (t = content) as Ht
          by (apply ReplaceFacts.replace_from_noop; done).
        rewrite Ht in E. destruct Hocc; congruence. }
  split_and!; [by apply ReplaceFacts.quick_fix_grows|done|].
  intros Heq.
  assert (length fixed < length (QuickFix.quick_fix fixed))%nat.
  { apply ReplaceFacts.quick_fix_grows.
    rewrite <- !PyFacts.contains_spec in Hkeep. exact Hkeep. }
  rewrite Heq in *. lia.
Qed.

(** One import line: the second run adds the name again. *)
Lemma quick_fix_never_settles_witness :
  let content := Py.lit "use x::{get_distinct_industries_cmd, y};" in
  QuickFix.quick_fix content
  = Py.lit "use x::{get_distinct_industries_cmd, get_numbers_by_files, y};"
  /\ QuickFix.quick_fix (QuickFix.quick_fix content) <> QuickFix.quick_fix content.
Proof.
  intros content. split; [reflexivity|].
  refine (proj2 (proj2 (quick_fix_never_settles content _))).
  left. by exists (Py.lit "use x::{"), (Py.lit " y};").
Defined.

(** ** [analyze_xml.py]: the elements found *)

Module XmlFacts.
Import Py AnalyzeXml.

(** Induction over a tree, with the property for all children at hand. *)
Lemma element_induction (P : element -> Prop) :
  (forall tag attrib children,
     Forall P children -> P (Element tag attrib children)) ->
  forall node, P node.
Proof.
  intros Hstep. fix IH 1. intros [tag attrib children].
  apply Hstep. induction children as [|c cs IHcs]; constructor; [apply IH|done].
Qed.

(** Within the limit the recursion with its growing list is the filter of
    the document order; beyond it the recursion raises. *)
Lemma find_clickable_iter limit : forall node depth acc,
  find_clickable limit node depth acc
  = if decide (height node <= limit)%nat
    then Some (acc ++ map (fun p => describe (snd p) (fst p))
                 (List.filter (fun p => clickable (snd p)) (iter node depth)))
    else None.
Proof.
  induction limit as [|limit IH]; intros [tag attrib children] depth acc.
  - cbn [find_clickable height]. by rewrite decide_False by lia.
  - cbn [find_clickable children_of iter height List.filter snd fst].
    assert (Hkids : forall acc0,
      fold_left (fun a child => a ≫= find_clickable limit child (S depth))
        children acc0
      = if decide (foldr (fun child h => max (height child) h) 0 children
                   <= limit)%nat
        then (fun a => a ++ map (fun p => describe (snd p) (fst p))
                (List.filter (fun p => clickable (snd p))
                   (flat_map (fun child => iter child (S depth)) children)))
             <$> acc0
        else None).
    { induction children as [|c cs IHcs]; intros acc0;
        cbn [fold_left foldr flat_map].
      - case_decide; [|lia].
        destruct acc0; simpl; [by rewrite app_nil_r|done].
      - rewrite IHcs. destruct acc0 as [a|]; simpl.
        + rewrite IH. repeat case_decide; try lia; simpl; try done.
          by rewrite List.filter_app, List.map_app, app_assoc.
        + by repeat case_decide. }
    rewrite Hkids.
    repeat case_decide; try lia; simpl; [|done].
    destruct (clickable (Element tag attrib children)); simpl; [|done].
    by rewrite <- app_assoc.
Qed.

Lemma unknown_nonempty c : unknown c <> [].
Proof. done. Qed.

Lemma display_name_nonempty node depth :
  display_name (describe node depth) <> [].
Proof.
  unfold describe, py_or. simpl.
  destruct (get node "text") eqn:E1; simpl; [|done].
  destruct (get node "content-desc") eqn:E2; simpl; [|done].
  destruct (get node "resource-id") eqn:E3; simpl; [|done].
  done.
Qed.

(** Every element of a tree lies above its height. *)
Lemma iter_depth node : forall depth d n,
  (d, n) ∈ iter node depth -> (depth <= d < depth + height node)%nat.
Proof.
  induction node as [tag attrib children IH] using element_induction.
  intros depth d n. cbn [iter height].
  intros [[= -> ->]|Hin]%elem_of_cons; [lia|].
  apply list_elem_of_In, in_flat_map in Hin as (c & Hc & Hin).
  apply list_elem_of_In in Hin. apply list_elem_of_In in Hc.
  rewrite Forall_forall in IH. specialize (IH c Hc (S depth) d n Hin).
  assert (height c <= foldr (fun child h => max (height child) h) 0 children)%nat.
  { clear -Hc. induction Hc as [c cs|c c' cs _ IHc]; simpl; lia. }
  lia.
Qed.

End XmlFacts.

(** X8.  For a tree of at most [limit] levels, where [limit] is the nesting
    of calls that the interpreter allows to [find_clickable],
    [analyze_clickable_elements] prints nothing and lists exactly the
    elements whose attribute [clickable] is the text [true], each once, in
    document order (a parent before its children), each with its depth below
    the root.  For a tree of more levels the recursion raises, whether an
    element of it is clickable or not: the error is printed and the empty
    list returned. *)
Theorem clickable_elements_in_document_order (limit : nat)
    (root : AnalyzeXml.element) :
  AnalyzeXml.analyze_clickable_elements limit (Some root)
  = if decide (AnalyzeXml.height root <= limit)%nat
    then ([], map (fun p => AnalyzeXml.describe (snd p) (fst p))
                (List.filter (fun p => AnalyzeXml.clickable (snd p))
                   (AnalyzeXml.iter root 0)))
    else ([AnalyzeXml.ParseFailed], []).
Proof.
  unfold AnalyzeXml.analyze_clickable_elements.
  rewrite XmlFacts.find_clickable_iter. by case_decide.
Qed.

(** X9.  Every element that [analyze_clickable_elements] reports has a
    display name that is not empty, and a depth smaller than the height of
    the tree, which is within the limit of the recursion; when the file
    cannot be parsed nothing is reported. *)
Theorem reported_elements_are_named (limit : nat)
    (parsed : option AnalyzeXml.element) (info : AnalyzeXml.element_info) :
  info ∈ (AnalyzeXml.analyze_clickable_elements limit parsed).2 ->
  AnalyzeXml.display_name info <> []
  /\ exists root, parsed = Some root
       /\ (AnalyzeXml.depth info < AnalyzeXml.height root <= limit)%nat.
Proof.
  destruct parsed as [root|]; [|by intros ?%elem_of_nil].
  unfold AnalyzeXml.analyze_clickable_elements.
  rewrite XmlFacts.find_clickable_iter.
  case_decide as Hh; [|by intros ?%elem_of_nil]. simpl.
  intros Hin. apply list_elem_of_In, in_map_iff in Hin as ([d n] & <- & Hin).
  apply filter_In in Hin as [Hin _]. apply list_elem_of_In in Hin.
  split; [apply XmlFacts.display_name_nonempty|].
  exists root. split; [done|]. apply XmlFacts.iter_depth in Hin. simpl. lia.
Qed.

(** A root that cannot be clicked, a named button and a nameless view. *)
Lemma reported_elements_are_named_witness :
  let view := AnalyzeXml.Element (Py.lit "node")
    {[ Py.lit "clickable" := Py.lit "true";
       Py.lit "class" := Py.lit "android.view.View" ]} [] in
  let button := AnalyzeXml.Element (Py.lit "node")
    {[ Py.lit "clickable" := Py.lit "true"; Py.lit "text" := Py.lit "OK" ]}
    [view] in
  let root := AnalyzeXml.Element (Py.lit "hierarchy") ∅ [button] in
  let info := AnalyzeXml.describe view 2 in
  AnalyzeXml.analyze_clickable_elements 1000 (Some root)
  = ([], [AnalyzeXml.describe button 1; info])
  /\ AnalyzeXml.analyze_clickable_elements 2 (Some root)
     = ([AnalyzeXml.ParseFailed], [])
  /\ AnalyzeXml.display_name info
     = [26410; 30693; 20803; 32032] ++ Py.lit "(android.view.View)"
  /\ AnalyzeXml.display_name info <> []
  /\ exists root', Some root = Some root'
       /\ (AnalyzeXml.depth info < AnalyzeXml.height root' <= 1000)%nat.
Proof.
  intros view button root info.
  assert (E : AnalyzeXml.analyze_clickable_elements 1000 (Some root)
              = ([], [AnalyzeXml.describe button 1; info])) by (by vm_compute).
  split; [exact E|]. split; [by vm_compute|]. split; [by vm_compute|].
  apply (reported_elements_are_named 1000 (Some root) info).
  rewrite E. right. left.
Defined.

(** ** The streaming loops: what a chunk boundary hides, what is printed *)

Module LineFacts.
Import Py.

(** No piece of a split text holds the separator. *)
Lemma split_no_sep sep s : forall l, l ∈ split sep s -> sep ∉ l.
Proof.
  induction s as [|c s IH]; intros l; simpl.
  - intros ->%list_elem_of_singleton. apply not_elem_of_nil.
  - destruct (c =? sep) eqn:E.
    + intros [->|H]%elem_of_cons; [apply not_elem_of_nil|by apply IH].
    + destruct (split sep s) as [|l0 ls] eqn:Es.
      * intros ->%list_elem_of_singleton.
        intros [->|H]%elem_of_cons; [by rewrite Z.eqb_refl in E|].
        by apply elem_of_nil in H.
      * intros [->|H]%elem_of_cons.
        -- intros [->|H]%elem_of_cons; [by rewrite Z.eqb_refl in E|].
           apply (IH l0); [by left|done].
        -- apply IH. by right.
Qed.

(** What one chunk adds to the console: lines of the chunk, cut to the
    width, and at most the completion message. *)
Lemma surface_lines width stop lines : forall out out' found c,
  Stream.surface width stop lines out = (out', found) ->
  c ∈ out' ->
  c ∈ out \/ c = Done
  \/ exists line, line ∈ lines /\ line <> [] /\ c = Line (take width line).
Proof.
  induction lines as [|l lines IH]; intros out out' found c; simpl.
  - intros [= <- _]. auto.
  - destruct (truthy l) eqn:Hl.
    + destruct (stop l).
      * intros [= <- _].
        intros [[H| ->%list_elem_of_singleton]%elem_of_app
               | ->%list_elem_of_singleton]%elem_of_app; auto.
        right. right. exists l. split_and!; [by left|by destruct l|done].
      * intros H Hc. destruct (IH _ _ _ _ H Hc)
          as [[H1| ->%list_elem_of_singleton]%elem_of_app|[H1|(x & Hx & Hn & ->)]];
          auto.
        -- right. right. exists l. split_and!; [by left|by destruct l|done].
        -- right. right. exists x. split_and!; [by right|done|done].
    + intros H Hc. destruct (IH _ _ _ _ H Hc) as [H1|[H1|(x & Hx & Hn & ->)]];
        auto.
      right. right. exists x. split_and!; [by right|done|done].
Qed.

Lemma take_keeps width (line : pystr) :
  (0 < width)%nat -> line <> [] -> (nl ∉ line) ->
  take width line <> [] /\ (length (take width line) <= width)%nat
  /\ (nl ∉ take width line).
Proof.
  intros Hw Hl Hn. split_and!.
  - destruct line; [done|]. destruct width; [lia|]. done.
  - rewrite length_take. lia.
  - intros H. apply Hn. apply elem_of_take in H as (i & Hi & _).
    by eapply list_elem_of_lookup_2.
Qed.

Lemma stream_loop_well_cut deadline per_read width stop rs :
  (0 < width)%nat ->
  forall out calls why out' calls',
  Stream.stream_loop deadline per_read width stop out calls rs
  = Some (why, out', calls') ->
  Forall (well_cut width) out -> Forall (well_cut width) out'.
Proof.
  intros Hw. induction rs as [|[now r] rs IH];
    intros out calls why out' calls'; simpl; [done|].
  destruct (Qltb now deadline); simpl; [|by intros [= _ <- _]].
  destruct r as [data|later|msg].
  - destruct (nonempty data); [|apply IH].
    destruct (Stream.surface _ _ _ _) as [out1 found] eqn:Es.
    assert (Hout1 : Forall (well_cut width) out -> Forall (well_cut width) out1).
    { intros Ho. apply Forall_forall. intros c Hc.
      destruct (surface_lines _ _ _ _ _ _ _ Es Hc) as [H|[->|(l & Hl & Hn & ->)]].
      - rewrite Forall_forall in Ho. by apply Ho.
      - done.
      - apply take_keeps; [done|done|]. by eapply split_no_sep. }
    destruct found.
    + intros [= _ <- _]. done.
    + intros H Ho. eapply IH; [exact H|by apply Hout1].
  - intros H Ho. eapply IH; [exact H|].
    apply Forall_app. split; [done|]. by repeat constructor.
  - intros [= _ <- _] Ho. apply Forall_app. split; [done|]. by repeat constructor.
Qed.

End LineFacts.

Module DeadlineFacts.
Import Py Stream LoopFacts CloseFacts.

(** Lines without a marker: each non-empty one is printed, cut to the width,
    and nothing else. *)
Lemma surface_unmarked_exact f width lines : forall out,
  Forall (unmarked f) lines ->
  surface width (stop_of f) lines out
  = (out ++ map (fun l => Line (take width l)) (List.filter truthy lines),
     false).
Proof.
  induction lines as [|l lines IH]; intros out H; simpl.
  - by rewrite app_nil_r.
  - apply Forall_cons in H as [Hl H].
    rewrite (StreamFacts.stop_of_unmarked f l Hl).
    destruct (truthy l); [|by apply IH].
    rewrite (IH _ H). simpl. by rewrite <- app_assoc.
Qed.

Lemma no_done_in_lines width (ls : list pystr) :
  Done ∉ map (fun l => Line (take width l)) ls.
Proof. intros (l & H & _)%list_elem_of_fmap. discriminate. Qed.

(** Turns that do not end the loop, then a turn past the deadline. *)
Lemma loop_deadline f pre now r rest :
  Forall (streams_on f) pre ->
  Qltb now (deadline_of f) = false ->
  forall out calls, exists out' calls',
    loop_of f out calls (pre ++ (now, r) :: rest)
    = Some (Deadline, out ++ out', calls')
    /\ (Done ∉ out')
    /\ closes calls' = closes calls
    /\ recvs calls' = (recvs calls + length pre)%nat.
Proof.
  intros Hpre Hnow. unfold loop_of.
  induction Hpre as [|[now0 r0] pre [Hnow0 Hr0] _ IH]; intros out calls.
  - simpl. rewrite Hnow. simpl. exists [], calls.
    rewrite app_nil_r. split_and!; [done|apply not_elem_of_nil|done|lia].
  - simpl in Hnow0, Hr0. cbn [app stream_loop]. rewrite Hnow0. cbn [negb].
    set (calls1 := calls ++ [SetTimeout _; RecvCall 16384]).
    assert (Hc1 : closes calls1 = closes calls
                  /\ recvs calls1 = S (recvs calls)).
    { unfold calls1. rewrite closes_app, recvs_app. simpl. lia. }
    destruct Hc1 as [Hc1 Hr1].
    destruct r0 as [data0|later|msg]; [| |done].
    + destruct (nonempty data0).
      * rewrite (surface_unmarked_exact f (width_of f) _ out Hr0).
        destruct (IH (out ++ map (fun l => Line (take (width_of f) l))
                        (List.filter truthy
                           (split nl (strip (Utf8.decode_replace data0)))))
                     calls1) as (out' & calls' & -> & Hd & Hc & Hr).
        exists (map (fun l => Line (take (width_of f) l))
                  (List.filter truthy
                     (split nl (strip (Utf8.decode_replace data0)))) ++ out'),
          calls'. split_and!.
        -- by rewrite <- !app_assoc.
        -- intros [H|H]%elem_of_app; [by eapply no_done_in_lines|done].
        -- lia.
        -- simpl. lia.
      * destruct (IH out calls1) as (out' & calls' & -> & Hd & Hc & Hr).
        exists out', calls'. split_and!; [done|done|lia|simpl; lia].
    + destruct (IH (out ++ [Waiting (int_of later)]) calls1)
        as (out' & calls' & -> & Hd & Hc & Hr).
      exists ([Waiting (int_of later)] ++ out'), calls'. split_and!.
      * by rewrite <- !app_assoc.
      * intros [H|H]%elem_of_app; [|done].
        by apply list_elem_of_singleton in H.
      * lia.
      * simpl. lia.
Qed.

(** A decidable form of [streams_on], for concrete turns. *)
Lemma streams_on_chunk f now data :
  Qltb now (deadline_of f) = true ->
  forallb (fun l => negb (stop_of f l))
    (split nl (strip (Utf8.decode_replace data))) = true ->
  streams_on f (now, Recv data).
Proof.
  intros Hnow H. split; [done|]. simpl.
  apply Forall_forall. intros l Hl. apply StreamFacts.unmarked_by_stop.
  rewrite forallb_forall in H. apply list_elem_of_In in Hl.
  specialize (H l Hl). by destruct (stop_of f l).
Qed.

Lemma streams_on_timeout f now later :
  Qltb now (deadline_of f) = true -> streams_on f (now, RecvTimeout later).
Proof. by split. Qed.

End DeadlineFacts.

(** X10.  The three streaming functions of [test_ai_agent.py] and
    [test_exclude_live.py] look for their markers in the lines of the chunk
    just received, never in what came before.  So when no chunk on its own
    has a marker line, the function reads on until the clock passes its
    deadline (180 or 300 seconds), whatever the chunks spell when joined:
    it then returns without the completion message, having closed the
    socket once and called [recv] once for each turn. *)
Theorem unmarked_chunks_run_to_deadline f script_id w pre now r rest :
  script_id <> [] ->
  connect_ok w = true -> send_ok w = true ->
  reads w = pre ++ (now, r) :: rest ->
  Forall (streams_on f) pre ->
  Qltb now (deadline_of f) = false ->
  exists out calls,
    run_streamer f script_id w = Some (Stream.Ended Deadline, out, calls)
    /\ (Done ∉ out)
    /\ closes calls = 1%nat
    /\ recvs calls = length pre.
Proof.
  intros Hid Hc Hs Hrs Hpre Hnow.
  assert (Hsess : forall first command,
    exists out calls,
      Stream.session first (deadline_of f)
        (match f with ScriptExecute => 10 | _ => 15 end)
        (width_of f) (stop_of f) command w
      = Some (Stream.Ended Deadline, out, calls)
      /\ (Done ∉ out) /\ closes calls = 1%nat /\ recvs calls = length pre).
  { intros first command. unfold Stream.session.
    rewrite Hc, Hs, Hrs. cbn [negb app].
    destruct (DeadlineFacts.loop_deadline f pre now r rest Hpre Hnow
      [] ([Create; SetTimeout first; Connect] ++ [Sendall command]))
      as (out' & calls' & H & Hd & Hcl & Hre).
    unfold loop_of in H. cbn [app] in H.
    exists out', (calls' ++ [Close]). rewrite H. split; [done|].
    split; [done|]. rewrite LoopFacts.closes_app, CloseFacts.recvs_app. simpl in *. lia. }
  destruct script_id as [|c script_id]; [done|].
  destruct f; simpl; apply Hsess.
Qed.

(** The marker SCRIPT_COMPLETE arrives cut in two by a chunk boundary: the
    joined chunks hold it, neither chunk does, and [test_script_execute]
    runs until 180 seconds have passed. *)
Lemma unmarked_chunks_run_to_deadline_witness :
  let d1 := Utf8.ascii_bytes (Py.lit "step 1" ++ [Py.nl] ++ Py.lit "SCRIPT_COM") in
  let d2 := Utf8.ascii_bytes (Py.lit "PLETE" ++ [Py.nl]) in
  let w := World true true
    [(1%Q, Recv d1); (2%Q, Recv d2); (12%Q, RecvTimeout 12); (181%Q, Recv [])] in
  Py.contains (Py.lit "SCRIPT_COMPLETE") (Utf8.decode_replace (d1 ++ d2)) = true
  /\ exists out calls,
    TestAiAgent.test_script_execute (Some (Py.lit "s1")) w
    = Some (Stream.Ended Deadline, out, calls)
    /\ (Done ∉ out) /\ closes calls = 1%nat /\ recvs calls = 3%nat.
Proof.
  intros d1 d2 w. split; [by vm_compute|].
  refine (unmarked_chunks_run_to_deadline ScriptExecute (Py.lit "s1") w
    [(1%Q, Recv d1); (2%Q, Recv d2); (12%Q, RecvTimeout 12)] 181 (Recv []) []
    _ _ _ _ _ _); [done|done|done|done| |by vm_compute].
  apply Forall_cons_2;
    [apply DeadlineFacts.streams_on_chunk; by vm_compute|].
  apply Forall_cons_2;
    [apply DeadlineFacts.streams_on_chunk; by vm_compute|].
  apply Forall_cons_2; [by apply DeadlineFacts.streams_on_timeout|].
  apply Forall_nil_2.
Defined.

(** X11.  Whatever the peer sends, a response line that one of the three
    streaming functions prints is never empty, never longer than the
    function's width (300 characters, 400 for [test_run_ai_goal]) and holds
    no line feed. *)
Theorem streamed_lines_are_cut f script_id w e out calls :
  run_streamer f script_id w = Some (e, out, calls) ->
  Forall (well_cut (width_of f)) out.
Proof.
  assert (Hsess : forall first per_read command,
    Stream.session first (deadline_of f) per_read (width_of f) (stop_of f)
      command w = Some (e, out, calls) ->
    Forall (well_cut (width_of f)) out).
  { intros first per_read command. unfold Stream.session.
    destruct (negb (connect_ok w)); [by intros [= _ <- _]|].
    destruct (negb (send_ok w)); [by intros [= _ <- _]|].
    destruct (Stream.stream_loop _ _ _ _ _ _ _) as [[[why out1] calls1]|] eqn:El;
      [|done].
    assert (Forall (well_cut (width_of f)) out1).
    { eapply LineFacts.stream_loop_well_cut; [|exact El|done].
      destruct f; simpl; lia. }
    destruct why; by intros [= _ <- _]. }
  destruct f; simpl;
    unfold TestAiAgent.test_script_execute, TestAiAgent.test_run_ai_goal,
      TestExcludeLive.test_execute;
    try (destruct (Stream.has_id _);
         [|intros [= _ <- _]; by repeat constructor]);
    apply Hsess.
Qed.

(** A chunk with a line of 301 characters: 300 of them are printed. *)
Lemma streamed_lines_are_cut_witness :
  let data := Utf8.ascii_bytes (repeat 97 301 ++ [Py.nl] ++ Py.lit "SCRIPT_ERROR") in
  let w := World true true [(1%Q, Recv data)] in
  let out := [Line (repeat 97 300); Line (Py.lit "SCRIPT_ERROR"); Done] in
  TestExcludeLive.test_execute (Some (Py.lit "s1")) w
  = Some (Stream.Ended Sentinel, out,
          [Create; SetTimeout 300; Connect;
           Sendall (Py.lit "SCRIPT_EXECUTE_AUTO:s1" ++ [Py.nl]);
           SetTimeout 15; RecvCall 16384; Close])
  /\ Forall (well_cut 300) out.
Proof.
  intros data w out.
  assert (E : TestExcludeLive.test_execute (Some (Py.lit "s1")) w
    = Some (Stream.Ended Sentinel, out,
          [Create; SetTimeout 300; Connect;
           Sendall (Py.lit "SCRIPT_EXECUTE_AUTO:s1" ++ [Py.nl]);
           SetTimeout 15; RecvCall 16384; Close])) by (by vm_compute).
  split; [exact E|].
  exact (streamed_lines_are_cut Execute (Py.lit "s1") w _ _ _ E).
Defined.

(** ** [generate_script.py]: what is printed while the response arrives *)

Module PrintFacts.
Import Utf8.

Lemma gen_script_prints rs : forall all_data out why buf out',
  GenerateScript.read_loop all_data out rs = Some (why, buf, out') ->
  exists m, (m <= length rs)%nat
    /\ out' = out ++ map (fun i => Line (decode_replace
                                           (all_data ++ received i rs)))
                         (seq 1 m)
    /\ buf = all_data ++ received m rs.
Proof.
  induction rs as [|[now r] rs IH]; intros all_data out why buf out';
    simpl; [done|].
  destruct (Qltb now 60); simpl.
  2:{ intros [= _ <- <-]. exists 0%nat. simpl. rewrite !app_nil_r.
      split_and!; [lia|done|done]. }
  destruct r as [chunk|later|msg].
  - destruct chunk as [|b chunk]; simpl.
    + intros [= _ <- <-]. exists 0%nat. simpl. rewrite !app_nil_r.
      split_and!; [lia|done|done].
    + destruct (GenerateScript.completion_check _).
      * intros [= _ <- <-]. exists 1%nat. simpl. rewrite !app_nil_r.
        split_and!; [lia|done|done].
      * intros H. apply IH in H as (m & Hm & -> & ->).
        exists (S m). split_and!; [lia| |by rewrite <- app_assoc].
        rewrite <- app_assoc. f_equal.
        cbn [seq map received]. rewrite app_nil_r. f_equal.
        rewrite <- (seq_shift m 1), map_map.
        apply map_ext. intros i. simpl. by rewrite <- app_assoc.
  - intros [= _ <- <-]. exists 0%nat. simpl. rewrite !app_nil_r.
    split_and!; [lia|done|done].
  - intros [= _ <- <-]. exists 0%nat. simpl. rewrite !app_nil_r.
    split_and!; [lia|done|done].
Qed.

End PrintFacts.

(** X12.  The loop of [generate_script.py] prints, each time a non-empty
    chunk arrives, the decoding of everything received so far, not of the
    chunk: when it ends after [m] such chunks it has printed [m] texts, the
    [i]-th being the decoding of the first [i] chunks joined, and its buffer
    is the first [m] chunks joined.  Every earlier part of the response is
    so printed again with each later chunk. *)
Theorem generate_script_reprints_buffer rs why buf out :
  GenerateScript.read_loop [] [] rs = Some (why, buf, out) ->
  exists m, (m <= length rs)%nat
    /\ out = map (fun i => Line (Utf8.decode_replace (received i rs)))
                 (seq 1 m)
    /\ buf = received m rs.
Proof.
  intros H. apply PrintFacts.gen_script_prints in H as (m & Hm & -> & ->).
  by exists m.
Qed.

(** The response arrives in three chunks, the second ending inside a
    character of three bytes; the third print is the whole response. *)
Lemma generate_script_reprints_buffer_witness :
  let rs := [(1%Q, Recv [x7b; xe4]); (2%Q, Recv [xb8]);
             (3%Q, Recv [xad; x7d]); (4%Q, Recv [])] in
  GenerateScript.read_loop [] [] rs
  = Some (PeerClosed, [x7b; xe4; xb8; xad; x7d],
          [Line [123; 65533]; Line [123; 65533]; Line [123; 20013; 125]])
  /\ exists m, (m <= 4)%nat
       /\ [Line [123; 65533]; Line [123; 65533]; Line [123; 20013; 125]]
          = map (fun i => Line (Utf8.decode_replace (received i rs)))
                (seq 1 m).
Proof.
  intros rs.
  assert (E : GenerateScript.read_loop [] [] rs
    = Some (PeerClosed, [x7b; xe4; xb8; xad; x7d],
          [Line [123; 65533]; Line [123; 65533]; Line [123; 20013; 125]]))
    by (by vm_compute).
  split; [exact E|].
  destruct (generate_script_reprints_buffer rs _ _ _ E) as (m & Hm & Ho & _).
  by exists m.
Defined.

(** ** [gen_and_run.py] as a whole: two sessions, the second fed by the first *)

Module ScriptFacts.
Import Py Utf8 GenAndRun.

(** The lenient decoder returns scalar values only. *)
Lemma decode_replace_scalar n : forall s,
  (length s <= n)%nat -> Forall scalar (decode_replace s).
Proof.
  assert (Hr : scalar REPLACEMENT) by (unfold scalar, REPLACEMENT; lia).
  induction n as [|n IH]; intros s Hn.
  - destruct s; [constructor|simpl in Hn; lia].
  - destruct s as [|b0 s]; [constructor|].
    simpl in Hn. cbn [decode_replace].
    pose proof (CodecFacts.byte_val_range b0).
    CodecFacts.split_decoder; simpl in Hn;
      repeat match goal with
      | |- Forall _ [] => constructor
      | |- Forall _ (_ :: _) => apply Forall_cons_2
      | |- Forall _ (decode_replace _) => apply IH; simpl; lia
      | |- scalar REPLACEMENT => exact Hr
      end.
    all: CodecFacts.zhyp;
      repeat match goal with
      | b : byte |- _ =>
          lazymatch goal with
          | H : 0 <= byte_val b < 256 |- _ => fail
          | _ => pose proof (CodecFacts.byte_val_range b)
          end
      end; unfold scalar; lia.
Qed.

(** A text of scalar values can be encoded. *)
Lemma encode_scalar text :
  Forall scalar text -> exists bs, Codec.encode text = Some bs.
Proof.
  induction 1 as [|c text [Hc Hn] _ [bs IH]]; [by exists []|].
  simpl. rewrite IH.
  assert (exists b, Codec.encode_char c = Some b) as [b ->]; [|by eexists].
  unfold Codec.encode_char. CodecFacts.zbool; by eexists.
Qed.

(** A check that settles [scalar] on a given text. *)
Lemma scalar_check text :
  forallb (fun c => (0 <=? c) && (c <? 1114112)
                    && negb ((55296 <=? c) && (c <=? 57343))) text = true ->
  Forall scalar text.
Proof.
  intros H. apply Forall_forall. intros c Hc%list_elem_of_In.
  rewrite forallb_forall in H. specialize (H c Hc).
  unfold scalar. lia.
Qed.

Lemma creates_app l1 l2 : creates (l1 ++ l2) = (creates l1 + creates l2)%nat.
Proof.
  induction l1 as [|o l1 IH]; [done|]. destruct o; simpl; rewrite IH; lia.
Qed.

Lemma recv_calls k :
  creates (repeat (RecvCall 4096) k) = 0%nat
  /\ closes (repeat (RecvCall 4096) k) = 0%nat
  /\ forall text, Sendall text ∉ repeat (RecvCall 4096) k.
Proof.
  induction k as [|k (IH1 & IH2 & IH3)]; simpl.
  - split_and!; [done|done|]. intros text. apply not_elem_of_nil.
  - split_and!; [done|done|]. intros text [H|H]%elem_of_cons; [done|].
    by apply (IH3 text).
Qed.

(** What one call of [send_command] does on its socket, and what kind of
    text it returns. *)
Lemma send_command_shape cmd timeout w r calls :
  send_command cmd timeout w = Some (r, calls) ->
  creates calls = 1%nat
  /\ (forall text, Sendall text ∈ calls -> text = cmd ++ [nl])
  /\ match r with
     | Returned _ text => closes calls = 1%nat /\ Forall scalar text
     | Raised _ => closes calls = 0%nat
     end.
Proof.
  unfold send_command.
  destruct (connect_ok w); simpl.
  2:{ intros [= <- <-]. split_and!; [done| |done].
      intros text H. rewrite !elem_of_cons in H.
      destruct H as [H|[H|[H|H]]]; try done. by apply elem_of_nil in H. }
  destruct (send_ok w); simpl.
  2:{ intros [= <- <-]. split_and!; [done| |done].
      intros text H. rewrite !elem_of_cons in H.
      destruct H as [H|[H|[H|[H|H]]]]; try done; [congruence|].
      by apply elem_of_nil in H. }
  destruct (read_loop _ _ _ _) as [[[why buf] calls']|] eqn:E; [|done].
  intros [= <- <-].
  apply BufferFacts.gen_loop_log in E as (k & Hk & -> & ->).
  destruct (recv_calls k) as (Hc & Hl & Hs).
  rewrite !creates_app, !LoopFacts.closes_app, Hc, Hl. simpl.
  split_and!; [done| |done|].
  - intros text H.
    repeat (rewrite elem_of_cons in H || rewrite elem_of_app in H).
    destruct_or! H; try done; try congruence;
      [by destruct (Hs text)|by apply elem_of_nil in H].
  - by apply (decode_replace_scalar (length (received k (reads w)))).
Qed.

End ScriptFacts.

(** X13.  [gen_and_run.py] as a whole.  It creates at most two sockets and,
    when it runs to its end, has closed each of them; an exception out of
    [send_command] ends it with one socket left open.  Every command it
    sends can be encoded, so line 8 never raises on the text: the first is
    the fixed SCRIPT_GENERATE command, the second is SCRIPT_EXECUTE_AUTO
    followed by the identifier scanned from the first reply, which is not
    empty, has no double quote, and was printed as the script id. *)
Theorem gen_and_run_commands w1 w2 e out calls :
  GenAndRunScript.main w1 w2 = Some (e, out, calls) ->
  (creates calls <= 2)%nat
  /\ creates calls
     = match e with
       | GenAndRunScript.Finished => closes calls
       | GenAndRunScript.Traceback _ => S (closes calls)
       end
  /\ forall text, Sendall text ∈ calls ->
       (exists bs, Codec.encode text = Some bs)
       /\ (text = Py.lit "SCRIPT_GENERATE:" ++ GenAndRunScript.goal ++ [Py.nl]
           \/ exists id,
                text = Py.lit "SCRIPT_EXECUTE_AUTO:" ++ id ++ [Py.nl]
                /\ id <> [] /\ (Py.dq ∉ id)
                /\ (Py.nl :: Py.lit "Script ID: " ++ id) ∈ out).
Proof.
  assert (Hgoal : Forall scalar
            ((Py.lit "SCRIPT_GENERATE:" ++ GenAndRunScript.goal) ++ [Py.nl])).
  { apply ScriptFacts.scalar_check. by vm_compute. }
  unfold GenAndRunScript.main.
  destruct (GenAndRun.send_command _ 60 w1) as [[r1 calls1]|] eqn:E1; [|done].
  apply ScriptFacts.send_command_shape in E1 as (Hc1 & Hs1 & Hr1).
  assert (Hfirst : forall text, Sendall text ∈ calls1 ->
    (exists bs, Codec.encode text = Some bs)
    /\ text = Py.lit "SCRIPT_GENERATE:" ++ GenAndRunScript.goal ++ [Py.nl]).
  { intros text Ht. rewrite (Hs1 text Ht). split.
    - by apply ScriptFacts.encode_scalar.
    - by rewrite <- app_assoc. }
  destruct r1 as [why1 result|e1].
  2:{ intros [= <- <- <-]. rewrite Hc1, Hr1.
      split_and!; [lia|done|]. intros text Ht.
      destruct (Hfirst text Ht) as [He ->]. split; [done|by left]. }
  destruct Hr1 as [Hcl1 Hres].
  destruct (GenAndRun.extract_id result) as [script_id|] eqn:Eid.
  2:{ intros [= <- <- <-]. rewrite Hc1, Hcl1.
      split_and!; [lia|done|]. intros text Ht.
      destruct (Hfirst text Ht) as [He ->]. split; [done|by left]. }
  apply MatchFacts.extract_id_inv in Eid
    as (Hne & Hdq & pre & ws & post & Hresult & _).
  assert (Hid : Forall scalar
            ((Py.lit "SCRIPT_EXECUTE_AUTO:" ++ script_id) ++ [Py.nl])).
  { rewrite Hresult in Hres. rewrite !Forall_app in Hres.
    destruct Hres as (_ & _ & _ & _ & Hv & _).
    rewrite !Forall_app.
    split_and!; [|done|]; apply ScriptFacts.scalar_check; by vm_compute. }
  destruct (GenAndRun.send_command _ 180 w2) as [[r2 calls2]|] eqn:E2; [|done].
  apply ScriptFacts.send_command_shape in E2 as (Hc2 & Hs2 & Hr2).
  assert (Hsent : forall (out0 : list pystr) text,
    (Py.nl :: Py.lit "Script ID: " ++ script_id) ∈ out0 ->
    Sendall text ∈ calls1 ++ calls2 ->
    (exists bs, Codec.encode text = Some bs)
    /\ (text = Py.lit "SCRIPT_GENERATE:" ++ GenAndRunScript.goal ++ [Py.nl]
        \/ exists id,
             text = Py.lit "SCRIPT_EXECUTE_AUTO:" ++ id ++ [Py.nl]
             /\ id <> [] /\ (Py.dq ∉ id)
             /\ (Py.nl :: Py.lit "Script ID: " ++ id) ∈ out0)).
  { intros out0 text Hout [Ht|Ht]%elem_of_app.
    - destruct (Hfirst text Ht) as [He ->]. split; [done|by left].
    - rewrite (Hs2 text Ht). split; [by apply ScriptFacts.encode_scalar|].
      right. exists script_id. by rewrite <- app_assoc. }
  assert (Hshown : forall tail,
    (Py.nl :: Py.lit "Script ID: " ++ script_id)
    ∈ (([GenAndRunScript.rule; Py.lit "Step 1: Generating script...";
         GenAndRunScript.rule] ++ [result])
       ++ [Py.nl :: Py.lit "Script ID: " ++ script_id;
           Py.nl :: GenAndRunScript.rule;
           Py.lit "Step 2: Executing script with auto-improve...";
           GenAndRunScript.rule]) ++ tail).
  { intros tail. apply elem_of_app. left. apply elem_of_app. right. by left. }
  destruct r2 as [why2 exec_result|e2].
  - destruct Hr2 as [Hcl2 _]. intros [= <- <- <-].
    rewrite ScriptFacts.creates_app, LoopFacts.closes_app, Hc1, Hc2, Hcl1, Hcl2.
    split_and!; [lia|done|]. intros text. apply Hsent. apply Hshown.
  - intros [= <- <- <-].
    rewrite ScriptFacts.creates_app, LoopFacts.closes_app, Hc1, Hc2, Hcl1, Hr2.
    split_and!; [lia|done|]. intros text. apply Hsent.
    specialize (Hshown []). by rewrite app_nil_r in Hshown.
Qed.

(** The first reply names the script s1; the second session is refused in
    one run and answers in the other. *)
Lemma gen_and_run_commands_witness :
  let reply := Utf8.ascii_bytes (Lit.payload "id" (Py.lit "s1")) in
  let w1 := World true true [(1%Q, Recv reply); (2%Q, Recv [])] in
  let w2 := World true true
    [(1%Q, Recv (Utf8.ascii_bytes (Py.lit "step 1" ++ [Py.nl; 32; Py.nl]
                                   ++ Py.lit "done")));
     (2%Q, Recv [])] in
  (exists out calls,
     GenAndRunScript.main w1 w2 = Some (GenAndRunScript.Finished, out, calls)
     /\ drop 8 out = [Py.lit "step 1"; Py.lit "done"]
     /\ creates calls = 2%nat /\ closes calls = 2%nat
     /\ Sendall (Py.lit "SCRIPT_EXECUTE_AUTO:s1" ++ [Py.nl]) ∈ calls)
  /\ (exists out calls,
     GenAndRunScript.main w1 (World false true [])
     = Some (GenAndRunScript.Traceback ConnectFailed, out, calls)
     /\ creates calls = 2%nat /\ closes calls = 1%nat).
Proof.
  intros reply w1 w2. split.
  - destruct (GenAndRunScript.main w1 w2) as [[[e out] calls]|] eqn:E;
      [|by vm_compute in E].
    pose proof (gen_and_run_commands w1 w2 e out calls E) as (_ & Hcl & _).
    vm_compute in E. injection E as <- <- <-.
    eexists _, _. split; [reflexivity|].
    split; [reflexivity|]. split; [reflexivity|].
    split; [by rewrite <- Hcl|].
    repeat first [left | right].
  - destruct (GenAndRunScript.main w1 (World false true []))
      as [[[e out] calls]|] eqn:E; [|by vm_compute in E].
    pose proof (gen_and_run_commands w1 _ e out calls E) as (_ & Hcl & _).
    vm_compute in E. injection E as <- <- <-.
    eexists _, _. split; [reflexivity|]. split; [reflexivity|].
    apply eq_add_S. by rewrite <- Hcl.
Defined.

(** X14.  [main] of [analyze_xml.py].  With one argument it parses that
    file and exits with status 0 in every case.  A file that cannot be
    parsed, and a tree of more levels than the interpreter allows nested
    calls of [find_clickable], is reported as an error and then as holding
    no clickable element, like a file that has none.  Otherwise the count
    printed is the number of clickable elements of the tree, and the entries
    that follow are those elements in document order, numbered from 1.  With
    any other number of arguments it prints the usage line, parses nothing
    and exits with status 1. *)
Theorem main_lists_clickable_elements limit argv parse :
  (length argv <> 2%nat ->
   AnalyzeXml.main limit argv parse = ([AnalyzeXml.Usage], 1))
  /\ forall program xml_file, argv = [program; xml_file] ->
     match parse xml_file with
     | None =>
         AnalyzeXml.main limit argv parse
         = ([AnalyzeXml.Analysing; AnalyzeXml.ParseFailed;
             AnalyzeXml.NoneFound], 0)
     | Some root =>
         let found := List.filter (fun p => AnalyzeXml.clickable (snd p))
                        (AnalyzeXml.iter root 0) in
         AnalyzeXml.main limit argv parse
         = (if decide (limit < AnalyzeXml.height root)%nat
            then [AnalyzeXml.Analysing; AnalyzeXml.ParseFailed;
                  AnalyzeXml.NoneFound]
            else if decide (found = [])
            then [AnalyzeXml.Analysing; AnalyzeXml.NoneFound]
            else [AnalyzeXml.Analysing; AnalyzeXml.Found (length found)]
                 ++ imap (fun i p =>
                            AnalyzeXml.Item (S i)
                              (AnalyzeXml.describe (snd p) (fst p))) found,
            0)
     end.
Proof.
  split.
  - intros Hn. destruct argv as [|a [|b [|c argv]]]; simpl in *; done.
  - intros program xml_file ->. unfold AnalyzeXml.main.
    destruct (parse xml_file) as [root|]; [|done].
    unfold AnalyzeXml.analyze_clickable_elements.
    rewrite (XmlFacts.find_clickable_iter limit root 0 []). cbn [app].
    set (found := List.filter _ _).
    destruct (decide (AnalyzeXml.height root <= limit)%nat);
      destruct (decide (limit < AnalyzeXml.height root)%nat);
      try lia; [|done].
    destruct (decide (found = [])) as [->|Hne]; [done|].
    destruct (map _ found) as [|info infos] eqn:E.
    { by apply map_eq_nil in E. }
    rewrite <- E. cbn [app]. do 3 f_equal.
    + by rewrite length_map.
    + exact (imap_fmap _ _ found).
Qed.

(** A tree with one clickable button below its root; a file that does not
    parse; a call without arguments. *)
Lemma main_lists_clickable_elements_witness :
  let button := AnalyzeXml.Element (Py.lit "node")
    {[ Py.lit "clickable" := Py.lit "true"; Py.lit "text" := Py.lit "OK" ]} [] in
  let root := AnalyzeXml.Element (Py.lit "hierarchy") ∅ [button] in
  let parse (file : pystr) :=
    if bool_decide (file = Py.lit "ui.xml") then Some root else None in
  AnalyzeXml.main 1000 [Py.lit "analyze_xml.py"; Py.lit "ui.xml"] parse
  = ([AnalyzeXml.Analysing; AnalyzeXml.Found 1;
      AnalyzeXml.Item 1 (AnalyzeXml.describe button 1)], 0)
  /\ AnalyzeXml.main 1 [Py.lit "analyze_xml.py"; Py.lit "ui.xml"] parse
     = ([AnalyzeXml.Analysing; AnalyzeXml.ParseFailed; AnalyzeXml.NoneFound], 0)
  /\ AnalyzeXml.main 1000 [Py.lit "analyze_xml.py"; Py.lit "none.xml"] parse
     = ([AnalyzeXml.Analysing; AnalyzeXml.ParseFailed; AnalyzeXml.NoneFound], 0)
  /\ AnalyzeXml.main 1000 [Py.lit "analyze_xml.py"] parse
     = ([AnalyzeXml.Usage], 1).
Proof.
  intros button root parse. split_and!.
  - exact (proj2 (main_lists_clickable_elements 1000
             [Py.lit "analyze_xml.py"; Py.lit "ui.xml"] parse) _ _ eq_refl).
  - exact (proj2 (main_lists_clickable_elements 1
             [Py.lit "analyze_xml.py"; Py.lit "ui.xml"] parse) _ _ eq_refl).
  - exact (proj2 (main_lists_clickable_elements 1000
             [Py.lit "analyze_xml.py"; Py.lit "none.xml"] parse) _ _ eq_refl).
  - apply (proj1 (main_lists_clickable_elements 1000
             [Py.lit "analyze_xml.py"] parse)).
    simpl. lia.
Defined.

(** ** The generating functions: where the script id comes from *)

Module GenerateFacts.
Import Py Utf8 Stream Generate.
Import TestFullFlow(json, JNull, JBool, JNumber, JString, JArray, JObject, member).

Section Functions.

Variable number : Type.
Variable json_loads : pystr -> loads_outcome number.
Variable nonzero : number -> bool.

Lemma take_id_object result script_id fields :
  take_id number result = Some (script_id, fields) ->
  script_id <> JNull ->
  exists d, result = JObject d
    /\ member number "scriptId" d = Some script_id.
Proof.
  destruct result as [|b|n|s|items|d]; simpl; try done.
  - destruct (contains _ _); [done|]. by intros [= <- _].
  - destruct (existsb _ _); [done|]. by intros [= <- _].
  - destruct (member number "scriptId" d) as [v|] eqn:E.
    + intros [= <- _] _. by exists d.
    + by intros [= <- _].
Qed.

(** The loop of [test_script_generate]: the buffer is what was received,
    the socket is not closed inside the loop, and an id comes from a buffer
    that decoded, ended with a brace and parsed to an object. *)
Lemma script_loop_spec rs : forall all_data out calls why buf id out' calls',
  script_loop number json_loads all_data out calls rs
  = Some (why, buf, id, out', calls') ->
  closes calls' = closes calls
  /\ creates calls' = creates calls
  /\ (id <> JNull ->
      why = Complete
      /\ exists k text d, (k <= length rs)%nat
        /\ buf = all_data ++ received k rs
        /\ Codec.decode_strict buf = Some text
        /\ endswith Lit.brace (strip text) = true
        /\ json_loads text = Parsed (JObject d)
        /\ member number "scriptId" d = Some id).
Proof.
  induction rs as [|[now r] rs IH];
    intros all_data out calls why buf id out' calls'; simpl; [done|].
  destruct (Qltb now 120); simpl; [|by intros [= _ _ <- _ <-]].
  assert (Hstep : forall all_data0 out0 chunk,
    all_data0 = all_data ++ chunk ->
    received 1 [(now, r)] = chunk ->
    script_loop number json_loads all_data0 out0
      (calls ++ [SetTimeout 5; RecvCall 16384]) rs
    = Some (why, buf, id, out', calls') ->
    closes calls' = closes calls
    /\ creates calls' = creates calls
    /\ (id <> JNull ->
        why = Complete
        /\ exists k text d, (k <= S (length rs))%nat
          /\ buf = all_data ++ received k ((now, r) :: rs)
          /\ Codec.decode_strict buf = Some text
          /\ endswith Lit.brace (strip text) = true
          /\ json_loads text = Parsed (JObject d)
          /\ member number "scriptId" d = Some id)).
  { intros all_data0 out0 chunk -> Hchunk H.
    apply IH in H as (Hc & Hcr & Hid).
    rewrite LoopFacts.closes_app in Hc. rewrite ScriptFacts.creates_app in Hcr.
    simpl in Hc, Hcr. split_and!; [lia|lia|].
    intros Hn. destruct (Hid Hn) as (-> & k & text & d & Hk & -> & Hrest).
    split; [done|]. exists (S k), text, d. split; [lia|].
    split; [|done]. rewrite <- app_assoc. f_equal.
    destruct r; simpl in Hchunk |- *; rewrite <- Hchunk; try done.
    by rewrite app_nil_r. }
  assert (Hcalls : forall calls0,
    calls0 = calls ++ [SetTimeout 5; RecvCall 16384] ->
    closes calls0 = closes calls /\ creates calls0 = creates calls).
  { intros calls0 ->. rewrite LoopFacts.closes_app, ScriptFacts.creates_app.
    simpl. lia. }
  destruct r as [chunk|later|msg].
  - destruct (nonempty chunk) eqn:Hne.
    2:{ destruct chunk; [|done]. intros H.
        apply (Hstep all_data out []); [by rewrite app_nil_r|done|done]. }
    destruct (Codec.decode_strict (all_data ++ chunk)) as [text|] eqn:Ed.
    2:{ intros H. apply (Hstep (all_data ++ chunk) out chunk);
          [done|simpl; by rewrite app_nil_r|done]. }
    destruct (endswith Lit.brace (strip text)) eqn:Ee.
    2:{ intros H. apply (Hstep (all_data ++ chunk) out chunk);
          [done|simpl; by rewrite app_nil_r|done]. }
    destruct (json_loads text) as [result| |msg] eqn:Ej.
    + destruct (take_id number result) as [[script_id fields]|] eqn:Et.
      * intros [= <- <- <- _ <-].
        destruct (Hcalls _ eq_refl) as [-> ->]. split_and!; [done|done|].
        intros Hn. split; [done|].
        destruct (take_id_object _ _ _ Et Hn) as (d & -> & Hm).
        exists 1%nat, text, d. simpl. rewrite app_nil_r.
        split_and!; [lia|done|done|done|done|done].
      * intros [= _ _ <- _ <-].
        destruct (Hcalls _ eq_refl) as [-> ->]. by split_and!.
    + intros H. apply (Hstep (all_data ++ chunk) out chunk);
        [done|simpl; by rewrite app_nil_r|done].
    + intros [= _ _ <- _ <-].
      destruct (Hcalls _ eq_refl) as [-> ->]. by split_and!.
  - intros H.
    apply (Hstep all_data (out ++ [Elapsed (int_of later)]) []);
      [by rewrite app_nil_r|done|done].
  - intros [= _ _ <- _ <-].
    destruct (Hcalls _ eq_refl) as [-> ->]. by split_and!.
Qed.

(** The loop ends once the clock has passed the deadline. *)
Lemma script_loop_returns rs : forall all_data out calls,
  runs_out 120 rs ->
  exists r, script_loop number json_loads all_data out calls rs = Some r.
Proof.
  induction rs as [|[now r] rs IH]; intros all_data out calls Hrs.
  - by apply Exists_nil in Hrs.
  - simpl. destruct (Qltb now 120) eqn:Hnow; simpl; [|by eexists].
    assert (Hrs' : runs_out 120 rs).
    { apply Exists_cons in Hrs as [H|H]; [|done]. simpl in H. congruence. }
    destruct r as [chunk|later|msg]; [| by apply IH | by eexists].
    destruct (nonempty chunk); [|by apply IH].
    destruct (Codec.decode_strict _) as [text|]; [|by apply IH].
    destruct (endswith _ _); [|by apply IH].
    destruct (json_loads text); [|by apply IH|by eexists].
    destruct (take_id _ _) as [[? ?]|]; by eexists.
Qed.

(** One scan of the buffer in [test_generate]. *)
Lemma scan_spec buf script_id out id out' :
  scan number json_loads buf script_id out = (id, out') ->
  id = script_id
  \/ exists text line d,
       Codec.decode_strict buf = Some text
       /\ List.find (contains (lit "scriptId")) (split nl (strip text))
          = Some line
       /\ json_loads line = Parsed (JObject d)
       /\ default JNull (member number "scriptId" d) = id.
Proof.
  unfold scan.
  destruct (Codec.decode_strict buf) as [text|]; [|intros [= <- _]; by left].
  destruct (List.find _ _) as [line|] eqn:Ef; [|intros [= <- _]; by left].
  destruct (json_loads line) as [result| |msg] eqn:Ej;
    [|intros [= <- _]; by left..].
  destruct result; try (intros [= <- _]; by left).
  intros [= <- _]. right. by eexists text, line, _.
Qed.

Lemma generate_loop_spec rs :
  forall all_data script_id out calls why buf id out' calls',
  generate_loop number json_loads nonzero all_data script_id out calls rs
  = Some (why, buf, id, out', calls') ->
  closes calls' = closes calls
  /\ creates calls' = creates calls
  /\ (why = Complete -> json_truthy number nonzero id = true)
  /\ (id = script_id
      \/ exists k text line d, (k <= length rs)%nat
        /\ Codec.decode_strict (all_data ++ received k rs) = Some text
        /\ List.find (contains (lit "scriptId")) (split nl (strip text))
           = Some line
        /\ json_loads line = Parsed (JObject d)
        /\ default JNull (member number "scriptId" d) = id).
Proof.
  induction rs as [|[now r] rs IH];
    intros all_data script_id out calls why buf id out' calls'; simpl; [done|].
  destruct (Qltb now 90); simpl.
  2:{ intros [= <- _ <- _ <-]. split_and!; [done|done|done|by left]. }
  assert (Hcalls : forall calls0,
    calls0 = calls ++ [SetTimeout 10; RecvCall 16384] ->
    closes calls0 = closes calls /\ creates calls0 = creates calls).
  { intros calls0 ->. rewrite LoopFacts.closes_app, ScriptFacts.creates_app.
    simpl. lia. }
  assert (Hstep : forall out0 chunk,
    received 1 [(now, r)] = chunk ->
    generate_loop number json_loads nonzero (all_data ++ chunk) script_id out0
      (calls ++ [SetTimeout 10; RecvCall 16384]) rs
    = Some (why, buf, id, out', calls') ->
    closes calls' = closes calls
    /\ creates calls' = creates calls
    /\ (why = Complete -> json_truthy number nonzero id = true)
    /\ (id = script_id
        \/ exists k text line d, (k <= S (length rs))%nat
          /\ Codec.decode_strict (all_data ++ received k ((now, r) :: rs))
             = Some text
          /\ List.find (contains (lit "scriptId")) (split nl (strip text))
             = Some line
          /\ json_loads line = Parsed (JObject d)
          /\ default JNull (member number "scriptId" d) = id)).
  { intros out0 chunk Hchunk H.
    apply IH in H as (Hc & Hcr & Ht & Hid).
    destruct (Hcalls _ eq_refl) as [Hc0 Hcr0].
    split_and!; [lia|lia|done|].
    destruct Hid as [->|(k & text & line & d & Hk & Hd & Hrest)]; [by left|].
    right. exists (S k), text, line, d. split; [lia|]. split; [|done].
    rewrite <- app_assoc in Hd. rewrite <- Hd. f_equal. f_equal.
    destruct r; simpl in Hchunk |- *; rewrite <- Hchunk; try done.
    by rewrite app_nil_r. }
  destruct r as [chunk|later|msg].
  - destruct (nonempty chunk) eqn:Hne.
    2:{ destruct chunk; [|done]. intros H.
        rewrite <- (app_nil_r all_data) in H. by apply (Hstep out []). }
    destruct (scan _ _ _ _ _) as [script_id1 out1] eqn:Es.
    apply scan_spec in Es.
    destruct (json_truthy number nonzero script_id1) eqn:Et.
    + intros [= <- _ <- _ <-].
      destruct (Hcalls _ eq_refl) as [-> ->]. split_and!; [done|done|done|].
      destruct Es as [->|(text & line & d & Hd & Hrest)]; [by left|].
      right. exists 1%nat, text, line, d. simpl. rewrite app_nil_r.
      split; [lia|done].
    + intros H. apply IH in H as (Hc & Hcr & Hw & Hid).
      destruct (Hcalls _ eq_refl) as [Hc0 Hcr0].
      split_and!; [lia|lia|done|].
      destruct Hid as [->|(k & text & line & d & Hk & Hd & Hrest)].
      * destruct Es as [->|(text & line & d & Hd & Hrest)]; [by left|].
        right. exists 1%nat, text, line, d. simpl. rewrite app_nil_r.
        split; [lia|done].
      * right. exists (S k), text, line, d. split; [lia|]. split; [|done].
        simpl. by rewrite <- app_assoc in Hd.
  - intros H. rewrite <- (app_nil_r all_data) in H.
    by apply (Hstep (out ++ [Elapsed (int_of later)]) []).
  - intros [= <- _ <- _ <-].
    destruct (Hcalls _ eq_refl) as [-> ->]. split_and!; [done|done|done|by left].
Qed.

(** While the loop of [test_generate] runs, the script id is falsy: a
    truthy id is returned by the [break] of line 45 only. *)
Lemma generate_loop_truthy rs :
  forall all_data script_id out calls why buf id out' calls',
  json_truthy number nonzero script_id = false ->
  generate_loop number json_loads nonzero all_data script_id out calls rs
  = Some (why, buf, id, out', calls') ->
  json_truthy number nonzero id = true -> why = Complete.
Proof.
  induction rs as [|[now r] rs IH];
    intros all_data script_id out calls why buf id out' calls' Hf; simpl;
    [done|].
  destruct (Qltb now 90); simpl; [|intros [= _ _ <- _ _]; congruence].
  destruct r as [chunk|later|msg].
  - destruct (nonempty chunk); [|by apply IH].
    destruct (scan _ _ _ _ _) as [script_id1 out1].
    destruct (json_truthy number nonzero script_id1) eqn:Et.
    + by intros [= <- _ _ _ _].
    + by apply IH.
  - by apply IH.
  - intros [= _ _ <- _ _]. congruence.
Qed.

Lemma generate_loop_returns rs : forall all_data script_id out calls,
  runs_out 90 rs ->
  exists r,
    generate_loop number json_loads nonzero all_data script_id out calls rs
    = Some r.
Proof.
  induction rs as [|[now r] rs IH]; intros all_data script_id out calls Hrs.
  - by apply Exists_nil in Hrs.
  - simpl. destruct (Qltb now 90) eqn:Hnow; simpl; [|by eexists].
    assert (Hrs' : runs_out 90 rs).
    { apply Exists_cons in Hrs as [H|H]; [|done]. simpl in H. congruence. }
    destruct r as [chunk|later|msg]; [| by apply IH | by eexists].
    destruct (nonempty chunk); [|by apply IH].
    destruct (scan _ _ _ _ _) as [script_id1 out1].
    destruct (json_truthy _ _ _); [by eexists|by apply IH].
Qed.

End Functions.

End GenerateFacts.

(** X15.  [test_script_generate] and [test_generate] create one socket.
    When [connect] or [sendall] raises, the exception leaves the function
    and the socket is not closed; in every other case the function closes
    it exactly once, after the loop.  Once the clock passes the deadline of
    the loop (120 and 90 seconds) the function returns, whatever was
    received and whatever [json.loads] made of it. *)
Theorem generating_functions_close_once
    number (json_loads : pystr -> Generate.loads_outcome number)
    (nonzero : number -> bool) (w : world) :
  (forall e id out calls,
     Generate.test_script_generate number json_loads w = Some (e, id, out, calls)
     \/ Generate.test_generate number json_loads nonzero w
        = Some (e, id, out, calls) ->
     creates calls = 1%nat
     /\ closes calls = match e with Stream.Ended _ => 1%nat | _ => 0%nat end
     /\ (connect_ok w && send_ok w
         = match e with Stream.Ended _ => true | _ => false end))
  /\ (connect_ok w = true -> send_ok w = true ->
      (runs_out 120 (reads w) ->
       exists why id out calls,
         Generate.test_script_generate number json_loads w
         = Some (Stream.Ended why, id, out, calls))
      /\ (runs_out 90 (reads w) ->
          exists why id out calls,
            Generate.test_generate number json_loads nonzero w
            = Some (Stream.Ended why, id, out, calls))).
Proof.
  split.
  - intros e id out calls [H|H]; revert H;
      unfold Generate.test_script_generate, Generate.test_generate;
      (destruct (connect_ok w); simpl; [|by intros [= <- _ _ <-]]);
      (destruct (send_ok w); simpl; [|by intros [= <- _ _ <-]]).
    + destruct (Generate.script_loop _ _ _ _ _ _)
        as [[[[[why buf] id1] out1] calls1]|] eqn:E; [|done].
      intros [= <- _ _ <-].
      apply GenerateFacts.script_loop_spec in E as (Hc & Hcr & _).
      rewrite LoopFacts.closes_app, ScriptFacts.creates_app, Hc, Hcr.
      by split_and!.
    + destruct (Generate.generate_loop _ _ _ _ _ _ _ _)
        as [[[[[why buf] id1] out1] calls1]|] eqn:E; [|done].
      intros [= <- _ _ <-].
      apply GenerateFacts.generate_loop_spec in E as (Hc & Hcr & _).
      rewrite LoopFacts.closes_app, ScriptFacts.creates_app, Hc, Hcr.
      by split_and!.
  - intros Hc Hs. split; intros Hrs;
      unfold Generate.test_script_generate, Generate.test_generate;
      rewrite Hc, Hs; cbn [negb].
    + match goal with
      | |- context [Generate.script_loop _ _ _ _ ?c _] =>
          destruct (GenerateFacts.script_loop_returns number json_loads
                      (reads w) [] [] c Hrs)
            as [[[[[why buf] id] out] calls] ->]
      end.
      by eexists _, _, _, _.
    + match goal with
      | |- context [Generate.generate_loop _ _ _ _ _ _ ?c _] =>
          destruct (GenerateFacts.generate_loop_returns number json_loads
                      nonzero (reads w) [] TestFullFlow.JNull [] c Hrs)
            as [[[[[why buf] id] out] calls] ->]
      end.
      by eexists _, _, _, _.
Qed.

(** The peer sends two bytes that are no JSON and closes; both functions
    read the closed socket until their deadline and return no id. *)
Lemma generating_functions_close_once_witness :
  let json_loads (text : pystr) : Generate.loads_outcome Z := Generate.NotJson in
  let nonzero (n : Z) := negb (n =? 0) in
  let w := World true true
    [(1%Q, Recv [x7b; x7d]); (2%Q, Recv []); (3%Q, Recv []);
     (91%Q, Recv []); (121%Q, Recv [])] in
  (exists out calls,
     Generate.test_script_generate Z json_loads w
     = Some (Stream.Ended Deadline, TestFullFlow.JNull, out, calls)
     /\ recvs calls = 4%nat /\ closes calls = 1%nat)
  /\ (exists out calls,
     Generate.test_generate Z json_loads nonzero w
     = Some (Stream.Ended Deadline, TestFullFlow.JNull, out, calls)
     /\ recvs calls = 3%nat /\ closes calls = 1%nat).
Proof.
  intros json_loads nonzero w.
  destruct (generating_functions_close_once Z json_loads nonzero w)
    as [Hclose Hret].
  destruct Hret as [H1 H2]; [done|done|].
  split.
  - destruct H1 as (why & id & out & calls & E).
    { apply Exists_exists. exists (121%Q, Recv []). split; [|done].
      repeat first [left | right]. }
    destruct (Hclose _ _ _ _ (or_introl E)) as (_ & Hcl & _).
    exists out, calls. vm_compute in E. injection E as <- <- <- <-.
    split; [reflexivity|]. split; [reflexivity|exact Hcl].
  - destruct H2 as (why & id & out & calls & E).
    { apply Exists_exists. exists (91%Q, Recv []). split; [|done].
      repeat first [left | right]. }
    destruct (Hclose _ _ _ _ (or_intror E)) as (_ & Hcl & _).
    exists out, calls. vm_compute in E. injection E as <- <- <- <-.
    split; [reflexivity|]. split; [reflexivity|exact Hcl].
Defined.

(** X16.  A script id that a generating function returns comes out of a
    reply that parsed.  In [test_script_generate] an id other than [None]
    is returned only by the [break] of line 46, and it is the member
    scriptId of the object that [json.loads] made of the whole buffer, at a
    moment when the buffer decoded strictly as UTF-8 and ended with a
    closing brace.  In [test_generate] an id other than [None] is the member
    scriptId of the object parsed from the first line holding the text
    scriptId of a buffer that decoded strictly; the loop is left by its
    [break] exactly when the id is truthy. *)
Theorem generated_id_is_parsed
    number (json_loads : pystr -> Generate.loads_outcome number)
    (nonzero : number -> bool) (w : world) :
  (forall why id out calls,
     Generate.test_script_generate number json_loads w
     = Some (Stream.Ended why, id, out, calls) ->
     id <> TestFullFlow.JNull ->
     why = Complete
     /\ exists k text d, (k <= length (reads w))%nat
       /\ Codec.decode_strict (received k (reads w)) = Some text
       /\ Py.endswith Lit.brace (Py.strip text) = true
       /\ json_loads text = Generate.Parsed (TestFullFlow.JObject d)
       /\ TestFullFlow.member number "scriptId" d = Some id)
  /\ (forall why id out calls,
     Generate.test_generate number json_loads nonzero w
     = Some (Stream.Ended why, id, out, calls) ->
     (why = Complete <-> Generate.json_truthy number nonzero id = true)
     /\ (id <> TestFullFlow.JNull ->
         exists k text line d, (k <= length (reads w))%nat
           /\ Codec.decode_strict (received k (reads w)) = Some text
           /\ List.find (Py.contains (Py.lit "scriptId"))
                (Py.split Py.nl (Py.strip text)) = Some line
           /\ json_loads line = Generate.Parsed (TestFullFlow.JObject d)
           /\ TestFullFlow.member number "scriptId" d = Some id)).
Proof.
  split.
  - intros why id out calls. unfold Generate.test_script_generate.
    destruct (connect_ok w); simpl; [|done].
    destruct (send_ok w); simpl; [|done].
    destruct (Generate.script_loop _ _ _ _ _ _)
      as [[[[[why1 buf] id1] out1] calls1]|] eqn:E; [|done].
    intros [= <- <- _ _] Hid.
    apply GenerateFacts.script_loop_spec in E as (_ & _ & H).
    destruct (H Hid) as (-> & k & text & d & Hk & -> & Hrest).
    split; [done|]. by exists k, text, d.
  - intros why id out calls. unfold Generate.test_generate.
    destruct (connect_ok w); simpl; [|done].
    destruct (send_ok w); simpl; [|done].
    destruct (Generate.generate_loop _ _ _ _ _ _ _ _)
      as [[[[[why1 buf] id1] out1] calls1]|] eqn:E; [|done].
    intros [= <- <- _ _].
    pose proof (GenerateFacts.generate_loop_truthy number json_loads nonzero
                  _ _ TestFullFlow.JNull _ _ _ _ _ _ _ eq_refl E) as Ht.
    apply GenerateFacts.generate_loop_spec in E as (_ & _ & Hw & Hid).
    split; [by split|].
    intros Hn. destruct Hid as [->|(k & text & line & d & Hk & Hd & Hf & Hj & Hm)];
      [done|].
    exists k, text, line, d. split_and!; [done|done|done|done|].
    destruct (TestFullFlow.member number "scriptId" d) as [v|]; simpl in Hm;
      [by rewrite Hm|by destruct Hn].
Qed.

(** The reply names the script s1, and arrives in two chunks, the first cut
    inside a character of three bytes. *)
Lemma generated_id_is_parsed_witness :
  let reply :=
    Utf8.ascii_bytes (Py.lit "{" ++ Py.quoted "scriptName" ++ Py.lit ":" ++ [Py.dq])
    ++ [xe4; xb8; xad]
    ++ Utf8.ascii_bytes ([Py.dq] ++ Py.lit "," ++ Py.quoted "scriptId"
                         ++ Py.lit ":" ++ Py.quoted "s1" ++ Py.lit "}") in
  let object : TestFullFlow.json Z :=
    TestFullFlow.JObject
      [(Py.lit "scriptName", TestFullFlow.JString [20013]);
       (Py.lit "scriptId", TestFullFlow.JString (Py.lit "s1"))] in
  let json_loads (text : pystr) : Generate.loads_outcome Z :=
    if bool_decide (text = Utf8.decode_replace reply)
    then Generate.Parsed object else Generate.NotJson in
  let nonzero (n : Z) := negb (n =? 0) in
  let w := World true true
    [(1%Q, Recv (take 16 reply)); (2%Q, RecvTimeout 7);
     (8%Q, Recv (drop 16 reply))] in
  (exists out calls,
     Generate.test_script_generate Z json_loads w
     = Some (Stream.Ended Complete, TestFullFlow.JString (Py.lit "s1"),
             out, calls)
     /\ Codec.decode_strict (take 16 reply) = None)
  /\ (exists out calls,
     Generate.test_generate Z json_loads nonzero w
     = Some (Stream.Ended Complete, TestFullFlow.JString (Py.lit "s1"),
             out, calls)).
Proof.
  intros reply object json_loads nonzero w.
  destruct (generated_id_is_parsed Z json_loads nonzero w) as [H1 H2].
  split.
  - destruct (Generate.test_script_generate Z json_loads w)
      as [[[[e id] out] calls]|] eqn:E; [|by vm_compute in E].
    assert (Hid : e = Stream.Ended Complete
                  /\ id = TestFullFlow.JString (Py.lit "s1")).
    { vm_compute in E. by injection E as <- <- _ _. }
    destruct Hid as [-> ->].
    destruct (H1 _ _ _ _ eq_refl) as (_ & k & text & d & _); [done|].
    exists out, calls. split; [done|by vm_compute].
  - destruct (Generate.test_generate Z json_loads nonzero w)
      as [[[[e id] out] calls]|] eqn:E; [|by vm_compute in E].
    assert (Hid : e = Stream.Ended Complete
                  /\ id = TestFullFlow.JString (Py.lit "s1")).
    { vm_compute in E. by injection E as <- <- _ _. }
    destruct Hid as [-> ->].
    destruct (H2 _ _ _ _ eq_refl) as [_ H]. destruct H as (k & _); [done|].
    by exists out, calls.
Defined.

(** ** The two test scripts as a whole *)

Module MainFacts.
Import Py Stream Generate Main.

Lemma stream_loop_creates deadline per_read width stop rs :
  forall out calls why out' calls',
  stream_loop deadline per_read width stop out calls rs
  = Some (why, out', calls') ->
  creates calls' = creates calls.
Proof.
  induction rs as [|[now r] rs IH]; intros out calls why out' calls';
    simpl; [done|].
  destruct (Qltb now deadline); simpl; [|by intros [= _ _ <-]].
  assert (Hc : creates (calls ++ [SetTimeout per_read; RecvCall 16384])
               = creates calls)
    by (rewrite ScriptFacts.creates_app; simpl; lia).
  destruct r as [data|later|msg].
  - destruct (nonempty data).
    + destruct (surface _ _ _ _) as [out1 found]. destruct found.
      * intros [= _ _ <-]. rewrite ScriptFacts.creates_app, Hc. simpl. lia.
      * intros H. apply IH in H. by rewrite Hc in H.
    + intros H. apply IH in H. by rewrite Hc in H.
  - intros H. apply IH in H. by rewrite Hc in H.
  - by intros [= _ _ <-].
Qed.

(** A streaming session: one socket, closed when the function returns. *)
Lemma session_sockets first deadline per_read width stop command w e out calls :
  session first deadline per_read width stop command w = Some (e, out, calls) ->
  creates calls = 1%nat
  /\ closes calls = match e with Ended _ => 1%nat | _ => 0%nat end.
Proof.
  unfold session.
  destruct (connect_ok w); simpl; [|by intros [= <- _ <-]].
  destruct (send_ok w); simpl; [|by intros [= <- _ <-]].
  destruct (stream_loop _ _ _ _ _ _ _) as [[[why' out'] calls']|] eqn:E;
    [|done].
  pose proof (stream_loop_creates _ _ _ _ _ _ _ _ _ _ E) as Hcr.
  apply CloseFacts.stream_loop_closes in E.
  destruct why'; intros [= <- _ <-];
    rewrite ?ScriptFacts.creates_app, ?LoopFacts.closes_app, ?E, Hcr;
    by split.
Qed.

(** The same for a streaming function that first looks at its argument. *)
Lemma guarded_session_sockets script_id first deadline per_read width stop
    (command : pystr -> pystr) w e out calls :
  match has_id script_id with
  | None => Some (Skipped, [NoScriptId], [])
  | Some id => session first deadline per_read width stop (command id) w
  end = Some (e, out, calls) ->
  (creates calls <= 1)%nat
  /\ closes calls = match e with Ended _ => creates calls | _ => 0%nat end.
Proof.
  destruct (has_id script_id) as [id|].
  - intros H. apply session_sockets in H as [-> ->]. split; [lia|].
    by destruct e.
  - intros [= <- _ <-]. simpl. split; [lia|done].
Qed.

(** A generating function: one socket, closed when the function returns;
    a truthy id out of the loop means the loop was left by [break]. *)
Lemma generate_sockets number (json_loads : pystr -> loads_outcome number)
    (nonzero : number -> bool) w e id out calls :
  test_script_generate number json_loads w = Some (e, id, out, calls)
  \/ test_generate number json_loads nonzero w = Some (e, id, out, calls) ->
  creates calls = 1%nat
  /\ closes calls = match e with Ended _ => 1%nat | _ => 0%nat end
  /\ (json_truthy number nonzero id = true ->
      forall why, e = Ended why -> why = Complete).
Proof.
  intros [H|H]; revert H; unfold test_script_generate, test_generate;
    (destruct (connect_ok w); simpl; [|by intros [= <- _ _ <-]]);
    (destruct (send_ok w); simpl; [|by intros [= <- _ _ <-]]).
  - destruct (script_loop _ _ _ _ _ _)
      as [[[[[why buf] id1] out1] calls1]|] eqn:E; [|done].
    intros [= <- <- _ <-].
    apply GenerateFacts.script_loop_spec in E as (Hc & Hcr & Hid).
    rewrite LoopFacts.closes_app, ScriptFacts.creates_app, Hc, Hcr.
    split_and!; [done|done|]. intros Ht why' [= <-].
    apply Hid. by intros ->.
  - destruct (generate_loop _ _ _ _ _ _ _ _)
      as [[[[[why buf] id1] out1] calls1]|] eqn:E; [|done].
    intros [= <- <- _ <-].
    pose proof (GenerateFacts.generate_loop_truthy number json_loads nonzero
                  _ _ TestFullFlow.JNull _ _ _ _ _ _ _ eq_refl E) as Ht.
    apply GenerateFacts.generate_loop_spec in E as (Hc & Hcr & _).
    rewrite LoopFacts.closes_app, ScriptFacts.creates_app, Hc, Hcr.
    split_and!; [done|done|]. intros Hid why' [= <-]. by apply Ht.
Qed.

End MainFacts.



(** ** [test_full_flow.py] as a whole *)

Module FlowScriptFacts.
Import Py GenAndRun TestFullFlowScript.

Lemma search_with_inv m s g :
  search_with m s = Some g -> exists pre s', s = pre ++ s' /\ m s' = Some g.
Proof.
  induction s as [|c s IH]; simpl.
  - destruct (m []) eqn:E; [|done]. intros [= <-]. by exists [], [].
  - destruct (m (c :: s)) eqn:E.
    + intros [= <-]. by exists [], (c :: s).
    + intros H. destruct (IH H) as (pre & s' & -> & Hm).
      by exists (c :: pre), s'.
Qed.

Lemma literal_inv text k s g :
  literal text k s = Some g -> exists rest, s = text ++ rest /\ k rest = Some g.
Proof.
  unfold literal. destruct (startswith text s) eqn:E; [|done].
  apply PyFacts.startswith_spec in E as [t ->].
  rewrite drop_app_length. intros H. by exists t.
Qed.

Lemma group_star_inv cls k s g :
  group_star cls k s = Some g ->
  exists run s' g', s = run ++ s' /\ Forall (fun c => cls c = true) run
                    /\ k s' = Some g' /\ g = run :: g'.
Proof.
  assert (Hempty : cons [] <$> k s = Some g ->
    exists run s' g', s = run ++ s' /\ Forall (fun c => cls c = true) run
                      /\ k s' = Some g' /\ g = run :: g').
  { intros (g' & Hk & ->)%fmap_Some. by exists [], s, g'. }
  unfold group_star. destruct s as [|x s]; [done|].
  destruct (cls x) eqn:Hx; [|done].
  destruct (plus cls k [x] s) as [g0|] eqn:Hp; [|done].
  intros [= <-].
  apply MatchFacts.plus_inv in Hp as (run & s' & g' & -> & Hrun & Hk & ->).
  exists (x :: run), s', g'. split_and!; [done| |done|done].
  by apply Forall_cons.
Qed.

(** What a match of a pattern with a group that may be empty looks like:
    the key, white space, the opening character, the group, the closing
    character. *)
Lemma keyed_group_inv key opening closing cls s g :
  group1 (literal key
            (star isspace
               (literal [opening]
                  (group_star cls (literal [closing] matched))))) s
  = Some g ->
  Forall (fun c => cls c = true) g
  /\ exists pre ws post,
       s = pre ++ key ++ ws ++ [opening] ++ g ++ [closing] ++ post
       /\ Forall is_space ws.
Proof.
  unfold group1.
  destruct (search_with _ s) as [[|g0 gs]|] eqn:E; [done| |done].
  intros [= ->].
  apply search_with_inv in E as (pre & s1 & -> & E).
  apply literal_inv in E as (s2 & -> & E).
  apply MatchFacts.star_inv in E as (ws & s3 & -> & Hws & E).
  apply literal_inv in E as (s4 & -> & E).
  apply group_star_inv in E as (run & s5 & g' & -> & Hrun & E & [= -> ->]).
  apply literal_inv in E as (post & -> & _).
  split; [done|]. by exists pre, ws, post.
Qed.

Section Script.

Variable number : Type.
Variable json_loads : pystr -> option (TestFullFlow.json number).
Variable py_str : TestFullFlow.json number -> pystr.

Lemma flow_loop_calls timeout rs : forall st why st',
  TestFullFlow.read_loop number json_loads py_str timeout st rs
  = Some (why, st') ->
  exists k, TestFullFlow.calls st'
            = TestFullFlow.calls st ++ repeat (RecvCall 4096) k.
Proof.
  induction rs as [|[now r] rs IH]; intros st why st'; simpl; [done|].
  destruct (Qltb now timeout); simpl.
  2:{ intros [= _ <-]. exists 0%nat. by rewrite app_nil_r. }
  destruct r as [chunk|later|msg];
    try (intros [= _ <-]; by exists 1%nat).
  destruct (nonempty chunk); [|intros [= _ <-]; by exists 1%nat].
  destruct (GenAndRun.completion_check _).
  - intros [= _ <-]. exists 1%nat.
    by rewrite CloseFacts.flow_handle_lines_calls.
  - intros H. apply IH in H as [k ->].
    rewrite CloseFacts.flow_handle_lines_calls. simpl.
    exists (S k). by rewrite <- app_assoc.
Qed.

(** One call of [send_command]: one socket; closed if the call returns. *)
Lemma flow_send_command_shape cmd timeout w :
  match TestFullFlow.send_command number json_loads py_str cmd timeout w with
  | inl None => True
  | inl (Some (_, text, st)) =>
      creates (TestFullFlow.calls st) = 1%nat
      /\ closes (TestFullFlow.calls st) = 1%nat
      /\ Forall scalar text
      /\ forall sent, Sendall sent ∈ TestFullFlow.calls st ->
           sent = cmd ++ [nl]
  | inr (e, calls) =>
      creates calls = 1%nat
      /\ closes calls = 0%nat
      /\ forall sent, Sendall sent ∈ calls -> sent = cmd ++ [nl]
  end.
Proof.
  unfold TestFullFlow.send_command.
  destruct (connect_ok w); simpl.
  2:{ split_and!; [done|done|]. intros sent H.
      repeat (apply elem_of_cons in H as [H|H]; [done|]).
      by apply elem_of_nil in H. }
  destruct (send_ok w); simpl.
  2:{ split_and!; [done|done|]. intros sent H.
      repeat (apply elem_of_cons in H as [H|H]; [congruence|]).
      by apply elem_of_nil in H. }
  destruct (TestFullFlow.read_loop _ _ _ _ _ _) as [[why st]|] eqn:E; [|done].
  simpl. apply flow_loop_calls in E as [k ->]. simpl.
  destruct (ScriptFacts.recv_calls k) as (Hc & Hl & Hs).
  rewrite !ScriptFacts.creates_app, !LoopFacts.closes_app, Hc, Hl. simpl.
  split_and!; [done|done| |].
  - by apply (ScriptFacts.decode_replace_scalar (length (TestFullFlow.all_data st))).
  - intros sent H.
    repeat (rewrite elem_of_cons in H || rewrite elem_of_app in H).
    destruct_or! H; try done; try congruence;
      [by destruct (Hs sent)|by apply elem_of_nil in H].
Qed.

(** What lines 76-90 print. *)
Lemma verdict_spec exec_result x :
  x ∈ verdict exec_result ->
  match x with
  | Succeeded => TestFullFlow.success exec_result = true
  | NotSucceeded => TestFullFlow.success exec_result = false
  | Comments excerpt =>
      TestFullFlow.success exec_result = true
      /\ exists comments,
           group1 comments_pattern exec_result = Some comments
           /\ strip comments <> [] /\ excerpt = take 200 comments
  | NoComments =>
      TestFullFlow.success exec_result = true
      /\ exists comments,
           group1 comments_pattern exec_result = Some comments
           /\ strip comments = []
  | ErrorText msg =>
      TestFullFlow.success exec_result = false
      /\ group1 error_pattern exec_result = Some msg
  | _ => False
  end.
Proof.
  unfold verdict. destruct (TestFullFlow.success exec_result).
  - intros [->|H]%elem_of_cons; [done|].
    destruct (group1 comments_pattern exec_result) as [comments|];
      [|by apply elem_of_nil in H].
    destruct (strip comments) eqn:Es; simpl in H;
      apply list_elem_of_singleton in H as ->;
      (split; [done|]); exists comments; by rewrite Es.
  - intros [->|H]%elem_of_cons; [done|].
    destruct (group1 error_pattern exec_result) as [msg|];
      [|by apply elem_of_nil in H].
    by apply list_elem_of_singleton in H as ->.
Qed.

End Script.

End FlowScriptFacts.

(** X18.  [test_full_flow.py] as a whole.  It creates at most two sockets;
    when it exits, with status 0 or 1, each has been closed, and when an
    exception leaves [send_command] one is left open.  It exits with status
    1 exactly when it reports that the generation failed, having opened one
    socket only.  Every command sent can be encoded, and the second one
    carries the identifier printed as generated, which is not empty and
    holds no double quote.  The excerpt of the comments has at most 200
    characters, none of them a closing bracket, and is printed only for a
    reply counted as a success; the error text holds no double quote and is
    printed only for a reply not counted as a success; the summary repeats
    the generated identifier and the verdict printed before. *)
Theorem full_flow_script
    number (json_loads : pystr -> option (TestFullFlow.json number))
    (py_str : TestFullFlow.json number -> pystr) w1 w2 e out calls :
  TestFullFlowScript.main number json_loads py_str w1 w2
  = Some (e, out, calls) ->
  (creates calls <= 2)%nat
  /\ creates calls
     = match e with
       | TestFullFlowScript.Exited _ => closes calls
       | TestFullFlowScript.Traceback _ => S (closes calls)
       end
  /\ (e = TestFullFlowScript.Exited 1
      <-> TestFullFlowScript.GenerationFailed ∈ out)
  /\ (e = TestFullFlowScript.Exited 1 -> creates calls = 1%nat)
  /\ (forall sent, Sendall sent ∈ calls ->
        (exists bs, Codec.encode sent = Some bs)
        /\ (sent = Py.lit "SCRIPT_GENERATE:" ++ TestFullFlowScript.goal
                   ++ [Py.nl]
            \/ exists id,
                 TestFullFlowScript.Generated id ∈ out
                 /\ sent = Py.lit "SCRIPT_EXECUTE_AUTO:" ++ id ++ [Py.nl]))
  /\ forall x, x ∈ out ->
       match x with
       | TestFullFlowScript.Generated id => id <> [] /\ (Py.dq ∉ id)
       | TestFullFlowScript.Comments excerpt =>
           (length excerpt <= 200)%nat /\ (93 ∉ excerpt)
           /\ TestFullFlowScript.Succeeded ∈ out
       | TestFullFlowScript.ErrorText msg =>
           (Py.dq ∉ msg) /\ TestFullFlowScript.NotSucceeded ∈ out
       | TestFullFlowScript.Summary id success =>
           e = TestFullFlowScript.Exited 0
           /\ TestFullFlowScript.Generated id ∈ out
           /\ (if success
               then TestFullFlowScript.Succeeded ∈ out
               else TestFullFlowScript.NotSucceeded ∈ out)
       | _ => True
       end.
Proof.
  assert (Hgoal : Forall scalar
            ((Py.lit "SCRIPT_GENERATE:" ++ TestFullFlowScript.goal) ++ [Py.nl])).
  { apply ScriptFacts.scalar_check. by vm_compute. }
  assert (Hsess : forall (l : list console) x,
    x ∈ map TestFullFlowScript.Session l ->
    exists c, x = TestFullFlowScript.Session c).
  { intros l x (c & -> & _)%list_elem_of_fmap. by exists c. }
  unfold TestFullFlowScript.main. cbv zeta.
  pose proof (FlowScriptFacts.flow_send_command_shape number json_loads py_str
    (Py.lit "SCRIPT_GENERATE:" ++ TestFullFlowScript.goal) 120 w1) as H1.
  destruct (TestFullFlow.send_command number json_loads py_str _ 120 w1)
    as [[[[why1 result] st1]|]|[e1 c1]]; [| done |].
  2:{ destruct H1 as (Hcr & Hcl & Hs).
      intros [= <- <- <-].
      rewrite Hcr, Hcl. split_and!; [lia|done| |done| |].
      - split; [done|]. by intros H%elem_of_nil.
      - intros sent Hsent. rewrite (Hs sent Hsent). split.
        + by apply ScriptFacts.encode_scalar.
        + left. by rewrite <- app_assoc.
      - by intros x H%elem_of_nil. }
  destruct H1 as (Hcr1 & Hcl1 & Hres & Hs1).
  assert (Hfirst : forall sent, Sendall sent ∈ TestFullFlow.calls st1 ->
    (exists bs, Codec.encode sent = Some bs)
    /\ sent = Py.lit "SCRIPT_GENERATE:" ++ TestFullFlowScript.goal ++ [Py.nl]).
  { intros sent Hsent. rewrite (Hs1 sent Hsent). split.
    - by apply ScriptFacts.encode_scalar.
    - by rewrite <- app_assoc. }
  destruct (GenAndRun.extract_id result) as [script_id|] eqn:Eid.
  2:{ intros [= <- <- <-]. rewrite Hcr1, Hcl1.
      split_and!; [lia|done| |done| |].
      - split; [intros _|done]. apply elem_of_app. right. by left.
      - intros sent Hsent. destruct (Hfirst sent Hsent) as [He ->].
        split; [done|by left].
      - intros x [Hx|Hx]%elem_of_app.
        + by destruct (Hsess _ _ Hx) as [c ->].
        + by apply list_elem_of_singleton in Hx as ->. }
  apply MatchFacts.extract_id_inv in Eid
    as (Hne & Hdq & pre & ws & post & Hresult & _).
  assert (Hid : Forall scalar
            ((Py.lit "SCRIPT_EXECUTE_AUTO:" ++ script_id) ++ [Py.nl])).
  { rewrite Hresult in Hres. rewrite !Forall_app in Hres.
    destruct Hres as (_ & _ & _ & _ & Hv & _).
    rewrite !Forall_app.
    split_and!; [|done|]; apply ScriptFacts.scalar_check; by vm_compute. }
  pose proof (FlowScriptFacts.flow_send_command_shape number json_loads py_str
    (Py.lit "SCRIPT_EXECUTE_AUTO:" ++ script_id) 180 w2) as H2.
  assert (Hsent : forall (out0 : list TestFullFlowScript.said) calls2 sent,
    (forall sent, Sendall sent ∈ calls2 ->
       sent = (Py.lit "SCRIPT_EXECUTE_AUTO:" ++ script_id) ++ [Py.nl]) ->
    TestFullFlowScript.Generated script_id ∈ out0 ->
    Sendall sent ∈ TestFullFlow.calls st1 ++ calls2 ->
    (exists bs, Codec.encode sent = Some bs)
    /\ (sent = Py.lit "SCRIPT_GENERATE:" ++ TestFullFlowScript.goal ++ [Py.nl]
        \/ exists id,
             TestFullFlowScript.Generated id ∈ out0
             /\ sent = Py.lit "SCRIPT_EXECUTE_AUTO:" ++ id ++ [Py.nl])).
  { intros out0 calls2 sent Hs2 Hout [Ht|Ht]%elem_of_app.
    - destruct (Hfirst sent Ht) as [He ->]. split; [done|by left].
    - rewrite (Hs2 sent Ht). split; [by apply ScriptFacts.encode_scalar|].
      right. exists script_id. by rewrite <- app_assoc. }
  destruct (TestFullFlow.send_command number json_loads py_str _ 180 w2)
    as [[[[why2 exec_result] st2]|]|[e2 c2]]; [| done |].
  2:{ destruct H2 as (Hcr & Hcl & Hs2).
      intros [= <- <- <-].
      assert (Hgen : TestFullFlowScript.Generated script_id
                     ∈ map TestFullFlowScript.Session (TestFullFlow.stdout st1)
                       ++ [TestFullFlowScript.Generated script_id]).
      { apply elem_of_app. right. by left. }
      rewrite ScriptFacts.creates_app, LoopFacts.closes_app, Hcr1, Hcl1, Hcr, Hcl.
      split_and!; [lia|done| |done| |].
      - split; [done|]. intros [Hx|Hx]%elem_of_app.
        + by destruct (Hsess _ _ Hx) as [c Hc].
        + by apply list_elem_of_singleton in Hx.
      - intros sent. by apply Hsent.
      - intros x [Hx|Hx]%elem_of_app.
        + by destruct (Hsess _ _ Hx) as [c ->].
        + by apply list_elem_of_singleton in Hx as ->. }
  destruct H2 as (Hcr2 & Hcl2 & _ & Hs2).
  set (success := TestFullFlow.success exec_result).
  set (full := (map TestFullFlowScript.Session (TestFullFlow.stdout st1)
                ++ [TestFullFlowScript.Generated script_id])
               ++ map TestFullFlowScript.Session (TestFullFlow.stdout st2)
               ++ TestFullFlowScript.verdict exec_result
               ++ [TestFullFlowScript.Summary script_id success]).
  intros [= <- <- <-].
  assert (Hgen : TestFullFlowScript.Generated script_id ∈ full).
  { apply elem_of_app. left. apply elem_of_app. right. by left. }
  assert (Hverdict : forall x, x ∈ TestFullFlowScript.verdict exec_result ->
            x ∈ full).
  { intros x Hx. apply elem_of_app. right. apply elem_of_app. right.
    apply elem_of_app. by left. }
  assert (Hmark : if success
                  then TestFullFlowScript.Succeeded ∈ full
                  else TestFullFlowScript.NotSucceeded ∈ full).
  { unfold success. destruct (TestFullFlow.success exec_result) eqn:Es;
      apply Hverdict; unfold TestFullFlowScript.verdict; rewrite Es; by left. }
  assert (Hparts : forall x, x ∈ full ->
    (exists c, x = TestFullFlowScript.Session c)
    \/ x = TestFullFlowScript.Generated script_id
    \/ x ∈ TestFullFlowScript.verdict exec_result
    \/ x = TestFullFlowScript.Summary script_id success).
  { intros x Hx. unfold full in Hx. rewrite !elem_of_app in Hx.
    destruct Hx as [[Hx|Hx]|[Hx|[Hx|Hx]]].
    - left. by eapply Hsess.
    - right. left. by apply list_elem_of_singleton in Hx.
    - left. by eapply Hsess.
    - right. right. by left.
    - right. right. right. by apply list_elem_of_singleton in Hx. }
  rewrite ScriptFacts.creates_app, LoopFacts.closes_app, Hcr1, Hcl1, Hcr2, Hcl2.
  split_and!; [lia|done| |done| |].
  - split; [done|]. intros Hx.
    destruct (Hparts _ Hx) as [[c Hc]|[Hc|[Hc|Hc]]]; try done.
    by apply FlowScriptFacts.verdict_spec in Hc.
  - intros sent. by apply Hsent.
  - intros x Hx.
    destruct (Hparts _ Hx) as [[c ->]|[->|[Hv| ->]]]; [done|done| |done].
    pose proof (FlowScriptFacts.verdict_spec _ _ Hv) as Hspec.
    destruct x as [c| |id| |excerpt| | |msg|id b]; try done.
    + destruct Hspec as (Hsucc & comments & Hg & _ & ->).
      apply FlowScriptFacts.keyed_group_inv in Hg as [Hcls _].
      split_and!.
      * rewrite length_take. lia.
      * intros Hin. apply elem_of_take in Hin as (i & Hi & _).
        apply list_elem_of_lookup_2 in Hi.
        rewrite Forall_forall in Hcls. by specialize (Hcls _ Hi).
      * unfold success in Hmark. by rewrite Hsucc in Hmark.
    + destruct Hspec as (Hsucc & Hg).
      apply FlowScriptFacts.keyed_group_inv in Hg as [Hcls _].
      split.
      * intros Hin. rewrite Forall_forall in Hcls. by specialize (Hcls _ Hin).
      * unfold success in Hmark. by rewrite Hsucc in Hmark.
Qed.

(** The first reply names the script s1; the second counts as a success
    and lists two comments.  In a second run the first reply names no
    script. *)
Lemma full_flow_script_witness :
  let json_loads (line : pystr) : option (TestFullFlow.json Z) := None in
  let py_str (v : TestFullFlow.json Z) : pystr := [] in
  let w1 := World true true
    [(1%Q, Recv (Utf8.ascii_bytes (Lit.payload "id" (Py.lit "s1"))));
     (2%Q, Recv [])] in
  let w2 := World true true
    [(1%Q, Recv (Utf8.ascii_bytes
                   (Py.lit "{" ++ Lit.success_true ++ Py.lit ","
                    ++ Py.quoted "comments" ++ Py.lit ": [a, b]}")));
     (2%Q, Recv [])] in
  let w0 := World true true [(1%Q, Recv [x7b; x7d]); (2%Q, Recv [])] in
  (exists calls,
     TestFullFlowScript.main Z json_loads py_str w1 w2
     = Some (TestFullFlowScript.Exited 0,
             [TestFullFlowScript.Generated (Py.lit "s1");
              TestFullFlowScript.Succeeded;
              TestFullFlowScript.Comments (Py.lit "a, b");
              TestFullFlowScript.Summary (Py.lit "s1") true], calls)
     /\ creates calls = 2%nat /\ closes calls = 2%nat)
  /\ (exists calls,
     TestFullFlowScript.main Z json_loads py_str w0 w2
     = Some (TestFullFlowScript.Exited 1,
             [TestFullFlowScript.GenerationFailed], calls)
     /\ creates calls = 1%nat /\ closes calls = 1%nat).
Proof.
  intros json_loads py_str w1 w2 w0. split.
  - destruct (TestFullFlowScript.main Z json_loads py_str w1 w2)
      as [[[e out] calls]|] eqn:E; [|by vm_compute in E].
    destruct (full_flow_script Z json_loads py_str w1 w2 e out calls E)
      as (_ & Hcl & _).
    vm_compute in E. injection E as <- <- <-.
    eexists. split; [reflexivity|]. split; [reflexivity|by rewrite <- Hcl].
  - destruct (TestFullFlowScript.main Z json_loads py_str w0 w2)
      as [[[e out] calls]|] eqn:E; [|by vm_compute in E].
    destruct (full_flow_script Z json_loads py_str w0 w2 e out calls E)
      as (_ & Hcl & _).
    vm_compute in E. injection E as <- <- <-.
    eexists. split; [reflexivity|]. split; [reflexivity|by rewrite <- Hcl].
Defined.

(** ** The button script: every node found has its parent on record *)

Module ButtonFacts.
Import Py AnalyzeXml AnalyzeButton.

Lemma below_spec f cs : forall i p,
  p ∈ below f i cs
  <-> exists j c p', cs !! j = Some c /\ p = (i + j)%nat :: p' /\ p' ∈ f c.
Proof.
  induction cs as [|c cs IH]; intros i p; simpl.
  - split; [by intros H%elem_of_nil|]. by intros (j & c & p' & H & _).
  - rewrite elem_of_app, IH. split.
    + intros [H|(j & c' & p' & Hj & -> & Hp)].
      * apply list_elem_of_In, in_map_iff in H as (p' & <- & Hp).
        exists 0%nat, c, p'. rewrite Nat.add_0_r.
        split_and!; [done|done|by apply list_elem_of_In].
      * exists (S j), c', p'. split_and!; [done|f_equal; lia|done].
    + intros ([|j] & c' & p' & Hj & -> & Hp).
      * left. simpl in Hj. injection Hj as <-. rewrite Nat.add_0_r.
        apply list_elem_of_In, in_map_iff. exists p'.
        split; [done|by apply list_elem_of_In].
      * right. exists j, c', p'. split_and!; [done|f_equal; lia|done].
Qed.

(** The places listed are the places of the tree. *)
Lemma places_valid node : forall p,
  p ∈ places node <-> is_Some (at_place node p).
Proof.
  induction node as [tag attrib children IH] using XmlFacts.element_induction.
  intros p. cbn [places]. rewrite elem_of_cons, below_spec. split.
  - intros [->|(j & c & p' & Hj & -> & Hp)]; [by eexists|].
    simpl. rewrite Hj.
    rewrite Forall_forall in IH. apply (IH c); [|done].
    by eapply list_elem_of_lookup_2.
  - destruct p as [|i p]; [by left|]. simpl.
    destruct (children !! i) as [c|] eqn:Hi; [|by intros [? ?]].
    intros Hp. right. exists i, c, p. split_and!; [done|done|].
    rewrite Forall_forall in IH. apply (IH c); [|done].
    by eapply list_elem_of_lookup_2.
Qed.

Lemma at_place_app node : forall p q,
  at_place node (p ++ q) = at_place node p ≫= fun n => at_place n q.
Proof.
  intros p. revert node. induction p as [|i p IH]; intros node q; [done|].
  simpl. destruct (children_of node !! i); [apply IH|done].
Qed.

Lemma parent_pairs_spec root k v :
  (k, v) ∈ parent_pairs root
  <-> exists i node child,
        k = v ++ [i] /\ at_place root v = Some node
        /\ children_of node !! i = Some child.
Proof.
  unfold parent_pairs.
  rewrite list_elem_of_In, in_flat_map. split.
  - intros (q & Hq & Hin).
    destruct (at_place root q) as [node|] eqn:Eq; [|done].
    apply in_map_iff in Hin as (i & [= <- <-] & Hi).
    apply in_seq in Hi.
    destruct (lookup_lt_is_Some_2 (children_of node) i) as [child Hc]; [lia|].
    by exists i, node, child.
  - intros (i & node & child & -> & Hv & Hc).
    exists v. split.
    + apply list_elem_of_In, places_valid. by rewrite Hv.
    + rewrite Hv. apply in_map_iff. exists i. split; [done|].
      apply in_seq. apply lookup_lt_Some in Hc. lia.
Qed.

Lemma fold_insert_other (pairs : list (place * place)) :
  forall (m : gmap place place) k,
  (forall v, (k, v) ∉ pairs) ->
  fold_left (fun m kv => <[fst kv := snd kv]> m) pairs m !! k = m !! k.
Proof.
  induction pairs as [|[k0 v0] pairs IH]; intros m k Hk; simpl; [done|].
  rewrite IH.
  - apply lookup_insert_ne. intros ->. apply (Hk v0). by left.
  - intros v Hv. apply (Hk v). by right.
Qed.

Lemma fold_insert_lookup (pairs : list (place * place)) :
  forall (m : gmap place place) k v,
  (k, v) ∈ pairs ->
  (forall v', (k, v') ∈ pairs -> v' = v) ->
  fold_left (fun m kv => <[fst kv := snd kv]> m) pairs m !! k = Some v.
Proof.
  induction pairs as [|[k0 v0] pairs IH]; intros m k v Hin Hv; simpl.
  - by apply elem_of_nil in Hin.
  - destruct (decide ((k, v) ∈ pairs)) as [Hrest|Hrest].
    + apply IH; [done|]. intros v' Hv'. apply Hv. by right.
    + apply elem_of_cons in Hin as [[= <- <-]|Hin]; [|done].
      rewrite fold_insert_other.
      * simpl. by rewrite lookup_insert_eq.
      * intros v' Hv'. assert (v' = v) as -> by (apply Hv; by right). done.
Qed.

End ButtonFacts.

(** X19.  In the script that looks for the button, every element that
    [findall] hands over lies below the root, so the dictionary of parents
    built at line 29 has it as a key: the test of line 30 never fails, the
    parent found is the element one level up, of which the node is a child,
    and the block about the parent follows every block about a button. *)
Theorem found_node_has_parent root p :
  p ∈ AnalyzeButton.findall_node root ->
  exists q i node parent,
    p = q ++ [i]
    /\ AnalyzeButton.at_place root p = Some node
    /\ AnalyzeButton.tag_of node = Py.lit "node"
    /\ AnalyzeButton.at_place root q = Some parent
    /\ AnalyzeXml.children_of parent !! i = Some node
    /\ AnalyzeButton.parent_map root !! p = Some q
    /\ AnalyzeButton.report root p
       = if AnalyzeButton.is_button node
         then [AnalyzeButton.Button node; AnalyzeButton.Parent parent]
         else [].
Proof.
  intros H. unfold AnalyzeButton.findall_node in H.
  apply list_elem_of_In, filter_In in H as [_ Ht].
  assert (Hne : p <> []) by (by intros ->).
  assert (Hnode : AnalyzeButton.tag_of <$> AnalyzeButton.at_place root p
                  = Some (Py.lit "node")).
  { destruct p; [done|]. by apply bool_decide_eq_true in Ht. }
  apply fmap_Some in Hnode as (node & Hat & Htag).
  destruct (exists_last Hne) as (q & i & ->).
  pose proof Hat as Hq. rewrite ButtonFacts.at_place_app in Hq.
  destruct (AnalyzeButton.at_place root q) as [parent|] eqn:Eq; [|done].
  simpl in Hq.
  destruct (AnalyzeXml.children_of parent !! i) as [child|] eqn:Ei; [|done].
  injection Hq as ->.
  assert (Hmap : AnalyzeButton.parent_map root !! (q ++ [i]) = Some q).
  { apply ButtonFacts.fold_insert_lookup.
    - apply ButtonFacts.parent_pairs_spec. by exists i, parent, node.
    - intros v' (i' & _ & _ & Hk & _)%ButtonFacts.parent_pairs_spec.
      by apply app_inj_tail in Hk as [-> _]. }
  exists q, i, node, parent. split_and!; try done.
  unfold AnalyzeButton.report. by rewrite Hat, Hmap, Eq.
Qed.

(** A tab bar with two tabs, the second of which is the button. *)
Lemma found_node_has_parent_witness :
  let me := AnalyzeXml.Element (Py.lit "node")
    {[ Py.lit "text" := [25105]; Py.lit "bounds" := Py.lit "[864,2264][1080,2324]" ]}
    [] in
  let bar := AnalyzeXml.Element (Py.lit "node")
    {[ Py.lit "resource-id" := Py.lit "tabs" ]}
    [AnalyzeXml.Element (Py.lit "node") ∅ []; me] in
  let root := AnalyzeXml.Element (Py.lit "hierarchy") ∅ [bar] in
  AnalyzeButton.findall_node root = [[0]; [0; 0]; [0; 1]]%nat
  /\ AnalyzeButton.main root
     = [AnalyzeButton.Button me; AnalyzeButton.Parent bar]
  /\ AnalyzeButton.report root [0; 1]%nat
     = [AnalyzeButton.Button me; AnalyzeButton.Parent bar].
Proof.
  intros me bar root.
  assert (E : AnalyzeButton.findall_node root = [[0]; [0; 0]; [0; 1]]%nat)
    by (by vm_compute).
  split; [exact E|]. split; [by vm_compute|].
  destruct (found_node_has_parent root [0; 1]%nat)
    as (q & i & node & parent & _ & Hat & _ & Hq & _ & Hm & Hr).
  { rewrite E. right. right. left. }
  rewrite Hr. vm_compute in Hat. injection Hat as <-.
  assert (q = [0%nat]) as ->.
  { vm_compute in Hm. by injection Hm as <-. }
  vm_compute in Hq. injection Hq as <-. by vm_compute.
Defined.
